(** * jobot: the job-application store and the email engine

    A shallow embedding of the persistent entity store ([JobStore], the
    data-access layer over SQLite), of its statistics queries, and of the
    email matching and classification engine (email-monitor.ts), followed by
    the properties of the specification that concern them; then of the
    callers of the store: the job scanner, the apply tool, two gateway
    methods and the resume tool, with the properties that their code shows.

    Conventions of the embedding.
    - A table is the list of its rows in rowid (insertion) order.  The
      PRIMARY KEY of a table is enforced by [INSERT]: inserting an id that
      is already present raises.  So is a [REFERENCES] clause: inserting a
      row whose parent is not stored raises.
    - The store methods run in a state-and-exception monad over the database;
      nothing is transactional, so the effects made before a raise persist.
    - [Date.now()] and [randomUUID()] are inputs of the environment: every
      method that reads them takes the value read as an explicit argument.
    - A string is the sequence of its code units; the model covers ASCII
      text (every code unit below 128), on which [toLowerCase] maps A-Z to
      a-z and [\s] is tab, line feed, vertical tab, form feed, carriage
      return and space.
    - Structured sub-objects (requirements, tech stack, answers, metadata,
      parsed resume data) are the text blobs [JSON.stringify] makes of them;
      the store never looks inside.
    - What a caller draws at random or reads from the file system (the
      listings of a search, whether a file exists, the result of a copy) is
      an input, as the clock is. *)

From Stdlib Require Import ZArith List String Ascii Bool Lia QArith.
From Stdlib Require Import Sorted Permutation DecimalString DecimalN.
Import ListNotations.

Local Open Scope string_scope.
Local Open Scope list_scope.
Local Open Scope Z_scope.

(* ===================================================================== *)
(** ** JavaScript strings *)
(* ===================================================================== *)

Module Js.

Definition is_upper (c : ascii) : bool :=
  let n := N_of_ascii c in ((65 <=? n) && (n <=? 90))%N.

Definition lower_char (c : ascii) : ascii :=
  if is_upper c then ascii_of_N (N_of_ascii c + 32) else c.

(** [String.prototype.toLowerCase]. *)
Fixpoint toLowerCase (s : string) : string :=
  match s with
  | EmptyString => EmptyString
  | String c r => String (lower_char c) (toLowerCase r)
  end.

(** [String.prototype.startsWith]. *)
Fixpoint startsWith (s w : string) {struct w} : bool :=
  match w with
  | EmptyString => true
  | String a w' =>
      match s with
      | EmptyString => false
      | String b s' => if Ascii.eqb a b then startsWith s' w' else false
      end
  end.

(** [String.prototype.includes]: [w] occurs in [s] at some position. *)
Fixpoint includes (s w : string) : bool :=
  startsWith s w ||
  match s with
  | EmptyString => false
  | String _ r => includes r w
  end.

(** [s.split(sep)] for a one-character separator. *)
Fixpoint split (sep : ascii) (s : string) : list string :=
  match s with
  | EmptyString => [EmptyString]
  | String c r =>
      if Ascii.eqb c sep then EmptyString :: split sep r
      else match split sep r with
           | h :: t => String c h :: t
           | [] => [String c EmptyString]
           end
  end.

(** The class [\s] on ASCII. *)
Definition is_space (c : ascii) : bool :=
  let n := N_of_ascii c in (((9 <=? n) && (n <=? 13)) || (n =? 32))%N.

(** [s.split(/\s+/)]: a maximal run of white space is one separator; a
    leading or trailing run leaves an empty piece. *)
Fixpoint split_ws (s : string) : list string :=
  match s with
  | EmptyString => [EmptyString]
  | String c r =>
      if is_space c then
        match r with
        | String c' _ => if is_space c' then split_ws r
                         else EmptyString :: split_ws r
        | EmptyString => EmptyString :: split_ws r
        end
      else match split_ws r with
           | h :: t => String c h :: t
           | [] => [String c EmptyString]
           end
  end.

(** [s.length], as an integer. *)
Definition length (s : string) : Z := Z.of_nat (String.length s).

(** [Array.prototype.some]. *)
Definition some {A : Type} (f : A -> bool) (l : list A) : bool := existsb f l.

(** A stable sort by a comparator, as [Array.prototype.sort] and the
    sorter behind [ORDER BY] are: [le x y] says that [x] may stand before
    [y]; elements that compare equal keep their order. *)
Fixpoint insert {A : Type} (le : A -> A -> bool) (x : A) (l : list A) : list A :=
  match l with
  | [] => [x]
  | y :: r => if le x y then x :: l else y :: insert le x r
  end.

Fixpoint sort {A : Type} (le : A -> A -> bool) (l : list A) : list A :=
  match l with
  | [] => []
  | x :: r => insert le x (sort le r)
  end.

(** A string in a condition: absent and empty are both falsy. *)
Definition nonempty (s : option string) : option string :=
  match s with
  | Some EmptyString => None
  | other => other
  end.

(** The class [\d]. *)
Definition is_digit (c : ascii) : bool :=
  let n := N_of_ascii c in ((48 <=? n) && (n <=? 57))%N.

End Js.

(* ===================================================================== *)
(** ** Core types (types.ts) *)
(* ===================================================================== *)

Inductive JobSource := indeed | linkedin | greenhouse | lever | custom.

Definition JobSource_eqb (a b : JobSource) : bool :=
  match a, b with
  | indeed, indeed | linkedin, linkedin | greenhouse, greenhouse
  | lever, lever | custom, custom => true
  | _, _ => false
  end.

Module JobStatus.
Inductive t := new | reviewing | approved | rejected | applied | archived.
Definition eqb (a b : t) : bool :=
  match a, b with
  | new, new | reviewing, reviewing | approved, approved
  | rejected, rejected | applied, applied | archived, archived => true
  | _, _ => false
  end.
End JobStatus.

Module ApplicationStatus.
Inductive t :=
  pending | submitted | viewed | rejected | interview | offer
| withdrawn | closed.
Definition eqb (a b : t) : bool :=
  match a, b with
  | pending, pending | submitted, submitted | viewed, viewed
  | rejected, rejected | interview, interview | offer, offer
  | withdrawn, withdrawn | closed, closed => true
  | _, _ => false
  end.
End ApplicationStatus.

Module EmailThreadStatus.
Inductive t := active | awaiting_response | responded | closed.
End EmailThreadStatus.

Inductive FileType := pdf | docx | txt.

(* ===================================================================== *)
(** ** Rows and tables (schema.ts) *)
(* ===================================================================== *)

Record JobRow := mkJobRow {
  job_id : string;
  job_external_id : option string;
  job_source : JobSource;
  job_company : string;
  job_title : string;
  job_location : option string;
  job_salary_min : option Z;
  job_salary_max : option Z;
  job_salary_currency : option string;
  job_description : option string;
  job_requirements : option string;
  job_tech_stack : option string;
  job_url : string;
  job_posted_at : option Z;
  job_discovered_at : Z;
  job_status : JobStatus.t;
  job_metadata : option string
}.

Record ApplicationRow := mkApplicationRow {
  app_id : string;
  app_job_id : string;
  app_status : ApplicationStatus.t;
  app_applied_at : option Z;
  app_resume_id : option string;
  app_cover_letter : option string;
  app_answers : option string;
  app_notes : option string;
  app_last_activity_at : Z;
  app_created_at : Z;
  app_updated_at : Z
}.

Record EmailThreadRow := mkEmailThreadRow {
  thr_id : string;
  thr_application_id : string;
  thr_gmail_thread_id : option string;
  thr_subject : string;
  thr_from_email : string;
  thr_last_message_at : Z;
  thr_status : EmailThreadStatus.t;
  thr_message_count : Z;
  thr_metadata : option string
}.

Record ResumeRow := mkResumeRow {
  res_id : string;
  res_name : string;
  res_file_path : string;
  res_file_type : FileType;
  res_parsed_data : option string;
  res_is_default : Z;
  res_created_at : Z;
  res_updated_at : Z
}.

Record ApplicationHistoryRow := mkApplicationHistoryRow {
  hist_id : string;
  hist_application_id : string;
  hist_old_status : option ApplicationStatus.t;
  hist_new_status : ApplicationStatus.t;
  hist_changed_at : Z;
  hist_notes : option string
}.

(** The database: one list of rows per table.  The [preferences] table is
    created by the schema and never read or written by the store. *)
Record Db := mkDb {
  jobs : list JobRow;
  applications : list ApplicationRow;
  email_threads : list EmailThreadRow;
  resumes : list ResumeRow;
  application_history : list ApplicationHistoryRow
}.

Definition empty_db : Db := mkDb [] [] [] [] [].

(* ===================================================================== *)
(** ** SQLite built-ins and the JavaScript Map *)
(* ===================================================================== *)

Module Sqlite.

(** The civil date of a day number counted from 1970-01-01, in the
    proleptic Gregorian calendar. *)
Definition civil_from_days (days : Z) : Z * Z * Z :=
  let z := days + 719468 in
  let era := z / 146097 in
  let doe := z - era * 146097 in
  let yoe := (doe - doe / 1460 + doe / 36524 - doe / 146096) / 365 in
  let y := yoe + era * 400 in
  let doy := doe - (365 * yoe + yoe / 4 - yoe / 100) in
  let mp := (5 * doy + 2) / 153 in
  let d := doy - (153 * mp + 2) / 5 + 1 in
  let m := if mp <? 10 then mp + 3 else mp - 9 in
  (if m <=? 2 then y + 1 else y, m, d).

Definition digit (n : Z) : ascii := ascii_of_N (48 + Z.to_N n).

Definition pad2 (n : Z) : string :=
  String (digit (n / 10)) (String (digit (n mod 10)) EmptyString).

Definition pad4 (n : Z) : string :=
  String (digit (n / 1000)) (String (digit (n / 100 mod 10)) (pad2 (n mod 100))).

(** [date(secs, 'unixepoch')]: the UTC calendar date [YYYY-MM-DD] of a
    count of seconds since the epoch, for the years 0000 to 9999 that the
    engine renders. *)
Definition date_unixepoch (secs : Z) : string :=
  let '(y, m, d) := civil_from_days (secs / 86400) in
  (pad4 y ++ "-" ++ pad2 m ++ "-" ++ pad2 d)%string.

(** [date(ms / 1000, 'unixepoch')]: the division of two integers is the
    engine's truncating one. *)
Definition date_of_millis (ms : Z) : string := date_unixepoch (Z.quot ms 1000).

(** [SELECT key AS date, COUNT( * ) AS count ... GROUP BY key ORDER BY key]
    over the keys of the selected rows: one row per distinct key, in
    ascending binary order of the key. *)
Fixpoint bump (k : string) (rows : list (string * Z)) : list (string * Z) :=
  match rows with
  | [] => [(k, 1)]
  | (k', c) :: r =>
      match String.compare k k' with
      | Eq => (k', c + 1) :: r
      | Lt => (k, 1) :: (k', c) :: r
      | Gt => (k', c) :: bump k r
      end
  end.

Definition group_count (keys : list string) : list (string * Z) :=
  fold_right bump [] keys.

(** [text LIKE pattern], without an ESCAPE clause: [%] stands for any run
    of characters, [_] for any one character, and letters match without
    regard to case. *)
Fixpoint like (pattern text : string) {struct pattern} : bool :=
  match pattern with
  | EmptyString => match text with EmptyString => true | String _ _ => false end
  | String p pattern' =>
      if Ascii.eqb p "%" then
        (fix any (t : string) : bool :=
           like pattern' t
           || match t with
              | EmptyString => false
              | String _ t' => any t'
              end) text
      else if Ascii.eqb p "_" then
        match text with
        | EmptyString => false
        | String _ text' => like pattern' text'
        end
      else
        match text with
        | EmptyString => false
        | String c text' =>
            Ascii.eqb (Js.lower_char p) (Js.lower_char c) && like pattern' text'
        end
  end.

(** [SELECT COUNT( * ) ... WHERE p]. *)
Definition count {R : Type} (p : R -> bool) (rows : list R) : Z :=
  Z.of_nat (List.length (filter p rows)).

End Sqlite.

(** [Map<string, V>]: the entries in insertion order; [set] on a key that
    is present replaces its value where it stands. *)
Module JsMap.

Definition t (V : Type) : Type := list (string * V).

Definition get {V : Type} (m : t V) (k : string) : option V :=
  option_map snd (find (fun kv => String.eqb (fst kv) k) m).

Fixpoint set {V : Type} (m : t V) (k : string) (v : V) : t V :=
  match m with
  | [] => [(k, v)]
  | (k', v') :: r =>
      if String.eqb k' k then (k', v) :: r else (k', v') :: set r k v
  end.

Definition values {V : Type} (m : t V) : list V := map snd m.

End JsMap.

(* ===================================================================== *)
(** ** The store monad *)
(* ===================================================================== *)

(** What a statement can raise: the engine's constraint failure on a
    duplicate primary key, with the table it was raised for, and its
    failure on a foreign key that names no row (the engine does not say for
    which table; node:sqlite opens the database with foreign keys
    enforced). *)
Inductive Error :=
| ConstraintPrimaryKey (table : string)
| ConstraintForeignKey.

Inductive Outcome (A : Type) :=
| Ok (a : A)
| Throw (e : Error).
Arguments Ok {A} a.
Arguments Throw {A} e.

(** A method of the store: it reads and writes the database and either
    returns or raises.  The database it leaves is meaningful in both cases. *)
Definition M (A : Type) : Type := Db -> Outcome A * Db.

Definition ret {A : Type} (a : A) : M A := fun db => (Ok a, db).

Definition bind {A B : Type} (m : M A) (k : A -> M B) : M B :=
  fun db =>
    match m db with
    | (Ok a, db') => k a db'
    | (Throw e, db') => (Throw e, db')
    end.

Definition throw {A : Type} (e : Error) : M A := fun db => (Throw e, db).

(** A [SELECT]: reads, never writes. *)
Definition query {A : Type} (f : Db -> A) : M A := fun db => (Ok (f db), db).

(** An [UPDATE] or [DELETE]: rewrites the tables, never raises. *)
Definition run (f : Db -> Db) : M unit := fun db => (Ok tt, f db).

(** [try { m } catch (e) { handler(e) }]. *)
Definition catch {A : Type} (m : M A) (handler : Error -> M A) : M A :=
  fun db =>
    match m db with
    | (Ok a, db') => (Ok a, db')
    | (Throw e, db') => handler e db'
    end.

Declare Scope store_scope.
Delimit Scope store_scope with store.
Notation "x <- m ;; k" := (bind m (fun x => k))
  (at level 61, m at next level, right associativity) : store_scope.
Notation "m ;; k" := (bind m (fun _ => k))
  (at level 61, right associativity) : store_scope.
Local Open Scope store_scope.

(** The database a method leaves, and what it returned. *)
Definition db_after {A : Type} (m : M A) (db : Db) : Db := snd (m db).
Definition outcome {A : Type} (m : M A) (db : Db) : Outcome A := fst (m db).

(** Table setters. *)
Definition set_jobs (db : Db) (t : list JobRow) : Db :=
  mkDb t (applications db) (email_threads db) (resumes db) (application_history db).
Definition set_applications (db : Db) (t : list ApplicationRow) : Db :=
  mkDb (jobs db) t (email_threads db) (resumes db) (application_history db).
Definition set_email_threads (db : Db) (t : list EmailThreadRow) : Db :=
  mkDb (jobs db) (applications db) t (resumes db) (application_history db).
Definition set_resumes (db : Db) (t : list ResumeRow) : Db :=
  mkDb (jobs db) (applications db) (email_threads db) t (application_history db).
Definition set_application_history (db : Db) (t : list ApplicationHistoryRow) : Db :=
  mkDb (jobs db) (applications db) (email_threads db) (resumes db) t.

(** [INSERT INTO t ... VALUES ...] on a table whose primary key is [key]. *)
Definition sql_insert {R : Type} (table : string) (key : R -> string)
    (get : Db -> list R) (set : Db -> list R -> Db) (r : R) : M unit :=
  fun db =>
    if existsb (fun x => String.eqb (key x) (key r)) (get db)
    then (Throw (ConstraintPrimaryKey table), db)
    else (Ok tt, set db (get db ++ [r])).

(** [INSERT] into a table with a column [ref] that [REFERENCES] the key of
    a parent table.  The primary key is checked as the row is written, the
    foreign key when the statement ends; after either failure nothing is
    stored. *)
Definition sql_insert_ref {R P : Type} (table : string) (key : R -> string)
    (get : Db -> list R) (set : Db -> list R -> Db)
    (parent_key : P -> string) (parents : Db -> list P) (ref : R -> string)
    (r : R) : M unit :=
  fun db =>
    if existsb (fun x => String.eqb (key x) (key r)) (get db)
    then (Throw (ConstraintPrimaryKey table), db)
    else if existsb (fun p => String.eqb (parent_key p) (ref r)) (parents db)
    then (Ok tt, set db (get db ++ [r]))
    else (Throw ConstraintForeignKey, db).

(** [LIMIT ? OFFSET ?]: a negative limit is no limit, a negative offset
    is no offset. *)
Definition sql_limit {R : Type} (limit offset : Z) (rows : list R) : list R :=
  let rest := skipn (Z.to_nat offset) rows in
  if limit <? 0 then rest else firstn (Z.to_nat limit) rest.

(** [a ?? b]. *)
Definition nullish {A : Type} (a : option A) (b : A) : A :=
  match a with Some x => x | None => b end.

(* ===================================================================== *)
(** ** JobStore (db/store.ts) *)
(* ===================================================================== *)

Module JobStore.

(** *** Jobs *)

Record JobParams := mkJobParams {
  p_externalId : option string;
  p_source : JobSource;
  p_company : string;
  p_title : string;
  p_location : option string;
  p_salaryMin : option Z;
  p_salaryMax : option Z;
  p_salaryCurrency : option string;
  p_description : option string;
  p_requirements : option string;
  p_techStack : option string;
  p_url : string;
  p_postedAt : option Z;
  p_metadata : option string
}.

Definition set_salary_currency (c : option string) (r : JobRow) : JobRow :=
  mkJobRow (job_id r) (job_external_id r) (job_source r) (job_company r)
    (job_title r) (job_location r) (job_salary_min r) (job_salary_max r)
    c (job_description r) (job_requirements r) (job_tech_stack r) (job_url r)
    (job_posted_at r) (job_discovered_at r) (job_status r) (job_metadata r).

(** [createJob] returns [fullJob], the object of the caller with the id, the
    time and the status added; the row it stores has the currency
    [fullJob.salaryCurrency ?? "USD"], which the object returned does not
    get. *)
Definition createJob (job : JobParams) (now : Z) (id : string) : M JobRow :=
  let fullJob :=
    mkJobRow id (p_externalId job) (p_source job) (p_company job)
      (p_title job) (p_location job) (p_salaryMin job) (p_salaryMax job)
      (p_salaryCurrency job) (p_description job)
      (p_requirements job) (p_techStack job) (p_url job) (p_postedAt job)
      now JobStatus.new (p_metadata job) in
  sql_insert "jobs" job_id jobs set_jobs
    (set_salary_currency (Some (nullish (job_salary_currency fullJob) "USD")) fullJob) ;;
  ret fullJob.

Definition getJob (id : string) : M (option JobRow) :=
  query (fun db => find (fun r => String.eqb (job_id r) id) (jobs db)).

Definition set_job_status (st : JobStatus.t) (r : JobRow) : JobRow :=
  mkJobRow (job_id r) (job_external_id r) (job_source r) (job_company r)
    (job_title r) (job_location r) (job_salary_min r) (job_salary_max r)
    (job_salary_currency r) (job_description r) (job_requirements r)
    (job_tech_stack r) (job_url r) (job_posted_at r) (job_discovered_at r)
    st (job_metadata r).

Definition updateJobStatus (id : string) (status : JobStatus.t) : M unit :=
  run (fun db =>
    set_jobs db
      (map (fun r => if String.eqb (job_id r) id then set_job_status status r else r)
           (jobs db))).

Record JobUpdates := mkJobUpdates {
  u_status : option JobStatus.t;
  u_description : option string;
  u_requirements : option string;
  u_techStack : option string;
  u_metadata : option string
}.

(** [SET col = ?] for the columns present in [updates]. *)
Definition apply_job_updates (u : JobUpdates) (r : JobRow) : JobRow :=
  let keep {A} (new : option A) (old : option A) : option A :=
    match new with Some x => Some x | None => old end in
  mkJobRow (job_id r) (job_external_id r) (job_source r) (job_company r)
    (job_title r) (job_location r) (job_salary_min r) (job_salary_max r)
    (job_salary_currency r)
    (keep (u_description u) (job_description r))
    (keep (u_requirements u) (job_requirements r))
    (keep (u_techStack u) (job_tech_stack r))
    (job_url r) (job_posted_at r) (job_discovered_at r)
    (nullish (u_status u) (job_status r))
    (keep (u_metadata u) (job_metadata r)).

Definition no_job_updates (u : JobUpdates) : bool :=
  match u_status u, u_description u, u_requirements u, u_techStack u, u_metadata u with
  | None, None, None, None, None => true
  | _, _, _, _, _ => false
  end.

Definition updateJob (id : string) (updates : JobUpdates) : M unit :=
  if no_job_updates updates then ret tt
  else run (fun db =>
    set_jobs db
      (map (fun r => if String.eqb (job_id r) id then apply_job_updates updates r else r)
           (jobs db))).

Definition getJobByExternalId (externalId : string) (source : JobSource)
  : M (option JobRow) :=
  query (fun db =>
    find (fun r => match job_external_id r with
                   | Some x => String.eqb x externalId && JobSource_eqb (job_source r) source
                   | None => false
                   end)
         (jobs db)).

Record ListJobsParams := mkListJobsParams {
  lj_status : option JobStatus.t;
  lj_source : option JobSource;
  lj_company : option string;
  lj_limit : option Z;
  lj_offset : option Z
}.

(** The [WHERE] clause that [listJobs] assembles: a condition for each
    filter that is given (an empty company counts as not given). *)
Definition job_selected (params : ListJobsParams) (r : JobRow) : bool :=
  match lj_status params with
  | Some st => JobStatus.eqb (job_status r) st
  | None => true
  end
  && match lj_source params with
     | Some src => JobSource_eqb (job_source r) src
     | None => true
     end
  && match Js.nonempty (lj_company params) with
     | Some company => Sqlite.like ("%" ++ company ++ "%")%string (job_company r)
     | None => true
     end.

(** [ORDER BY discovered_at DESC]. *)
Definition by_discovered_at_desc (a b : JobRow) : bool :=
  job_discovered_at b <=? job_discovered_at a.

(** The order in which the engine reads the selected jobs before it orders
    them.  With a condition on the status or on the source it reads them
    through the index on that column, in rowid order, and sorts them: jobs
    discovered at the same time stay in the order of their insertion.  With
    neither it walks the index on [discovered_at] backwards: jobs discovered
    at the same time come out last inserted first. *)
Definition read_order (params : ListJobsParams) (rows : list JobRow) : list JobRow :=
  match lj_status params, lj_source params with
  | None, None => rev rows
  | _, _ => rows
  end.

Definition listJobs (params : ListJobsParams) : M (list JobRow) :=
  query (fun db =>
    let limit := nullish (lj_limit params) 100 in
    let offset := nullish (lj_offset params) 0 in
    sql_limit limit offset
      (Js.sort by_discovered_at_desc
         (read_order params (filter (job_selected params) (jobs db))))).

(** *** Applications *)

Record ApplicationParams := mkApplicationParams {
  p_jobId : string;
  p_resumeId : option string;
  p_coverLetter : option string;
  p_answers : option string;
  p_notes : option string
}.

Definition createApplication (params : ApplicationParams) (now : Z) (id : string)
  : M ApplicationRow :=
  let application :=
    mkApplicationRow id (p_jobId params) ApplicationStatus.pending None
      (p_resumeId params) (p_coverLetter params) (p_answers params)
      (p_notes params) now now now in
  sql_insert_ref "applications" app_id applications set_applications
    job_id jobs app_job_id application ;;
  ret application.

Definition getApplication (id : string) : M (option ApplicationRow) :=
  query (fun db => find (fun r => String.eqb (app_id r) id) (applications db)).

Definition getApplicationByJobId (jobId : string) : M (option ApplicationRow) :=
  query (fun db => find (fun r => String.eqb (app_job_id r) jobId) (applications db)).

Record ListParams := mkListParams {
  l_status : option ApplicationStatus.t;
  l_limit : option Z;
  l_offset : option Z
}.

(** [ORDER BY updated_at DESC]. *)
Definition by_updated_at_desc (a b : ApplicationRow) : bool :=
  app_updated_at b <=? app_updated_at a.

Definition listApplications (params : ListParams) : M (list ApplicationRow) :=
  query (fun db =>
    let selected :=
      match l_status params with
      | Some st => filter (fun r => ApplicationStatus.eqb (app_status r) st)
                          (applications db)
      | None => applications db
      end in
    let limit := nullish (l_limit params) 100 in
    let offset := nullish (l_offset params) 0 in
    sql_limit limit offset (Js.sort by_updated_at_desc selected)).

(** The [UPDATE applications SET status = ?, last_activity_at = ?,
    updated_at = ?, applied_at = COALESCE(applied_at, ?)] of one row. *)
Definition coalesce {A : Type} (a b : option A) : option A :=
  match a with Some x => Some x | None => b end.

Definition set_application_status (st : ApplicationStatus.t) (now : Z)
    (stamp : option Z) (r : ApplicationRow) : ApplicationRow :=
  mkApplicationRow (app_id r) (app_job_id r) st
    (coalesce (app_applied_at r) stamp)
    (app_resume_id r) (app_cover_letter r) (app_answers r) (app_notes r)
    now (app_created_at r) now.

Definition updateApplicationStatus (id : string) (status : ApplicationStatus.t)
    (notes : option string) (now : Z) (historyId : string) : M unit :=
  app <- getApplication id ;;
  match app with
  | None => ret tt
  | Some app =>
      (* Update application *)
      run (fun db =>
        set_applications db
          (map (fun r =>
                  if String.eqb (app_id r) id
                  then set_application_status status now
                         (if ApplicationStatus.eqb status ApplicationStatus.submitted
                          then Some now else None) r
                  else r)
               (applications db))) ;;
      (* Record history *)
      sql_insert_ref "application_history" hist_id application_history
        set_application_history app_id applications hist_application_id
        (mkApplicationHistoryRow historyId id (Some (app_status app)) status
           now notes)
  end.

(** *** Email threads *)

Record EmailThreadParams := mkEmailThreadParams {
  p_applicationId : string;
  p_gmailThreadId : option string;
  p_subject : string;
  p_fromEmail : string
}.

Definition createEmailThread (params : EmailThreadParams) (now : Z) (id : string)
  : M EmailThreadRow :=
  let thread :=
    mkEmailThreadRow id (p_applicationId params) (p_gmailThreadId params)
      (p_subject params) (p_fromEmail params) now EmailThreadStatus.active 1
      None in
  sql_insert_ref "email_threads" thr_id email_threads set_email_threads
    app_id applications thr_application_id thread ;;
  ret thread.

Definition getEmailThreadByGmailId (gmailThreadId : string)
  : M (option EmailThreadRow) :=
  query (fun db =>
    find (fun r => match thr_gmail_thread_id r with
                   | Some g => String.eqb g gmailThreadId
                   | None => false
                   end)
         (email_threads db)).

Definition listEmailThreadsForApplication (applicationId : string)
  : M (list EmailThreadRow) :=
  query (fun db =>
    Js.sort (fun a b => thr_last_message_at b <=? thr_last_message_at a)
      (filter (fun r => String.eqb (thr_application_id r) applicationId)
              (email_threads db))).

Record EmailThreadUpdates := mkEmailThreadUpdates {
  u_thr_status : option EmailThreadStatus.t;
  u_messageCount : option Z;
  u_lastMessageAt : option Z
}.

Definition apply_thread_updates (u : EmailThreadUpdates) (r : EmailThreadRow)
  : EmailThreadRow :=
  mkEmailThreadRow (thr_id r) (thr_application_id r) (thr_gmail_thread_id r)
    (thr_subject r) (thr_from_email r)
    (nullish (u_lastMessageAt u) (thr_last_message_at r))
    (nullish (u_thr_status u) (thr_status r))
    (nullish (u_messageCount u) (thr_message_count r))
    (thr_metadata r).

Definition no_thread_updates (u : EmailThreadUpdates) : bool :=
  match u_thr_status u, u_messageCount u, u_lastMessageAt u with
  | None, None, None => true
  | _, _, _ => false
  end.

Definition updateEmailThread (id : string) (updates : EmailThreadUpdates) : M unit :=
  if no_thread_updates updates then ret tt
  else run (fun db =>
    set_email_threads db
      (map (fun r => if String.eqb (thr_id r) id then apply_thread_updates updates r else r)
           (email_threads db))).

(** *** Resumes *)

Record ResumeParams := mkResumeParams {
  p_name : string;
  p_filePath : string;
  p_fileType : FileType;
  p_parsedData : option string;
  p_isDefault : option bool
}.

Definition set_is_default (v : Z) (r : ResumeRow) : ResumeRow :=
  mkResumeRow (res_id r) (res_name r) (res_file_path r) (res_file_type r)
    (res_parsed_data r) v (res_created_at r) (res_updated_at r).

(** [UPDATE resumes SET is_default = 0]. *)
Definition clear_defaults : M unit :=
  run (fun db => set_resumes db (map (set_is_default 0) (resumes db))).

Definition createResume (params : ResumeParams) (now : Z) (id : string)
  : M ResumeRow :=
  (* If this is the default, clear other defaults *)
  (if nullish (p_isDefault params) false then clear_defaults else ret tt) ;;
  let resume :=
    mkResumeRow id (p_name params) (p_filePath params) (p_fileType params)
      (p_parsedData params)
      (if nullish (p_isDefault params) false then 1 else 0)
      now now in
  sql_insert "resumes" res_id resumes set_resumes resume ;;
  ret resume.

Definition getResume (id : string) : M (option ResumeRow) :=
  query (fun db => find (fun r => String.eqb (res_id r) id) (resumes db)).

Definition getDefaultResume : M (option ResumeRow) :=
  query (fun db => find (fun r => res_is_default r =? 1) (resumes db)).

(** [ORDER BY is_default DESC, created_at DESC]. *)
Definition by_default_then_recent (a b : ResumeRow) : bool :=
  (res_is_default b <? res_is_default a)
  || ((res_is_default b =? res_is_default a)
      && (res_created_at b <=? res_created_at a)).

Definition listResumes : M (list ResumeRow) :=
  query (fun db => Js.sort by_default_then_recent (resumes db)).

Definition setDefaultResume (id : string) : M unit :=
  clear_defaults ;;
  run (fun db =>
    set_resumes db
      (map (fun r => if String.eqb (res_id r) id then set_is_default 1 r else r)
           (resumes db))).

Definition deleteResume (id : string) : M unit :=
  run (fun db =>
    set_resumes db
      (filter (fun r => negb (String.eqb (res_id r) id)) (resumes db))).

(** *** Statistics *)

(** The counters of [JobStats].  The three per-key breakdowns ([bySource],
    [byStatus], [applicationsByStatus]) are further [GROUP BY] counts that
    no property below reads; they are left out. *)
Record JobStats := mkJobStats {
  totalJobs : Z;
  newJobs : Z;
  appliedJobs : Z;
  pendingApplications : Z;
  interviewsScheduled : Z;
  offersReceived : Z;
  rejections : Z
}.

Definition count_jobs (st : JobStatus.t) (db : Db) : Z :=
  Sqlite.count (fun r => JobStatus.eqb (job_status r) st) (jobs db).

Definition count_applications (st : ApplicationStatus.t) (db : Db) : Z :=
  Sqlite.count (fun r => ApplicationStatus.eqb (app_status r) st) (applications db).

Definition getStats : M JobStats :=
  query (fun db =>
    mkJobStats
      (Sqlite.count (fun _ => true) (jobs db))
      (count_jobs JobStatus.new db)
      (count_jobs JobStatus.applied db)
      (count_applications ApplicationStatus.pending db)
      (count_applications ApplicationStatus.interview db)
      (count_applications ApplicationStatus.offer db)
      (count_applications ApplicationStatus.rejected db)).

Record TimelineEntry := mkTimelineEntry {
  date : string;
  jobsDiscovered : Z;
  applicationsSubmitted : Z;
  responsesReceived : Z
}.

(** The two [GROUP BY] queries of [getTimeline]. *)
Definition jobsPerDay (startTime : Z) (db : Db) : list (string * Z) :=
  Sqlite.group_count
    (map (fun r => Sqlite.date_of_millis (job_discovered_at r))
         (filter (fun r => startTime <=? job_discovered_at r) (jobs db))).

(** [WHERE applied_at IS NOT NULL AND applied_at >= ?]. *)
Definition applied_since (startTime : Z) (r : ApplicationRow) : option Z :=
  match app_applied_at r with
  | Some t => if startTime <=? t then Some t else None
  | None => None
  end.

Fixpoint applied_stamps (startTime : Z) (rows : list ApplicationRow) : list Z :=
  match rows with
  | [] => []
  | r :: rest =>
      match applied_since startTime r with
      | Some t => t :: applied_stamps startTime rest
      | None => applied_stamps startTime rest
      end
  end.

Definition appsPerDay (startTime : Z) (db : Db) : list (string * Z) :=
  Sqlite.group_count
    (map Sqlite.date_of_millis (applied_stamps startTime (applications db))).

(** [a.date.localeCompare(b.date)] on the date strings of the engine,
    which digits and hyphens order as their code units do. *)
Definition localeCompare (a b : string) : comparison := String.compare a b.

Definition by_date (a b : TimelineEntry) : bool :=
  match localeCompare (date a) (date b) with
  | Gt => false
  | _ => true
  end.

(** The first loop: one entry per day on which jobs were discovered. *)
Definition add_jobs_row (timeline : JsMap.t TimelineEntry) (row : string * Z)
  : JsMap.t TimelineEntry :=
  JsMap.set timeline (fst row) (mkTimelineEntry (fst row) (snd row) 0 0).

(** The second loop: the entry of the day is updated where it stands (it
    is the object the map holds), or a new entry is added. *)
Definition add_apps_row (timeline : JsMap.t TimelineEntry) (row : string * Z)
  : JsMap.t TimelineEntry :=
  match JsMap.get timeline (fst row) with
  | Some existing =>
      JsMap.set timeline (fst row)
        (mkTimelineEntry (date existing) (jobsDiscovered existing) (snd row)
           (responsesReceived existing))
  | None =>
      JsMap.set timeline (fst row) (mkTimelineEntry (fst row) 0 (snd row) 0)
  end.

Definition getTimeline (days : option Z) (now : Z) : M (list TimelineEntry) :=
  query (fun db =>
    let days := nullish days 30 in
    let startTime := now - days * 24 * 60 * 60 * 1000 in
    let timeline := fold_left add_jobs_row (jobsPerDay startTime db) [] in
    let timeline := fold_left add_apps_row (appsPerDay startTime db) timeline in
    Js.sort by_date (JsMap.values timeline)).

End JobStore.

(* ===================================================================== *)
(** ** The statistics report (tools/job-track.ts) *)
(* ===================================================================== *)

Module JobTrack.

Import JobStore.

(** The percentage that [formatStats] prints on its "Response Rate" line,
    before [toFixed(1)] rounds it for display; [None] when the line is not
    printed.  The quotient is kept exact. *)
Definition responseRate (stats : JobStats) : option Q :=
  if 0 <? appliedJobs stats then
    Some ((inject_Z (interviewsScheduled stats + offersReceived stats
                     + rejections stats)
           / inject_Z (appliedJobs stats)) * inject_Z 100)%Q
  else None.

End JobTrack.

(* ===================================================================== *)
(** ** The email monitor (services/email-monitor.ts) *)
(* ===================================================================== *)

Module EmailMonitor.

Import JobStore.

Definition REJECTION_KEYWORDS : list string :=
  [ "unfortunately"; "regret to inform"; "not moving forward";
    "decided not to proceed"; "other candidates"; "position has been filled";
    "not selected"; "not a fit"; "pursued other";
    "decided to move forward with" ].

Definition INTERVIEW_KEYWORDS : list string :=
  [ "schedule an interview"; "interview invitation"; "would like to speak";
    "set up a call"; "phone screen"; "technical interview";
    "on-site interview"; "video interview"; "meet with"; "next steps";
    "availability" ].

Definition OFFER_KEYWORDS : list string :=
  [ "pleased to offer"; "offer letter"; "job offer"; "employment offer";
    "compensation package"; "start date"; "we would like to extend" ].

Inductive EmailResponseType := rejection | interview | offer | generic.

Definition responseType_name (t : EmailResponseType) : string :=
  match t with
  | rejection => "rejection"
  | interview => "interview"
  | offer => "offer"
  | generic => "generic"
  end.

Record EmailData := mkEmailData {
  from : string;
  subject : string;
  body : string;
  gmailThreadId : option string;
  gmailMessageId : option string
}.

(** The notification settings of the plugin configuration that the monitor
    reads. *)
Record Notifications := mkNotifications {
  emailResponseAlerts : bool;
  channel : option string
}.

(** What [matchEmailToApplication] returns for a match. *)
Record Matched := mkMatched {
  applicationId : string;
  jobId : string;
  currentStatus : ApplicationStatus.t
}.

(** The body of the matching loop for one application whose job was found:
    does the company name appear in the sender or in the subject? *)
Definition company_matches (company : string) (email : EmailData) : bool :=
  let companyLower := Js.toLowerCase company in
  let fromLower := Js.toLowerCase (from email) in
  let subjectLower := Js.toLowerCase (subject email) in
  (* Extract domain from sender *)
  let senderDomain :=
    match nth_error (Js.split "@" fromLower) 1 with
    | Some d => nth_error (Js.split "." d) 0
    | None => None
    end in
  let companyWords := Js.split_ws companyLower in
  let matchesSender :=
    Js.some (fun word =>
               (3 <? Js.length word)
               && (Js.includes fromLower word
                   || match senderDomain with
                      | Some d => Js.includes d word
                      | None => false
                      end))
            companyWords in
  let matchesSubject :=
    Js.some (fun word => (3 <? Js.length word) && Js.includes subjectLower word)
            companyWords in
  matchesSender || matchesSubject.

(** [for (const app of allApps) { ... }] *)
Fixpoint match_loop (email : EmailData) (allApps : list ApplicationRow)
  : M (option Matched) :=
  match allApps with
  | [] => ret None
  | app :: rest =>
      job <- getJob (app_job_id app) ;;
      match job with
      | None => match_loop email rest
      | Some job =>
          if company_matches (job_company job) email
          then ret (Some (mkMatched (app_id app) (app_job_id app) (app_status app)))
          else match_loop email rest
      end
  end.

Definition matchEmailToApplication (email : EmailData) : M (option Matched) :=
  (* Get all submitted applications *)
  applications <-
    listApplications (mkListParams (Some ApplicationStatus.submitted) None None) ;;
  (* Also check applications in interview/offer status *)
  interviewApps <-
    listApplications (mkListParams (Some ApplicationStatus.interview) None None) ;;
  let allApps := applications ++ interviewApps in
  match_loop email allApps.

Definition classifyEmailResponse (email : EmailData) : EmailResponseType :=
  let content := Js.toLowerCase (subject email ++ " " ++ body email)%string in
  (* Check for offer keywords first (highest priority) *)
  if Js.some (fun kw => Js.includes content kw) OFFER_KEYWORDS then offer
  (* Check for interview keywords *)
  else if Js.some (fun kw => Js.includes content kw) INTERVIEW_KEYWORDS then interview
  (* Check for rejection keywords *)
  else if Js.some (fun kw => Js.includes content kw) REJECTION_KEYWORDS then rejection
  else generic.

Definition responseTypeToStatus (responseType : EmailResponseType)
    (currentStatus : ApplicationStatus.t) : option ApplicationStatus.t :=
  match responseType with
  | offer => Some ApplicationStatus.offer
  | interview =>
      (* Only update to interview if not already in interview or offer *)
      if negb (ApplicationStatus.eqb currentStatus ApplicationStatus.interview)
         && negb (ApplicationStatus.eqb currentStatus ApplicationStatus.offer)
      then Some ApplicationStatus.interview
      else None
  | rejection => Some ApplicationStatus.rejected
  | generic =>
      (* Mark as viewed if currently just submitted *)
      if ApplicationStatus.eqb currentStatus ApplicationStatus.submitted
      then Some ApplicationStatus.viewed
      else None
  end.

(** The readings of the environment during the processing of one email:
    the clock and the identifier drawn by [updateApplicationStatus], then
    the clock and the identifier of the thread upsert. *)
Record Env := mkEnv {
  now_status : Z;
  historyId : string;
  now_thread : Z;
  threadId : string
}.

(** An empty string is falsy. *)
Definition truthy (s : option string) : option string :=
  match s with
  | Some EmptyString => None
  | other => other
  end.

(** Lines written to the logger are not part of the store and are not
    modelled. *)
Definition processEmailNotification (notifications : Notifications)
    (email : EmailData) (env : Env) : M unit :=
  (* Try to match email to an existing application *)
  application <- matchEmailToApplication email ;;
  match application with
  | None => ret tt
  | Some application =>
      (* Classify the email response *)
      let responseType := classifyEmailResponse email in
      (* Update application status based on response type *)
      let newStatus := responseTypeToStatus responseType (currentStatus application) in
      match newStatus with
      | Some newStatus =>
          if negb (ApplicationStatus.eqb newStatus (currentStatus application))
          then updateApplicationStatus (applicationId application) newStatus
                 (Some ("Email response classified as: "
                        ++ responseType_name responseType)%string)
                 (now_status env) (historyId env)
          else ret tt
      | None => ret tt
      end ;;
      (* Create or update email thread *)
      existingThread <-
        match truthy (gmailThreadId email) with
        | Some g => getEmailThreadByGmailId g
        | None => ret None
        end ;;
      match existingThread with
      | Some existingThread =>
          updateEmailThread (thr_id existingThread)
            (mkEmailThreadUpdates
               (Some match responseType with
                     | interview => EmailThreadStatus.awaiting_response
                     | _ => EmailThreadStatus.active
                     end)
               (Some (thr_message_count existingThread + 1))
               (Some (now_thread env)))
      | None =>
          createEmailThread
            (mkEmailThreadParams (applicationId application)
               (gmailThreadId email) (subject email) (from email))
            (now_thread env) (threadId env) ;;
          ret tt
      end ;;
      (* Send notification to user if configured *)
      if emailResponseAlerts notifications
      then match truthy (channel notifications) with
           | Some _ => getJob (jobId application) ;; ret tt
           | None => ret tt
           end
      else ret tt
  end.

End EmailMonitor.

(* ===================================================================== *)
(** ** The job scanner (the second service of services/email-monitor.ts) *)
(* ===================================================================== *)

Module JobScanner.

Import JobStore.

Record Preferences := mkPreferences {
  titles : list string;
  locations : list string;
  salaryMin : option Z;
  salaryMax : option Z;
  remoteOnly : bool;
  excludeCompanies : list string;
  keywords : list string;
  excludeKeywords : list string
}.

(** A listing as a job board returns it. *)
Record Listing := mkListing {
  externalId : string;
  source : JobSource;
  company : string;
  title : string;
  location : option string;
  listed_salaryMin : option Z;
  listed_salaryMax : option Z;
  description : option string;
  techStack : option string;
  url : string
}.

(** Check if a job passes the configured filters. *)
Definition passesFilters (job : Listing) (preferences : Preferences) : bool :=
  let companyLower := Js.toLowerCase (company job) in
  let titleLower := Js.toLowerCase (title job) in
  let locationLower := Js.toLowerCase (nullish (location job) "") in
  let descLower := Js.toLowerCase (nullish (description job) "") in
  (* Check excluded companies *)
  if Js.some (fun c => Js.includes companyLower (Js.toLowerCase c))
       (excludeCompanies preferences)
  then false
  (* Check remote only *)
  else if remoteOnly preferences && negb (Js.includes locationLower "remote")
  then false
  (* Check excluded keywords *)
  else if Js.some (fun kw => Js.includes titleLower (Js.toLowerCase kw)
                             || Js.includes descLower (Js.toLowerCase kw))
            (excludeKeywords preferences)
  then false
  else true.

(** A listing that a search found, with the clock and the identifier that
    [createJob] reads if the listing is stored. *)
Record Found := mkFound {
  listing : Listing;
  found_now : Z;
  found_id : string
}.

(** The loop of [scanJobBoard] over the listings of one search. *)
Fixpoint scan_loop (preferences : Preferences) (mockJobs : list Found)
    (newJobCount : Z) : M Z :=
  match mockJobs with
  | [] => ret newJobCount
  | found :: rest =>
      let job := listing found in
      (* Check if job already exists *)
      existing <- getJobByExternalId (externalId job) (source job) ;;
      match existing with
      | Some _ => scan_loop preferences rest newJobCount
      | None =>
          (* Apply filters *)
          if negb (passesFilters job preferences)
          then scan_loop preferences rest newJobCount
          else
            (* Store new job *)
            createJob
              (mkJobParams (Some (externalId job)) (source job) (company job)
                 (title job) (location job) (listed_salaryMin job)
                 (listed_salaryMax job) None (description job) None
                 (techStack job) (url job) None None)
              (found_now found) (found_id found) ;;
            scan_loop preferences rest (newJobCount + 1)
      end
  end.

(** [scanJobBoard], on the listings that its search produced (the source
    draws them at random where a scrape is to come).  It returns the number
    of new jobs. *)
Definition scanJobBoard (preferences : Preferences) (mockJobs : list Found) : M Z :=
  scan_loop preferences mockJobs 0.

(** The searches of one scan, in the order of the three nested loops: every
    board, every title, every location, or the empty location once when no
    location is configured. *)
Definition searches (defaultJobBoards : list JobSource) (preferences : Preferences)
  : list (JobSource * string * string) :=
  flat_map
    (fun source =>
       flat_map
         (fun title =>
            map (fun location => (source, title, location))
                (match locations preferences with
                 | [] => [EmptyString]
                 | ls => ls
                 end))
         (titles preferences))
    defaultJobBoards.

(** The body of the loops: one search, whose failure is caught and logged
    and does not count. *)
Fixpoint scan_searches
    (generateMockJobs : nat -> string -> option string -> JobSource -> list Found)
    (preferences : Preferences) (n : nat)
    (todo : list (JobSource * string * string)) (totalNewJobs : Z) : M Z :=
  match todo with
  | [] => ret totalNewJobs
  | (source, title, location) :: rest =>
      total <-
        catch
          (newJobs <- scanJobBoard preferences
                        (generateMockJobs n title (Js.nonempty (Some location)) source) ;;
           ret (totalNewJobs + newJobs))
          (fun _ => ret totalNewJobs) ;;
      scan_searches generateMockJobs preferences (S n) rest total
  end.

(** [runScan]; the listings of the [n]-th search of the scan are
    [generateMockJobs n query location source].  It returns the total that
    it logs. *)
Definition runScan
    (generateMockJobs : nat -> string -> option string -> JobSource -> list Found)
    (defaultJobBoards : list JobSource) (preferences : Preferences) : M Z :=
  match titles preferences with
  | [] => ret 0
  | _ :: _ =>
      scan_searches generateMockJobs preferences 0
        (searches defaultJobBoards preferences) 0
  end.

(** The match of [/^(\d+)(s|m|h|d)$/]: the digits and the unit. *)
Fixpoint split_last (s : string) : option (string * ascii) :=
  match s with
  | EmptyString => None
  | String c EmptyString => Some (EmptyString, c)
  | String c r =>
      match split_last r with
      | Some (front, last) => Some (String c front, last)
      | None => None
      end
  end.

Fixpoint all_digits (s : string) : bool :=
  match s with
  | EmptyString => true
  | String c r => Js.is_digit c && all_digits r
  end.

Definition is_unit (c : ascii) : bool :=
  Ascii.eqb c "s" || Ascii.eqb c "m" || Ascii.eqb c "h" || Ascii.eqb c "d".

Definition match_interval (interval : string) : option (string * ascii) :=
  match split_last interval with
  | Some (digits, unit) =>
      match digits with
      | EmptyString => None
      | String _ _ =>
          if all_digits digits && is_unit unit then Some (digits, unit) else None
      end
  | None => None
  end.

(** [parseInt] on a run of decimal digits; the value is exact as long as it
    stays below 2^53. *)
Fixpoint parseInt_from (acc : Z) (digits : string) : Z :=
  match digits with
  | EmptyString => acc
  | String c r => parseInt_from (10 * acc + (Z.of_N (N_of_ascii c) - 48)) r
  end.

Definition parseInt (digits : string) : Z := parseInt_from 0 digits.

(** Parse an interval string (e.g., "6h", "30m", "1d") to milliseconds. *)
Definition parseInterval (interval : string) : Z :=
  match match_interval interval with
  | None => 0
  | Some (digits, unit) =>
      let value := parseInt digits in
      if Ascii.eqb unit "s" then value * 1000
      else if Ascii.eqb unit "m" then value * 60 * 1000
      else if Ascii.eqb unit "h" then value * 60 * 60 * 1000
      else if Ascii.eqb unit "d" then value * 24 * 60 * 60 * 1000
      else 0
  end.

End JobScanner.

(* ===================================================================== *)
(** ** The apply tool (tools/job-apply.ts) *)
(* ===================================================================== *)

Module JobApply.

Import JobStore.

Record ApplyParams := mkApplyParams {
  ap_job_id : string;
  ap_resume_id : option string;
  ap_cover_letter : option string;
  ap_answers : option string;
  ap_confirm : option bool;
  ap_dry_run : option bool
}.

(** What the tool reports in [details]. *)
Inductive Details :=
| job_not_found
| already_applied (application : ApplicationRow)
| no_resume
| pending_confirmation (applicationId : string)
| submitted (applicationId : string)
| error (e : Error).

(** The readings of the environment: for [createApplication], then for
    [updateApplicationStatus]. *)
Record Env := mkEnv {
  now_create : Z;
  id_create : string;
  now_submit : Z;
  historyId : string
}.

Definition nl : string := String (ascii_of_N 10) EmptyString.

(** Generate a default cover letter for a job application. *)
Definition generateDefaultCoverLetter (company title applicantName : string) : string :=
  ("Dear Hiring Manager," ++ nl ++ nl
   ++ "I am writing to express my strong interest in the " ++ title
   ++ " position at " ++ company
   ++ ". With my background and skills, I believe I would be a valuable addition to your team."
   ++ nl ++ nl
   ++ "I am excited about the opportunity to contribute to " ++ company
   ++ "'s mission and to grow professionally in this role. My experience aligns well with the requirements of this position, and I am confident in my ability to make meaningful contributions from day one."
   ++ nl ++ nl
   ++ "I would welcome the opportunity to discuss how my skills and experience can benefit "
   ++ company ++ ". Thank you for considering my application."
   ++ nl ++ nl
   ++ "Best regards," ++ nl ++ applicantName)%string.

(** [resume.parsedData?.fullName ?? "the applicant"]; [fullName] reads the
    field out of the stored blob. *)
Definition applicantName (fullName : string -> option string) (resume : ResumeRow)
  : string :=
  match Js.nonempty (res_parsed_data resume) with
  | Some blob => nullish (fullName blob) "the applicant"
  | None => "the applicant"
  end.

Definition is_pending (app : ApplicationRow) : bool :=
  ApplicationStatus.eqb (app_status app) ApplicationStatus.pending.

(** The rest of [execute], once the job is found and is not applied to
    already: the resume, the cover letter, then the preview or the
    submission. *)
Definition preview_or_submit (fullName : string -> option string)
    (params : ApplyParams) (env : Env) (job : JobRow)
    (existingApp : option ApplicationRow) : M Details :=
  (* Get resume *)
  resume <-
    match Js.nonempty (ap_resume_id params) with
    | Some resume_id => getResume resume_id
    | None => getDefaultResume
    end ;;
  match resume with
  | None => ret no_resume
  | Some resume =>
      (* Generate cover letter if not provided *)
      let finalCoverLetter :=
        nullish (ap_cover_letter params)
          (generateDefaultCoverLetter (job_company job) (job_title job)
             (applicantName fullName resume)) in
      (* If dry run or not confirmed, show preview *)
      if nullish (ap_dry_run params) false || negb (nullish (ap_confirm params) false)
      then
        (* Create or update pending application *)
        application <-
          match existingApp with
          | Some application => ret application
          | None =>
              createApplication
                (mkApplicationParams (ap_job_id params) (Some (res_id resume))
                   (Some finalCoverLetter) (ap_answers params)
                   (Some "Pending user confirmation"))
                (now_create env) (id_create env)
          end ;;
        ret (pending_confirmation (app_id application))
      else
        (* User confirmed - submit the application *)
        application <-
          match existingApp with
          | Some application => ret application
          | None =>
              createApplication
                (mkApplicationParams (ap_job_id params) (Some (res_id resume))
                   (Some finalCoverLetter) (ap_answers params) None)
                (now_create env) (id_create env)
          end ;;
        (* Update statuses *)
        updateApplicationStatus (app_id application) ApplicationStatus.submitted
          (Some "Application submitted successfully")
          (now_submit env) (historyId env) ;;
        updateJobStatus (ap_job_id params) JobStatus.applied ;;
        ret (submitted (app_id application))
  end.

(** [execute] of the tool; what a store call raises is caught and
    reported. *)
Definition execute (fullName : string -> option string) (params : ApplyParams)
    (env : Env) : M Details :=
  catch
    ((* Get the job *)
     job <- getJob (ap_job_id params) ;;
     match job with
     | None => ret job_not_found
     | Some job =>
         (* Check if already applied *)
         existingApp <- getApplicationByJobId (ap_job_id params) ;;
         match existingApp with
         | Some app =>
             if negb (is_pending app) then ret (already_applied app)
             else preview_or_submit fullName params env job existingApp
         | None => preview_or_submit fullName params env job existingApp
         end
     end)
    (fun e => ret (error e)).

End JobApply.

(* ===================================================================== *)
(** ** Gateway methods (gateway/methods.ts) *)
(* ===================================================================== *)

Module Gateway.

Import JobStore.

(** What a method passes to [respond]: success with a payload, a failure
    with the message the method words, or a failure with the message of
    what a store call raised. *)
Inductive Response (A : Type) :=
| respond_ok (payload : A)
| respond_error (message : string)
| respond_caught (e : Error).
Arguments respond_ok {A} payload.
Arguments respond_error {A} message.
Arguments respond_caught {A} e.

(** [jobbot.applications.create] *)
Definition applications_create (jobId : option string) (resumeId coverLetter
    answers notes : option string) (now : Z) (id : string)
  : M (Response ApplicationRow) :=
  catch
    (match Js.nonempty jobId with
     | None => ret (respond_error "Missing jobId")
     | Some jobId =>
         (* Check if application already exists *)
         existing <- getApplicationByJobId jobId ;;
         match existing with
         | Some _ => ret (respond_error "Application already exists for this job")
         | None =>
             application <-
               createApplication
                 (mkApplicationParams jobId resumeId coverLetter answers notes)
                 now id ;;
             ret (respond_ok application)
         end
     end)
    (fun e => ret (respond_caught e)).

(** [jobbot.resumes.setDefault] *)
Definition resumes_setDefault (id : option string) : M (Response (option ResumeRow)) :=
  catch
    (match Js.nonempty id with
     | None => ret (respond_error "Missing resume id")
     | Some id =>
         setDefaultResume id ;;
         resume <- getResume id ;;
         ret (respond_ok resume)
     end)
    (fun e => ret (respond_caught e)).

End Gateway.

(* ===================================================================== *)
(** ** The resume tool (tools/resume-manage.ts) *)
(* ===================================================================== *)

Module ResumeManage.

Import JobStore.

(** What the handlers report in [details]. *)
Inductive Details :=
| missing_file_path
| file_not_found
| invalid_file_type (ext : string)
| copy_failed
| uploaded (resume : ResumeRow) (isDefault : bool)
| missing_resume_id
| not_found
| default_set (resumeId name : string)
| deleted (resumeId name : string).

(** What [handleUpload] reads from the file system and the environment:
    whether the file exists, its [extname] and [basename], the path of the
    copy, whether the copy succeeded, the blob of the parsed data, and the
    clock and identifier of [createResume]. *)
Record UploadEnv := mkUploadEnv {
  existsSync : bool;
  extname : string;
  basename : string;
  destPath : string;
  copy_ok : bool;
  parsedData : string;
  upload_now : Z;
  upload_id : string
}.

(** [validTypes[ext]] *)
Definition validTypes (ext : string) : option FileType :=
  if String.eqb ext ".pdf" then Some pdf
  else if String.eqb ext ".docx" then Some docx
  else if String.eqb ext ".txt" then Some txt
  else None.

Definition handleUpload (filePath customName : option string) (env : UploadEnv)
  : M Details :=
  match Js.nonempty filePath with
  | None => ret missing_file_path
  | Some _ =>
      (* Validate file exists *)
      if negb (existsSync env) then ret file_not_found
      else
        (* Validate file type *)
        let ext := Js.toLowerCase (extname env) in
        match validTypes ext with
        | None => ret (invalid_file_type ext)
        | Some fileType =>
            (* Copy file to resumes directory *)
            if negb (copy_ok env) then ret copy_failed
            else
              (* Determine if this should be the default *)
              existingResumes <- listResumes ;;
              let isDefault :=
                match existingResumes with [] => true | _ :: _ => false end in
              (* Create resume record *)
              let resumeName := nullish customName (basename env) in
              resume <-
                createResume
                  (mkResumeParams resumeName (destPath env) fileType
                     (Some (parsedData env)) (Some isDefault))
                  (upload_now env) (upload_id env) ;;
              ret (uploaded resume isDefault)
        end
  end.

Definition handleSetDefault (resumeId : option string) : M Details :=
  match Js.nonempty resumeId with
  | None => ret missing_resume_id
  | Some resumeId =>
      resume <- getResume resumeId ;;
      match resume with
      | None => ret not_found
      | Some resume =>
          setDefaultResume resumeId ;;
          ret (default_set resumeId (res_name resume))
      end
  end.

(** The removal of the file is tried first and its failure is ignored; the
    record is deleted in every case. *)
Definition handleDelete (resumeId : option string) : M Details :=
  match Js.nonempty resumeId with
  | None => ret missing_resume_id
  | Some resumeId =>
      resume <- getResume resumeId ;;
      match resume with
      | None => ret not_found
      | Some resume =>
          (* Delete from database *)
          deleteResume resumeId ;;
          ret (deleted resumeId (res_name resume))
      end
  end.

End ResumeManage.

(* ===================================================================== *)
(** ** Histories of the system *)
(* ===================================================================== *)

Import JobStore EmailMonitor.

(** The mutating methods of the store, each with the readings of the
    environment it makes. *)
Inductive Op :=
| OpCreateJob (job : JobParams) (now : Z) (id : string)
| OpUpdateJobStatus (id : string) (status : JobStatus.t)
| OpUpdateJob (id : string) (updates : JobUpdates)
| OpCreateApplication (params : ApplicationParams) (now : Z) (id : string)
| OpUpdateApplicationStatus (id : string) (status : ApplicationStatus.t)
    (notes : option string) (now : Z) (historyId : string)
| OpCreateEmailThread (params : EmailThreadParams) (now : Z) (id : string)
| OpUpdateEmailThread (id : string) (updates : EmailThreadUpdates)
| OpCreateResume (params : ResumeParams) (now : Z) (id : string)
| OpSetDefaultResume (id : string)
| OpDeleteResume (id : string).

Definition perform (op : Op) : M unit :=
  match op with
  | OpCreateJob job now id => createJob job now id ;; ret tt
  | OpUpdateJobStatus id status => updateJobStatus id status
  | OpUpdateJob id updates => updateJob id updates
  | OpCreateApplication params now id => createApplication params now id ;; ret tt
  | OpUpdateApplicationStatus id status notes now hid =>
      updateApplicationStatus id status notes now hid
  | OpCreateEmailThread params now id => createEmailThread params now id ;; ret tt
  | OpUpdateEmailThread id updates => updateEmailThread id updates
  | OpCreateResume params now id => createResume params now id ;; ret tt
  | OpSetDefaultResume id => setDefaultResume id
  | OpDeleteResume id => deleteResume id
  end.

(** What happens to the store: a caller invokes a method, or an email
    arrives.  Callers catch what a method raises, so a history goes on from
    the database the raise left. *)
Inductive Event :=
| Call (op : Op)
| Email (notifications : Notifications) (email : EmailData) (env : Env).

Definition step (db : Db) (ev : Event) : Db :=
  match ev with
  | Call op => db_after (perform op) db
  | Email n email env => db_after (processEmailNotification n email env) db
  end.

Definition run_events (evs : list Event) (db : Db) : Db := fold_left step evs db.

(* ===================================================================== *)
(** ** Vocabulary of the specification *)
(* ===================================================================== *)

(** The stored Application that an id names. *)
Definition application_of (db : Db) (id : string) : option ApplicationRow :=
  find (fun r => String.eqb (app_id r) id) (applications db).

Definition status_of (db : Db) (id : string) : option ApplicationStatus.t :=
  option_map app_status (application_of db id).

Definition applied_at_of (db : Db) (id : string) : option (option Z) :=
  option_map app_applied_at (application_of db id).

(** The rows that [listApplications({ status })] returns with its default
    limit and offset: the 100 most recently updated rows of that status. *)
Definition listed (st : ApplicationStatus.t) (db : Db) : list ApplicationRow :=
  sql_limit 100 0
    (Js.sort by_updated_at_desc
       (filter (fun r => ApplicationStatus.eqb (app_status r) st) (applications db))).

(** The Applications that the matching loop iterates over, in order. *)
Definition candidates (db : Db) : list ApplicationRow :=
  listed ApplicationStatus.submitted db ++ listed ApplicationStatus.interview db.

(** The Job of an Application is stored and its company matches the email. *)
Definition matches (db : Db) (email : EmailData) (app : ApplicationRow) : bool :=
  match find (fun r => String.eqb (job_id r) (app_job_id app)) (jobs db) with
  | Some job => company_matches (job_company job) email
  | None => false
  end.

Definition matched_of (app : ApplicationRow) : Matched :=
  mkMatched (app_id app) (app_job_id app) (app_status app).

(** The first candidate that matches, if any. *)
Definition first_match (db : Db) (email : EmailData) : option Matched :=
  option_map matched_of (find (matches db email) (candidates db)).

(** [w] is a substring of [s], letter case aside. *)
Definition ci_occurs (w s : string) : Prop :=
  exists pre post : string,
    Js.toLowerCase s = (pre ++ Js.toLowerCase w ++ post)%string.

(** The sender domain fragment before the first dot: what stands between
    the first "@" of the sender and the next "@" or "." (or the end); none
    when the sender has no "@". *)
Definition domain_fragment (sender : string) : option string :=
  match nth_error (Js.split "@" sender) 1 with
  | Some d => nth_error (Js.split "." d) 0
  | None => None
  end.

(** Some whitespace-separated word of the company name, longer than 3
    characters, is a case-insensitive substring of the domain fragment, of
    the sender address or of the subject. *)
Definition company_word_found (company : string) (email : EmailData) : Prop :=
  exists w,
    In w (Js.split_ws company) /\ 3 < Js.length w
    /\ ((exists d, domain_fragment (from email) = Some d /\ ci_occurs w d)
        \/ ci_occurs w (from email)
        \/ ci_occurs w (subject email)).

(** The open Applications: those whose status is submitted or interview. *)
Definition is_open (a : ApplicationRow) : bool :=
  ApplicationStatus.eqb (app_status a) ApplicationStatus.submitted
  || ApplicationStatus.eqb (app_status a) ApplicationStatus.interview.

(** The transition policy, as the specification tabulates it: the status
    an Application in status [cur] has after an email of class [c]. *)
Definition policy (c : EmailResponseType) (cur : ApplicationStatus.t)
  : ApplicationStatus.t :=
  match c with
  | offer => ApplicationStatus.offer
  | interview =>
      match cur with
      | ApplicationStatus.interview | ApplicationStatus.offer => cur
      | _ => ApplicationStatus.interview
      end
  | rejection => ApplicationStatus.rejected
  | generic =>
      match cur with
      | ApplicationStatus.submitted => ApplicationStatus.viewed
      | _ => cur
      end
  end.

(** The time of the first call in a history that makes the status of [id]
    "submitted". *)
Fixpoint first_submitted (id : string) (evs : list Event) : option Z :=
  match evs with
  | [] => None
  | Call (OpUpdateApplicationStatus id' ApplicationStatus.submitted _ now _) :: rest =>
      if String.eqb id' id then Some now else first_submitted id rest
  | _ :: rest => first_submitted id rest
  end.

(** The history records that the specification asks of one operation: one
    for a status update of an existing Application, none otherwise. *)
Definition expected_history (op : Op) (db : Db) : list ApplicationHistoryRow :=
  match op with
  | OpUpdateApplicationStatus id status notes now hid =>
      match application_of db id with
      | Some app =>
          [mkApplicationHistoryRow hid id (Some (app_status app)) status now notes]
      | None => []
      end
  | _ => []
  end.

(** The identifier drawn for a history record is new, as a random UUID is. *)
Definition history_id_fresh (op : Op) (db : Db) : Prop :=
  match op with
  | OpUpdateApplicationStatus _ _ _ _ hid =>
      ~ In hid (map hist_id (application_history db))
  | _ => True
  end.

(** The number of default resumes. *)
Definition default_count (db : Db) : Z :=
  Sqlite.count (fun r => res_is_default r =? 1) (resumes db).

(** [w] is a substring of [s]. *)
Definition occurs (w s : string) : Prop :=
  exists pre post : string, s = (pre ++ w ++ post)%string.

(** Some keyword of the set occurs in the content. *)
Definition hit (keywords : list string) (content : string) : Prop :=
  exists kw, In kw keywords /\ occurs kw content.

(** What classification scans. *)
Definition content_of (email : EmailData) : string :=
  Js.toLowerCase (subject email ++ " " ++ body email)%string.

(** How often a key occurs among the keys of the selected rows. *)
Definition occurrences (k : string) (keys : list string) : Z :=
  Sqlite.count (String.eqb k) keys.

(** The start of the window of [getTimeline]: [days] days before [now],
    30 days when [days] is not given. *)
Definition cutoff (days : option Z) (now : Z) : Z :=
  now - nullish days 30 * 86400000.

(** The jobs discovered on the UTC date [d], within the window. *)
Definition jobs_on (startTime : Z) (db : Db) (d : string) : Z :=
  Sqlite.count
    (fun r => (startTime <=? job_discovered_at r)
              && String.eqb d (Sqlite.date_of_millis (job_discovered_at r)))
    (jobs db).

(** The applications submitted on the UTC date [d], within the window:
    those whose [applied_at] is set and falls on [d]. *)
Definition apps_on (startTime : Z) (db : Db) (d : string) : Z :=
  Sqlite.count
    (fun r => match app_applied_at r with
              | Some t => (startTime <=? t) && String.eqb d (Sqlite.date_of_millis t)
              | None => false
              end)
    (applications db).

(** The entry of the timeline for a date. *)
Definition entry_on (startTime : Z) (db : Db) (d : string) : TimelineEntry :=
  mkTimelineEntry d (jobs_on startTime db d) (apps_on startTime db d) 0.

(** Entries in strictly ascending order of their date strings. *)
Definition ascending_dates (tl : list TimelineEntry) : Prop :=
  StronglySorted (fun a b => String.compare (date a) (date b) = Lt) tl.

(** The response rate that the report prints for a database. *)
Definition reported_response_rate (db : Db) : option Q :=
  match outcome getStats db with
  | Ok stats => JobTrack.responseRate stats
  | Throw _ => None
  end.

(** The Applications that count as responses. *)
Definition responses (db : Db) : Z :=
  count_applications ApplicationStatus.interview db
  + count_applications ApplicationStatus.offer db
  + count_applications ApplicationStatus.rejected db.

(** The submitted Applications, in the specification's sense: those whose
    [applied_at] is set. *)
Definition submitted_applications (db : Db) : Z :=
  Sqlite.count (fun r => match app_applied_at r with Some _ => true | None => false end)
    (applications db).

(** The response rate as the specification words it: responses over
    submitted Applications, and none when there are no submitted ones. *)
Definition specified_response_rate (db : Db) : option Q :=
  if submitted_applications db =? 0 then None
  else Some (inject_Z (responses db) / inject_Z (submitted_applications db))%Q.

(* ===================================================================== *)
(** ** Notions used in the proofs *)
(* ===================================================================== *)

(** The status update that the engine makes for a matched Application. *)
Definition engine_update (m : Matched) (email : EmailData) (env : Env) (db : Db) : Db :=
  let target := policy (classifyEmailResponse email) (currentStatus m) in
  if ApplicationStatus.eqb target (currentStatus m) then db
  else db_after
         (updateApplicationStatus (applicationId m) target
            (Some ("Email response classified as: "
                   ++ responseType_name (classifyEmailResponse email))%string)
            (now_status env) (historyId env)) db.

(** Two databases that differ at most in their email threads. *)
Definition same_but_threads (db db' : Db) : Prop :=
  jobs db' = jobs db /\ applications db' = applications db
  /\ resumes db' = resumes db
  /\ application_history db' = application_history db.

(** A computation that writes no table but [email_threads]. *)
Definition threads_only {A : Type} (m : M A) : Prop :=
  forall db, same_but_threads db (db_after m db).

(** The row update of [updateApplicationStatus]. *)
Definition status_row_update (id : string) (st : ApplicationStatus.t) (now : Z)
    (r : ApplicationRow) : ApplicationRow :=
  if String.eqb (app_id r) id
  then set_application_status st now
         (if ApplicationStatus.eqb st ApplicationStatus.submitted
          then Some now else None) r
  else r.

(** The invariant of the resumes table: ids are unique (the primary key)
    and at most one row is the default. *)
Definition resumes_ok (db : Db) : Prop :=
  NoDup (map res_id (resumes db)) /\ default_count db <= 1.

(** Rows in strictly ascending order of their key. *)
Definition ascending {V : Type} (rows : list (string * V)) : Prop :=
  StronglySorted (fun a b => String.compare (fst a) (fst b) = Lt) rows.

(** The Map that the two loops build, before it is sorted. *)
Definition timeline_map (startTime : Z) (db : Db) : JsMap.t TimelineEntry :=
  fold_left add_apps_row (appsPerDay startTime db)
    (fold_left add_jobs_row (jobsPerDay startTime db) []).

(* ===================================================================== *)
(** ** Example databases *)
(* ===================================================================== *)

(** One pending Application, and its job. *)
Definition db_one_application : Db :=
  mkDb [mkJobRow "j1" None indeed "Acme Corp" "Software Engineer" None None None
          (Some "USD") None None None "https://example.com/job" None 5
          JobStatus.new None]
    [mkApplicationRow "a1" "j1" ApplicationStatus.pending None None None None
       None 10 10 10]
    [] [] [].

(** Two resumes, the first one the default. *)
Definition db_two_resumes : Db :=
  mkDb [] [] []
    [mkResumeRow "r1" "Resume 1" "/path/to/1.pdf" pdf None 1 10 10;
     mkResumeRow "r2" "Resume 2" "/path/to/2.pdf" pdf None 0 20 20]
    [].

(** The history of the specification's example: a pending Application is
    submitted, called to an interview, then rejected. *)
Definition submitted_interview_rejected : list Event :=
  [ Call (OpUpdateApplicationStatus "a1" ApplicationStatus.submitted None 100 "h1");
    Call (OpUpdateApplicationStatus "a1" ApplicationStatus.interview None 200 "h2");
    Call (OpUpdateApplicationStatus "a1" ApplicationStatus.submitted None 250 "h3");
    Call (OpUpdateApplicationStatus "a1" ApplicationStatus.rejected None 300 "h4") ].

(** A submitted Application for a job at Acme Corp, and one that already
    holds an offer. *)
Definition db_acme : Db :=
  mkDb
    [mkJobRow "j1" None indeed "Acme Corp" "Software Engineer" None None None
       (Some "USD") None None None "https://example.com/job" None 5 JobStatus.applied
       None;
     mkJobRow "j2" None linkedin "Globex Industries" "Developer" None None None
       (Some "USD") None None None "https://example.com/other" None 6
       JobStatus.applied None]
    [mkApplicationRow "a1" "j1" ApplicationStatus.submitted (Some 20) None None
       None None 20 10 20;
     mkApplicationRow "a2" "j2" ApplicationStatus.offer (Some 30) None None
       None None 40 15 40]
    [] [] [].

Definition email_next_steps : EmailData :=
  mkEmailData "hr@acmecorp.com" "Next steps for your application"
    "We would like to hear from you." (Some "thread-1") None.

Definition env_example : Env := mkEnv 100 "h1" 101 "t1".

Definition alerts_on : Notifications := mkNotifications true (Some "telegram").

(** An email in which a rejection keyword comes first and twice, an
    interview keyword next, and an offer keyword last and once. *)
Definition email_mixed : EmailData :=
  mkEmailData "hr@acmecorp.com" "Unfortunately late"
    "Unfortunately we kept you waiting. Next steps: your Offer Letter." None None.

(** Two Applications were submitted and one of them has reached an
    interview, as in the store's own statistics test; the status of their
    Jobs was never set to "applied". *)
Definition db_jobs_not_marked : Db :=
  mkDb
    [mkJobRow "j1" None indeed "A" "Job A" None None None (Some "USD") None None
       None "https://a.com" None 5 JobStatus.new None;
     mkJobRow "j2" None linkedin "B" "Job B" None None None (Some "USD") None None
       None "https://b.com" None 6 JobStatus.new None]
    [mkApplicationRow "a1" "j1" ApplicationStatus.interview (Some 20) None None
       None None 30 10 30;
     mkApplicationRow "a2" "j2" ApplicationStatus.submitted (Some 40) None None
       None None 40 15 40]
    [] [] [].

(** Three jobs discovered on 2023-11-14 and two applications submitted on
    2023-11-16 (the second job's application was never submitted); the
    clock reads 2023-11-20. *)
Definition db_two_days : Db :=
  let job id at_ :=
    mkJobRow id None indeed "Acme Corp" "Engineer" None None None (Some "USD")
      None None None "https://example.com/job" None at_ JobStatus.new None in
  let app id jid applied :=
    mkApplicationRow id jid
      (match applied with Some _ => ApplicationStatus.submitted
                     | None => ApplicationStatus.pending end)
      applied None None None None 1700150000000 1700000500000 1700150000000 in
  mkDb
    [job "j1" 1700000000000; job "j2" 1700000100000; job "j3" 1700000200000]
    [app "a1" "j1" (Some 1700140000000); app "a2" "j2" None;
     app "a3" "j3" (Some 1700150000000)]
    [] [] [].

Definition now_two_days : Z := 1700500000000.

(** A busy search: the first application went to Acme Corp, a hundred more
    went elsewhere afterwards, and all 101 are still in status submitted.
    Row [n] was last updated at time [1000 + n]. *)
Definition numbered (prefix : string) (n : nat) : string :=
  (prefix ++ NilEmpty.string_of_uint (Nat.to_uint n))%string.

Definition crowded_job (n : nat) : JobRow :=
  mkJobRow (numbered "j" n) None indeed
    (match n with O => "Acme Corp" | S _ => "Globex Industries" end)
    "Software Engineer" None None None (Some "USD") None None None
    "https://example.com/job" None (Z.of_nat n) JobStatus.applied None.

Definition crowded_app (n : nat) : ApplicationRow :=
  mkApplicationRow (numbered "a" n) (numbered "j" n) ApplicationStatus.submitted
    (Some (1000 + Z.of_nat n)) None None None None
    (1000 + Z.of_nat n) (500 + Z.of_nat n) (1000 + Z.of_nat n).

Definition db_crowded : Db :=
  mkDb (map crowded_job (seq 0 101)) (map crowded_app (seq 0 101)) [] [] [].

(** A company fragment without the wildcards of [LIKE]. *)
Fixpoint wildcard_free (s : string) : bool :=
  match s with
  | EmptyString => true
  | String c r => negb (Ascii.eqb c "%") && negb (Ascii.eqb c "_") && wildcard_free r
  end.

(** The status and source filters of [listJobs], when they are given. *)
Definition status_and_source_ok (status : option JobStatus.t)
    (source : option JobSource) (r : JobRow) : Prop :=
  match status with Some st => job_status r = st | None => True end
  /\ match source with Some src => job_source r = src | None => True end.

(** What identifies a job: the fields that no update of the store writes. *)
Definition job_identity (r : JobRow)
  : string * option string * JobSource * string * string * string * Z :=
  (job_id r, job_external_id r, job_source r, job_company r, job_title r,
   job_url r, job_discovered_at r).

(** The thread that the engine finds for the provider thread id of an
    email, if the email carries one. *)
Definition existing_thread (email : EmailData) (db : Db) : option EmailThreadRow :=
  match truthy (gmailThreadId email) with
  | Some g =>
      find (fun r => match thr_gmail_thread_id r with
                     | Some g' => String.eqb g' g
                     | None => false
                     end)
           (email_threads db)
  | None => None
  end.

(** The thread upsert of the engine for a matched email. *)
Definition thread_upsert (m : Matched) (email : EmailData) (env : Env) (db : Db) : Db :=
  match existing_thread email db with
  | Some t =>
      db_after
        (updateEmailThread (thr_id t)
           (mkEmailThreadUpdates
              (Some match classifyEmailResponse email with
                    | interview => EmailThreadStatus.awaiting_response
                    | _ => EmailThreadStatus.active
                    end)
              (Some (thr_message_count t + 1))
              (Some (now_thread env)))) db
  | None =>
      db_after
        (createEmailThread
           (mkEmailThreadParams (applicationId m) (gmailThreadId email)
              (subject email) (from email))
           (now_thread env) (threadId env)) db
  end.

(** The status update of the engine comes to its end: it has nothing to
    write, or the identifier of its history record is new. *)
Definition update_completes (m : Matched) (email : EmailData) (env : Env) (db : Db)
  : bool :=
  ApplicationStatus.eqb (policy (classifyEmailResponse email) (currentStatus m))
    (currentStatus m)
  || negb (existsb (fun h => String.eqb (hist_id h) (historyId env))
             (application_history db)).

(** Applications that no email can touch: those that are not open. *)
Definition only_emails (evs : list Event) : Prop :=
  Forall (fun ev => match ev with Email _ _ _ => True | Call _ => False end) evs.

(** Every thread of [db] is still in [db'], under the same id, with a
    message count that is not smaller. *)
Definition threads_kept (db db' : Db) : Prop :=
  forall t, In t (email_threads db) ->
    exists t', In t' (email_threads db') /\ thr_id t' = thr_id t
               /\ thr_message_count t <= thr_message_count t'.

(** A generic note from the company, then an offer, both to the Application
    "a1" of [db_acme]. *)
Definition email_generic : EmailData :=
  mkEmailData "hr@acmecorp.com" "Your application" "We received it." None None.

Definition email_offer : EmailData :=
  mkEmailData "hr@acmecorp.com" "Good news" "We are pleased to offer you the role."
    None None.

(** The row that [scanJobBoard] stores for a listing it found. *)
Definition job_of_found (f : JobScanner.Found) : JobRow :=
  let job := JobScanner.listing f in
  mkJobRow (JobScanner.found_id f) (Some (JobScanner.externalId job))
    (JobScanner.source job) (JobScanner.company job) (JobScanner.title job)
    (JobScanner.location job) (JobScanner.listed_salaryMin job)
    (JobScanner.listed_salaryMax job) (Some "USD") (JobScanner.description job)
    None (JobScanner.techStack job) (JobScanner.url job) None
    (JobScanner.found_now f) JobStatus.new None.

(** A job that a scan with these preferences stores: the row of a listing
    that passes the filters. *)
Definition stored_by (preferences : JobScanner.Preferences) (r : JobRow) : Prop :=
  exists f, r = job_of_found f
            /\ JobScanner.passesFilters (JobScanner.listing f) preferences = true.

(** A job that a scan stores from the listings [found] of a search. *)
Definition stored_from (preferences : JobScanner.Preferences)
    (found : list JobScanner.Found) (r : JobRow) : Prop :=
  exists f, In f found /\ r = job_of_found f
            /\ JobScanner.passesFilters (JobScanner.listing f) preferences = true.

(** The listings of the jobs table: external id and board of every job
    that has an external id. *)
Definition listing_keys (rows : list JobRow) : list (string * JobSource) :=
  flat_map (fun r => match job_external_id r with
                     | Some x => [(x, job_source r)]
                     | None => []
                     end) rows.

(** No listing is stored twice. *)
Definition listed_once (db : Db) : Prop := NoDup (listing_keys (jobs db)).

(** The test of [getJobByExternalId]. *)
Definition is_listing (externalId : string) (source : JobSource) (r : JobRow) : bool :=
  match job_external_id r with
  | Some x => String.eqb x externalId && JobSource_eqb (job_source r) source
  | None => false
  end.

(** Preferences, the listings of a search and a board for the examples:
    the second listing is of an excluded company, the third is the first
    one found again. *)
Definition prefs_example : JobScanner.Preferences :=
  JobScanner.mkPreferences ["Engineer"] [] None None false ["Initech"] [] ["intern"].

Definition found_example : list JobScanner.Found :=
  [ JobScanner.mkFound
      (JobScanner.mkListing "indeed-1" indeed "TechCorp" "Engineer" (Some "Remote")
         (Some 100000) (Some 130000) (Some "Join TechCorp as a Engineer.") None
         "https://indeed.com/jobs/1") 500 "j1";
    JobScanner.mkFound
      (JobScanner.mkListing "indeed-2" indeed "Initech" "Engineer" (Some "Remote")
         (Some 100000) (Some 130000) (Some "Join Initech as a Engineer.") None
         "https://indeed.com/jobs/2") 501 "j2";
    JobScanner.mkFound
      (JobScanner.mkListing "indeed-1" indeed "TechCorp" "Engineer" (Some "Remote")
         (Some 100000) (Some 130000) (Some "Join TechCorp as a Engineer.") None
         "https://indeed.com/jobs/1") 502 "j3" ].

Definition board_example (n : nat) (query : string) (location : option string)
    (source : JobSource) : list JobScanner.Found :=
  match n with
  | O => found_example
  | S _ => []
  end.

(** The milliseconds of a unit of [parseInterval]. *)
Definition unit_millis (unit : ascii) : Z :=
  if Ascii.eqb unit "s" then 1000
  else if Ascii.eqb unit "m" then 60 * 1000
  else if Ascii.eqb unit "h" then 60 * 60 * 1000
  else if Ascii.eqb unit "d" then 24 * 60 * 60 * 1000
  else 0.

(** A number in decimal, followed by a unit. *)
Definition print_interval (n : N) (unit : ascii) : string :=
  (NilEmpty.string_of_uint (N.to_uint n) ++ String unit EmptyString)%string.

(** The resume that the apply tool takes: the one named, or the default. *)
Definition resume_for (params : JobApply.ApplyParams) (db : Db) : option ResumeRow :=
  match Js.nonempty (JobApply.ap_resume_id params) with
  | Some id => find (fun r => String.eqb (res_id r) id) (resumes db)
  | None => find (fun r => res_is_default r =? 1) (resumes db)
  end.

(** The call asks for a preview: a dry run, or no confirmation. *)
Definition wants_preview (params : JobApply.ApplyParams) : bool :=
  nullish (JobApply.ap_dry_run params) false
  || negb (nullish (JobApply.ap_confirm params) false).

(** The cover letter that the apply tool takes: the one given, or the
    default one. *)
Definition letter_for (fullName : string -> option string)
    (params : JobApply.ApplyParams) (job : JobRow) (resume : ResumeRow) : string :=
  nullish (JobApply.ap_cover_letter params)
    (JobApply.generateDefaultCoverLetter (job_company job) (job_title job)
       (JobApply.applicantName fullName resume)).

(** The application that the apply tool creates. *)
Definition new_application (fullName : string -> option string)
    (params : JobApply.ApplyParams) (env : JobApply.Env) (job : JobRow)
    (resume : ResumeRow) (notes : option string) : ApplicationRow :=
  mkApplicationRow (JobApply.id_create env) (JobApply.ap_job_id params)
    ApplicationStatus.pending None (Some (res_id resume))
    (Some (letter_for fullName params job resume)) (JobApply.ap_answers params)
    notes (JobApply.now_create env) (JobApply.now_create env)
    (JobApply.now_create env).

(** The two status updates of a submission and its report. *)
Definition submit_steps (params : JobApply.ApplyParams) (env : JobApply.Env)
    (id : string) : M JobApply.Details :=
  (updateApplicationStatus id ApplicationStatus.submitted
     (Some "Application submitted successfully")
     (JobApply.now_submit env) (JobApply.historyId env) ;;
   updateJobStatus (JobApply.ap_job_id params) JobStatus.applied ;;
   ret (JobApply.submitted id))%store.

(** What the call of a tool reports: the result, or what was raised. *)
Definition reported (m : M JobApply.Details) : M JobApply.Details :=
  catch m (fun e => ret (JobApply.error e)).

(** No job has two applications. *)
Definition one_application_per_job (db : Db) : Prop :=
  NoDup (map app_job_id (applications db)).

(** A job, a resume and the calls of the apply tool for the examples. *)
Definition db_to_apply : Db :=
  mkDb [mkJobRow "j1" None indeed "Acme Corp" "Software Engineer" None None None
          (Some "USD") None None None "https://example.com/job" None 10
          JobStatus.new None]
       []
       []
       [mkResumeRow "r1" "Resume 1" "/path/to/1.pdf" pdf None 1 10 10]
       [].

Definition no_name (blob : string) : option string := None.

Definition preview_call : JobApply.ApplyParams :=
  JobApply.mkApplyParams "j1" None (Some "Dear team") None None None.

Definition confirm_call : JobApply.ApplyParams :=
  JobApply.mkApplyParams "j1" None (Some "Another letter") None (Some true) None.

Definition env_apply : JobApply.Env := JobApply.mkEnv 100 "a1" 101 "h1".

Definition env_apply_later : JobApply.Env := JobApply.mkEnv 200 "a2" 201 "h2".

(** The readings of an upload for the examples. *)
Definition upload_example : ResumeManage.UploadEnv :=
  ResumeManage.mkUploadEnv true ".PDF" "cv" "/resumes/r3.pdf" true "{}" 30 "r3".

(* ===================================================================== *)
(** ** Properties of the store methods *)
(* ===================================================================== *)

(** Unfolds one layer of the monad. *)
Ltac store_unfold :=
  unfold db_after, outcome, bind, ret, throw, query, run, sql_insert,
    sql_insert_ref in *.

Lemma find_none_of_not_in {R : Type} (key : R -> string) (id : string) (rows : list R) :
  ~ In id (map key rows) -> find (fun r => String.eqb (key r) id) rows = None.
Proof.
  induction rows as [|r rows IH]; simpl; intros H; [reflexivity|].
  destruct (String.eqb_spec (key r) id) as [E|E].
  - exfalso. apply H. left. exact E.
  - apply IH. intros Hin. apply H. right. exact Hin.
Qed.

Lemma map_update_absent {R : Type} (key : R -> string) (f : R -> R) (id : string)
    (rows : list R) :
  ~ In id (map key rows) ->
  map (fun r => if String.eqb (key r) id then f r else r) rows = rows.
Proof.
  induction rows as [|r rows IH]; simpl; intros H; [reflexivity|].
  destruct (String.eqb_spec (key r) id) as [E|E].
  - exfalso. apply H. left. exact E.
  - f_equal. apply IH. intros Hin. apply H. right. exact Hin.
Qed.

Lemma existsb_fresh {R : Type} (key : R -> string) (id : string) (rows : list R) :
  ~ In id (map key rows) ->
  existsb (fun x => String.eqb (key x) id) rows = false.
Proof.
  intros H. destruct (existsb _ rows) eqn:X; [|reflexivity].
  exfalso. apply existsb_exists in X. destruct X as (x & Hx & Ex).
  apply H. apply in_map_iff. exists x. split; [|exact Hx].
  apply String.eqb_eq. exact Ex.
Qed.

Lemma find_existsb {R : Type} (p : R -> bool) (rows : list R) (x : R) :
  find p rows = Some x -> existsb p rows = true.
Proof.
  intros F. apply find_some in F. apply existsb_exists. exists x. exact F.
Qed.

Lemma existsb_after_update {R : Type} (key : R -> string) (f : R -> R) (id : string)
    (rows : list R) :
  (forall r, key (f r) = key r) ->
  existsb (fun p => String.eqb (key p) id)
    (map (fun r => if String.eqb (key r) id then f r else r) rows)
  = existsb (fun p => String.eqb (key p) id) rows.
Proof.
  intros K. induction rows as [|r rows IH]; [reflexivity|]. cbn [map existsb].
  rewrite IH. destruct (String.eqb (key r) id) eqn:E.
  - rewrite K, E. reflexivity.
  - rewrite E. reflexivity.
Qed.

(** The history record of a status update always finds its Application,
    which the method has just read and updated: the foreign key of the
    history table never fails there, and the insert is decided by the
    primary key alone. *)
Lemma updateApplicationStatus_insert id status notes now historyId db :
  updateApplicationStatus id status notes now historyId db
  = (app <- getApplication id ;;
     match app with
     | None => ret tt
     | Some app =>
         run (fun db =>
           set_applications db
             (map (fun r =>
                     if String.eqb (app_id r) id
                     then set_application_status status now
                            (if ApplicationStatus.eqb status ApplicationStatus.submitted
                             then Some now else None) r
                     else r)
                  (applications db))) ;;
         sql_insert "application_history" hist_id application_history
           set_application_history
           (mkApplicationHistoryRow historyId id (Some (app_status app)) status
              now notes)
     end)%store db.
Proof.
  unfold updateApplicationStatus, getApplication, bind at 1 3, query.
  destruct (find _ (applications db)) as [app|] eqn:F; [|reflexivity].
  unfold bind, run, sql_insert_ref, sql_insert.
  cbn [applications set_applications application_history hist_id hist_application_id].
  rewrite (existsb_after_update app_id) by reflexivity.
  rewrite (find_existsb _ _ _ F). reflexivity.
Qed.

Lemma existsb_stored {R : Type} (key : R -> string) (id : string) (rows : list R) :
  In id (map key rows) ->
  existsb (fun x => String.eqb (key x) id) rows = true.
Proof.
  intros H. apply in_map_iff in H. destruct H as (x & E & Hx).
  apply existsb_exists. exists x. split; [exact Hx|]. apply String.eqb_eq. exact E.
Qed.

(** *** Status updates on unknown ids *)

(** C9. For every id that names no stored Application,
    [updateApplicationStatus] returns normally and leaves the whole database
    as it was: no row is changed and no history record is appended. *)
Theorem updateApplicationStatus_unknown_id_noop
    (db : Db) (id : string) (status : ApplicationStatus.t)
    (notes : option string) (now : Z) (hid : string) :
  ~ In id (map app_id (applications db)) ->
  updateApplicationStatus id status notes now hid db = (Ok tt, db).
Proof.
  intros H. unfold updateApplicationStatus, getApplication. store_unfold.
  rewrite (find_none_of_not_in app_id id _ H). reflexivity.
Qed.

Lemma updateApplicationStatus_unknown_id_noop_witness :
  updateApplicationStatus "nobody" ApplicationStatus.submitted (Some "n") 20 "h1"
    db_one_application = (Ok tt, db_one_application).
Proof.
  apply updateApplicationStatus_unknown_id_noop.
  simpl. intros [H|[]]. discriminate H.
Defined.

(** *** The default resume on unknown ids *)

Lemma map_res_id_set_is_default v rows :
  map res_id (map (set_is_default v) rows) = map res_id rows.
Proof. induction rows; simpl; congruence. Qed.

Lemma count_defaults_cleared rows :
  Sqlite.count (fun r => res_is_default r =? 1) (map (set_is_default 0) rows) = 0.
Proof.
  unfold Sqlite.count. induction rows as [|r rows IH]; simpl; [reflexivity|exact IH].
Qed.

(** C10. For every id that names no stored Resume, [setDefaultResume]
    returns normally, having cleared the default flag of every Resume and
    set none: afterwards no Resume is the default. *)
Theorem setDefaultResume_unknown_id_clears_default (db : Db) (id : string) :
  ~ In id (map res_id (resumes db)) ->
  setDefaultResume id db
    = (Ok tt, set_resumes db (map (set_is_default 0) (resumes db)))
  /\ default_count (db_after (setDefaultResume id) db) = 0.
Proof.
  intros H.
  assert (E : setDefaultResume id db
              = (Ok tt, set_resumes db (map (set_is_default 0) (resumes db)))).
  { unfold setDefaultResume, clear_defaults. store_unfold. simpl.
    rewrite (map_update_absent res_id (set_is_default 1) id).
    - destruct db; reflexivity.
    - rewrite map_res_id_set_is_default. exact H. }
  split; [exact E|].
  unfold db_after, default_count. rewrite E. simpl. apply count_defaults_cleared.
Qed.

Lemma setDefaultResume_unknown_id_clears_default_witness :
  setDefaultResume "r9" db_two_resumes
    = (Ok tt, set_resumes db_two_resumes
                (map (set_is_default 0) (resumes db_two_resumes)))
  /\ default_count (db_after (setDefaultResume "r9") db_two_resumes) = 0.
Proof.
  apply setDefaultResume_unknown_id_clears_default.
  simpl. intros [H|[H|[]]]; discriminate H.
Defined.

(** *** The stable sort *)

Lemma insert_perm {A : Type} (le : A -> A -> bool) (x : A) (l : list A) :
  Permutation (x :: l) (Js.insert le x l).
Proof.
  induction l as [|y l IH]; simpl; [apply Permutation_refl|].
  destruct (le x y); [apply Permutation_refl|].
  eapply perm_trans; [apply perm_swap|]. apply perm_skip. exact IH.
Qed.

Lemma sort_perm {A : Type} (le : A -> A -> bool) (l : list A) :
  Permutation l (Js.sort le l).
Proof.
  induction l as [|x l IH]; simpl; [constructor|].
  eapply perm_trans; [apply perm_skip; exact IH|]. apply insert_perm.
Qed.

Lemma sort_In {A : Type} (le : A -> A -> bool) (l : list A) (x : A) :
  In x (Js.sort le l) -> In x l.
Proof. apply Permutation_in. apply Permutation_sym. apply sort_perm. Qed.

Lemma In_sort {A : Type} (le : A -> A -> bool) (l : list A) (x : A) :
  In x l -> In x (Js.sort le l).
Proof. apply Permutation_in. apply sort_perm. Qed.

(* ===================================================================== *)
(** ** The email engine on the store *)
(* ===================================================================== *)

Lemma status_eqb_spec (a b : ApplicationStatus.t) :
  reflect (a = b) (ApplicationStatus.eqb a b).
Proof. destruct a, b; simpl; constructor; congruence. Qed.

Lemma status_eqb_refl (a : ApplicationStatus.t) : ApplicationStatus.eqb a a = true.
Proof. destruct a; reflexivity. Qed.

(** Matching only reads. *)
Lemma match_loop_reads (email : EmailData) (apps : list ApplicationRow) (db : Db) :
  match_loop email apps db
    = (Ok (option_map matched_of (find (matches db email) apps)), db).
Proof.
  induction apps as [|app apps IH]; simpl; [reflexivity|].
  unfold bind, getJob, query, matches.
  destruct (find (fun r => String.eqb (job_id r) (app_job_id app)) (jobs db))
    as [job|]; [|exact IH].
  destruct (company_matches (job_company job) email); [reflexivity|exact IH].
Qed.

Lemma matchEmailToApplication_reads (email : EmailData) (db : Db) :
  matchEmailToApplication email db = (Ok (first_match db email), db).
Proof.
  unfold matchEmailToApplication, listApplications, bind, query. simpl.
  apply match_loop_reads.
Qed.

(** The guard of the engine agrees with the tabulated policy. *)
Lemma responseTypeToStatus_policy (c : EmailResponseType) (cur : ApplicationStatus.t) :
  match responseTypeToStatus c cur with
  | Some ns => ns = policy c cur
  | None => policy c cur = cur
  end.
Proof. destruct c, cur; reflexivity. Qed.

Lemma same_but_threads_refl db : same_but_threads db db.
Proof. repeat split. Qed.

Lemma createEmailThread_frame params now id db :
  same_but_threads db (db_after (createEmailThread params now id) db).
Proof.
  unfold createEmailThread. store_unfold. cbn [thr_id thr_application_id].
  destruct (existsb _ (email_threads db)); [repeat split|].
  destruct (existsb _ (applications db)); repeat split.
Qed.

Lemma updateEmailThread_frame id updates db :
  same_but_threads db (db_after (updateEmailThread id updates) db).
Proof.
  unfold updateEmailThread. store_unfold.
  destruct (no_thread_updates updates); simpl; repeat split.
Qed.

Lemma updateApplicationStatus_frame id st notes now hid db :
  let db' := db_after (updateApplicationStatus id st notes now hid) db in
  jobs db' = jobs db /\ email_threads db' = email_threads db
  /\ resumes db' = resumes db.
Proof.
  unfold updateApplicationStatus, getApplication. store_unfold. simpl.
  destruct (find _ (applications db)); simpl; [|repeat split].
  destruct (existsb _ (application_history db)); simpl; [repeat split|].
  destruct (existsb _ _); repeat split.
Qed.

Lemma same_but_threads_trans a b c :
  same_but_threads a b -> same_but_threads b c -> same_but_threads a c.
Proof.
  unfold same_but_threads. intros (J1 & A1 & R1 & H1) (J2 & A2 & R2 & H2).
  repeat split; congruence.
Qed.

Lemma threads_only_ret {A : Type} (a : A) : threads_only (ret a).
Proof. intros db. apply same_but_threads_refl. Qed.

Lemma threads_only_query {A : Type} (f : Db -> A) : threads_only (query f).
Proof. intros db. apply same_but_threads_refl. Qed.

Lemma bind_after {A B : Type} (m : M A) (k : A -> M B) (db : Db) :
  (forall a, threads_only (k a)) ->
  same_but_threads (db_after m db) (db_after (bind m k) db).
Proof.
  intros Hk. unfold db_after at 2. unfold bind.
  unfold db_after at 1. destruct (m db) as [[a|e] db1]; simpl.
  - apply Hk.
  - apply same_but_threads_refl.
Qed.

Lemma db_after_bind_read {A B : Type} (m : M A) (k : A -> M B) (db : Db) (r : A) :
  m db = (Ok r, db) -> db_after (bind m k) db = db_after (k r) db.
Proof. intros E. unfold db_after, bind. rewrite E. reflexivity. Qed.

Lemma threads_only_bind {A B : Type} (m : M A) (k : A -> M B) :
  threads_only m -> (forall a, threads_only (k a)) -> threads_only (bind m k).
Proof.
  intros Hm Hk db. eapply same_but_threads_trans; [apply Hm|].
  apply bind_after. exact Hk.
Qed.

(** The status update that the engine makes for a matched Application. *)
Lemma engine_update_guard (m : Matched) (email : EmailData) (env : Env) (db : Db) :
  db_after
    match responseTypeToStatus (classifyEmailResponse email) (currentStatus m) with
    | Some newStatus =>
        if negb (ApplicationStatus.eqb newStatus (currentStatus m))
        then updateApplicationStatus (applicationId m) newStatus
               (Some ("Email response classified as: "
                      ++ responseType_name (classifyEmailResponse email))%string)
               (now_status env) (historyId env)
        else ret tt
    | None => ret tt
    end db
  = engine_update m email env db.
Proof.
  unfold engine_update.
  pose proof (responseTypeToStatus_policy (classifyEmailResponse email)
                (currentStatus m)) as P.
  destruct (responseTypeToStatus (classifyEmailResponse email) (currentStatus m))
    as [ns|].
  - rewrite <- P. destruct (ApplicationStatus.eqb ns (currentStatus m)); reflexivity.
  - rewrite P, status_eqb_refl. reflexivity.
Qed.

(** What processing one email does to the store: nothing when no candidate
    matches; otherwise the status update of the matched Application, then
    the thread upsert. *)
Lemma processEmailNotification_effect n email env db :
  match first_match db email with
  | None => db_after (processEmailNotification n email env) db = db
  | Some m =>
      same_but_threads (engine_update m email env db)
        (db_after (processEmailNotification n email env) db)
  end.
Proof.
  unfold processEmailNotification.
  rewrite (db_after_bind_read _ _ _ _ (matchEmailToApplication_reads email db)).
  destruct (first_match db email) as [m|]; [|reflexivity].
  rewrite <- engine_update_guard.
  apply (bind_after _ _ db). intros _.
  apply threads_only_bind.
  - destruct (truthy (gmailThreadId email)).
    + apply threads_only_query.
    + apply threads_only_ret.
  - intros [t|].
    + apply threads_only_bind; [intros d; apply updateEmailThread_frame|].
      intros _. destruct (emailResponseAlerts n); [|apply threads_only_ret].
      destruct (truthy (channel n)); [|apply threads_only_ret].
      apply threads_only_bind; [apply threads_only_query|intros; apply threads_only_ret].
    + apply threads_only_bind.
      * apply threads_only_bind; [intros d; apply createEmailThread_frame|].
        intros; apply threads_only_ret.
      * intros _. destruct (emailResponseAlerts n); [|apply threads_only_ret].
        destruct (truthy (channel n)); [|apply threads_only_ret].
        apply threads_only_bind; [apply threads_only_query|intros; apply threads_only_ret].
Qed.

(* ===================================================================== *)
(** ** Status updates: applied_at and the history *)
(* ===================================================================== *)

Lemma status_row_update_id id st now r : app_id (status_row_update id st now r) = app_id r.
Proof. unfold status_row_update. destruct (String.eqb (app_id r) id); reflexivity. Qed.

Lemma updateApplicationStatus_applications id st notes now hid db :
  applications (db_after (updateApplicationStatus id st notes now hid) db)
    = map (status_row_update id st now) (applications db).
Proof.
  unfold db_after. rewrite updateApplicationStatus_insert.
  unfold getApplication. store_unfold. simpl.
  destruct (find (fun r => String.eqb (app_id r) id) (applications db)) as [a|] eqn:F.
  - simpl. destruct (existsb _ (application_history db)); reflexivity.
  - simpl. symmetry. unfold status_row_update.
    apply map_update_absent with (key := app_id)
      (f := set_application_status st now
              (if ApplicationStatus.eqb st ApplicationStatus.submitted
               then Some now else None)).
    intros Hin. apply in_map_iff in Hin. destruct Hin as (r & E & Hr).
    apply (find_none _ _ F) in Hr. rewrite E, String.eqb_refl in Hr. discriminate.
Qed.

Lemma find_map_same_key {R : Type} (key : R -> string) (f : R -> R) (id : string)
    (rows : list R) :
  (forall r, key (f r) = key r) ->
  find (fun r => String.eqb (key r) id) (map f rows)
    = option_map f (find (fun r => String.eqb (key r) id) rows).
Proof.
  intros K. induction rows as [|r rows IH]; simpl; [reflexivity|].
  rewrite K. destruct (String.eqb (key r) id); [reflexivity|exact IH].
Qed.

Lemma find_app_found {R : Type} (p : R -> bool) (rows more : list R) (x : R) :
  find p rows = Some x -> find p (rows ++ more) = Some x.
Proof.
  induction rows as [|r rows IH]; simpl; [discriminate|].
  destruct (p r); [trivial|exact IH].
Qed.

Lemma application_of_after_update id' st notes now hid db id :
  application_of (db_after (updateApplicationStatus id' st notes now hid) db) id
    = option_map (status_row_update id' st now) (application_of db id).
Proof.
  unfold application_of. rewrite updateApplicationStatus_applications.
  apply find_map_same_key. intros r. apply status_row_update_id.
Qed.

Lemma policy_never_submitted c cur : policy c cur = ApplicationStatus.submitted -> False.
Proof. destruct c, cur; discriminate. Qed.

(** The applications table after one call of a method. *)
Lemma perform_applications op db :
  match op with
  | OpUpdateApplicationStatus id st _ now _ =>
      applications (db_after (perform op) db)
        = map (status_row_update id st now) (applications db)
  | OpCreateApplication params now id =>
      applications (db_after (perform op) db) = applications db
      \/ applications (db_after (perform op) db)
           = applications db
             ++ [mkApplicationRow id (p_jobId params) ApplicationStatus.pending None
                   (p_resumeId params) (p_coverLetter params) (p_answers params)
                   (p_notes params) now now now]
  | _ => applications (db_after (perform op) db) = applications db
  end.
Proof.
  destruct op; simpl;
    try (unfold createJob, updateJobStatus, updateJob, createEmailThread,
           updateEmailThread, createResume, setDefaultResume, deleteResume,
           clear_defaults; store_unfold; simpl;
         repeat match goal with
                | |- context [if ?b then _ else _] => destruct b; simpl
                end; reflexivity).
  - unfold createApplication. store_unfold. simpl.
    destruct (existsb _ (applications db)); simpl; [left; reflexivity|].
    destruct (existsb _ (jobs db)); simpl; [right|left]; reflexivity.
  - apply updateApplicationStatus_applications.
Qed.

(** One event keeps a stamp that is set, and sets a missing one exactly when
    it is a call that makes the status "submitted". *)
Lemma step_applied_at db ev id a :
  applied_at_of db id = Some a ->
  applied_at_of (step db ev) id = Some (coalesce a (first_submitted id [ev])).
Proof.
  unfold applied_at_of. intros H.
  destruct (application_of db id) as [r|] eqn:F; [|discriminate].
  simpl in H. injection H as <-.
  assert (U : forall id' st notes now hid,
             option_map app_applied_at
               (application_of
                  (db_after (updateApplicationStatus id' st notes now hid) db) id)
             = Some (coalesce (app_applied_at r)
                       (if String.eqb id' id
                        then if ApplicationStatus.eqb st ApplicationStatus.submitted
                             then Some now else None
                        else None))).
  { intros id' st notes now hid. rewrite application_of_after_update, F. simpl.
    unfold status_row_update.
    assert (Eid : app_id r = id).
    { unfold application_of in F. apply find_some in F. destruct F as [_ E].
      apply String.eqb_eq. exact E. }
    rewrite Eid, (String.eqb_sym id id').
    destruct (String.eqb id' id); simpl; [reflexivity|].
    destruct (app_applied_at r); reflexivity. }
  assert (Same : forall db', applications db' = applications db ->
             option_map app_applied_at (application_of db' id)
             = Some (coalesce (app_applied_at r) None)).
  { intros db' E. unfold application_of in *. rewrite E, F. simpl.
    destruct (app_applied_at r); reflexivity. }
  destruct ev as [op|n email env].
  - change (step db (Call op)) with (db_after (perform op) db).
    pose proof (perform_applications op db) as P.
    destruct op; cbn [first_submitted];
      try (apply Same; exact P).
    + (* createApplication *)
      destruct P as [P|P]; [apply Same; exact P|].
      unfold application_of in *. rewrite P.
      rewrite (find_app_found _ _ _ _ F). simpl.
      destruct (app_applied_at r); reflexivity.
    + (* updateApplicationStatus *)
      cbn [perform]. rewrite (U id0 status notes now historyId0).
      destruct status; simpl; destruct (String.eqb id0 id); reflexivity.
  - simpl step. simpl first_submitted.
    pose proof (processEmailNotification_effect n email env db) as E.
    destruct (first_match db email) as [m|].
    + destruct E as (_ & EA & _).
      unfold application_of at 1. rewrite EA. fold (application_of (engine_update m email env db) id).
      unfold engine_update.
      destruct (ApplicationStatus.eqb _ (currentStatus m)) eqn:G.
      * apply Same. reflexivity.
      * rewrite U.
        pose proof (policy_never_submitted (classifyEmailResponse email) (currentStatus m)) as NS.
        destruct (policy (classifyEmailResponse email) (currentStatus m));
          simpl; try (destruct (String.eqb (applicationId m) id); reflexivity).
        exfalso. apply NS. reflexivity.
    + rewrite E. apply Same. reflexivity.
Qed.

Lemma first_submitted_cons id ev evs a :
  coalesce (coalesce a (first_submitted id [ev])) (first_submitted id evs)
  = coalesce a (first_submitted id (ev :: evs)).
Proof.
  destruct a as [t|]; [reflexivity|]. simpl.
  destruct ev as [op|]; [|reflexivity].
  destruct op; try reflexivity.
  destruct status; try reflexivity.
  destruct (String.eqb id0 id); reflexivity.
Qed.

Lemma run_events_applied_at evs : forall db id a,
  applied_at_of db id = Some a ->
  applied_at_of (run_events evs db) id = Some (coalesce a (first_submitted id evs)).
Proof.
  induction evs as [|ev evs IH]; intros db id a H; simpl.
  - rewrite H. destruct a; reflexivity.
  - rewrite (IH _ _ _ (step_applied_at db ev id a H)).
    rewrite first_submitted_cons. reflexivity.
Qed.

(** C2. [applied_at] is unset on a new Application (one created, under a
    new id, for a job that is stored: for any other job the insert fails);
    in any history of calls and emails it becomes the time of the first call
    that makes the status "submitted"; and once set, nothing that follows
    changes it, a repeated transition to "submitted" included. *)
Theorem applied_at_set_exactly_once (evs : list Event) (db : Db) (id : string) :
  (forall params now,
      ~ In id (map app_id (applications db)) ->
      In (p_jobId params) (map job_id (jobs db)) ->
      applied_at_of (step db (Call (OpCreateApplication params now id))) id
        = Some None)
  /\ (applied_at_of db id = Some None ->
      applied_at_of (run_events evs db) id = Some (first_submitted id evs))
  /\ (forall t, applied_at_of db id = Some (Some t) ->
                applied_at_of (run_events evs db) id = Some (Some t)).
Proof.
  split; [|split].
  - intros params now H J. simpl. unfold createApplication. store_unfold.
    pose proof (existsb_fresh app_id id _ H) as X.
    simpl. rewrite X, (existsb_stored job_id _ _ J).
    simpl. unfold applied_at_of, application_of. simpl.
    induction (applications db) as [|r rows IH]; simpl.
    + rewrite String.eqb_refl. reflexivity.
    + simpl in X. apply orb_false_iff in X. destruct X as [X1 X2].
      rewrite X1. apply IH.
      * intros Hin. apply H. right. exact Hin.
      * exact X2.
  - intros H. rewrite (run_events_applied_at evs db id None H). reflexivity.
  - intros t H. rewrite (run_events_applied_at evs db id (Some t) H). reflexivity.
Qed.

Lemma applied_at_set_exactly_once_witness :
  applied_at_of (run_events submitted_interview_rejected db_one_application) "a1"
    = Some (Some 100)
  /\ applied_at_of
       (step db_to_apply
          (Call (OpCreateApplication (mkApplicationParams "j1" None None None None)
                   50 "a7"))) "a7"
     = Some None.
Proof.
  split.
  - exact (proj1 (proj2 (applied_at_set_exactly_once submitted_interview_rejected
                           db_one_application "a1")) eq_refl).
  - apply (proj1 (applied_at_set_exactly_once [] db_to_apply "a7")).
    + intros [].
    + left. reflexivity.
Defined.

(** The same history, run: the stamp is the time of the first submission,
    and the later submission at 250 left it alone. *)
Example applied_at_example :
  application_of (run_events submitted_interview_rejected db_one_application) "a1"
    = Some (mkApplicationRow "a1" "j1" ApplicationStatus.rejected (Some 100)
              None None None None 300 10 300).
Proof. reflexivity. Qed.

(** *** The history *)


Lemma updateApplicationStatus_history id st notes now hid db :
  ~ In hid (map hist_id (application_history db)) ->
  application_history (db_after (updateApplicationStatus id st notes now hid) db)
  = application_history db
    ++ match application_of db id with
       | Some app => [mkApplicationHistoryRow hid id (Some (app_status app)) st now notes]
       | None => []
       end.
Proof.
  intros Fresh.
  unfold db_after. rewrite updateApplicationStatus_insert.
  unfold getApplication. store_unfold. simpl.
  unfold application_of.
  destruct (find (fun r => String.eqb (app_id r) id) (applications db)) as [app|];
    simpl; [|rewrite app_nil_r; reflexivity].
  rewrite (existsb_fresh hist_id hid _ Fresh). reflexivity.
Qed.

(** C5. A call of [updateApplicationStatus] on a stored Application appends
    exactly one history record, whose old status is the status the
    Application had before the call and whose new status is the requested
    one; a call on an unknown id, and every other method of the store,
    leaves the history as it was. *)
Theorem history_one_record_per_status_change (op : Op) (db : Db) :
  history_id_fresh op db ->
  application_history (db_after (perform op) db)
    = application_history db ++ expected_history op db.
Proof.
  intros Fresh.
  destruct op; simpl expected_history; rewrite ?app_nil_r;
    try (simpl; unfold createJob, updateJobStatus, updateJob, createApplication,
           createEmailThread, updateEmailThread, createResume, setDefaultResume,
           deleteResume, clear_defaults; store_unfold; simpl;
         repeat match goal with
                | |- context [if ?b then _ else _] => destruct b; simpl
                end; reflexivity).
  apply updateApplicationStatus_history. exact Fresh.
Qed.

Lemma history_one_record_per_status_change_witness :
  application_history
    (db_after (perform (OpUpdateApplicationStatus "a1" ApplicationStatus.submitted
                          (Some "sent") 100 "h1")) db_one_application)
  = [mkApplicationHistoryRow "h1" "a1" (Some ApplicationStatus.pending)
       ApplicationStatus.submitted 100 (Some "sent")].
Proof.
  apply (history_one_record_per_status_change
           (OpUpdateApplicationStatus "a1" ApplicationStatus.submitted
              (Some "sent") 100 "h1") db_one_application).
  simpl. intros [].
Defined.

(* ===================================================================== *)
(** ** The default resume *)
(* ===================================================================== *)

Lemma count_app {R : Type} (p : R -> bool) (a b : list R) :
  Sqlite.count p (a ++ b) = Sqlite.count p a + Sqlite.count p b.
Proof. unfold Sqlite.count. rewrite filter_app, length_app, Nat2Z.inj_add. reflexivity. Qed.

Lemma count_nonneg {R : Type} (p : R -> bool) (rows : list R) : 0 <= Sqlite.count p rows.
Proof. unfold Sqlite.count. lia. Qed.

Lemma count_filter_le {R : Type} (p q : R -> bool) (rows : list R) :
  Sqlite.count p (filter q rows) <= Sqlite.count p rows.
Proof.
  unfold Sqlite.count. induction rows as [|r rows IH]; simpl; [lia|].
  destruct (q r); simpl; destruct (p r); simpl; lia.
Qed.

Lemma NoDup_map_filter {R : Type} (key : R -> string) (q : R -> bool) (rows : list R) :
  NoDup (map key rows) -> NoDup (map key (filter q rows)).
Proof.
  induction rows as [|r rows IH]; simpl; intros H; [constructor|].
  inversion H as [|? ? Hn Hd]; subst.
  destruct (q r); simpl; [|apply IH; exact Hd].
  constructor; [|apply IH; exact Hd].
  intros Hin. apply Hn. apply in_map_iff in Hin. destruct Hin as (x & E & Hx).
  apply in_map_iff. exists x. split; [exact E|]. apply filter_In in Hx. apply Hx.
Qed.

Lemma existsb_map_key_cleared (id : string) (rows : list ResumeRow) :
  existsb (fun x => String.eqb (res_id x) id) (map (set_is_default 0) rows)
  = existsb (fun x => String.eqb (res_id x) id) rows.
Proof. induction rows as [|r rows IH]; simpl; [reflexivity|]. rewrite IH. reflexivity. Qed.

Lemma NoDup_app_one (ids : list string) (id : string) :
  NoDup ids -> ~ In id ids -> NoDup (ids ++ [id]).
Proof.
  induction ids as [|x ids IH]; simpl; intros Hd Hn.
  - constructor; [intros []|constructor].
  - inversion Hd as [|? ? Hx Hd']; subst. constructor.
    + intros Hin. apply in_app_or in Hin. destruct Hin as [Hin|[E|[]]].
      * exact (Hx Hin).
      * apply Hn. left. symmetry. exact E.
    + apply IH; [exact Hd'|]. intros Hin. apply Hn. right. exact Hin.
Qed.

Lemma map_map_key_update (id : string) (v : Z) (rows : list ResumeRow) :
  map res_id (map (fun r => if String.eqb (res_id r) id then set_is_default v r else r) rows)
  = map res_id rows.
Proof.
  induction rows as [|r rows IH]; simpl; [reflexivity|].
  rewrite IH. destruct (String.eqb (res_id r) id); reflexivity.
Qed.

Lemma count_set_one (id : string) (rows : list ResumeRow) :
  NoDup (map res_id rows) ->
  Sqlite.count (fun r => res_is_default r =? 1)
    (map (fun r => if String.eqb (res_id r) id then set_is_default 1 r else r)
         (map (set_is_default 0) rows)) <= 1.
Proof.
  induction rows as [|r rows IH]; intros H; [unfold Sqlite.count; simpl; lia|].
  inversion H as [|? ? Hn Hd]; subst.
  cbn [map]. change (res_id (set_is_default 0 r)) with (res_id r).
  destruct (String.eqb_spec (res_id r) id) as [E|E].
  - rewrite (map_update_absent res_id (set_is_default 1) id).
    + change (?x :: ?l) with ([x] ++ l). rewrite count_app, count_defaults_cleared.
      unfold Sqlite.count. simpl. lia.
    + rewrite map_res_id_set_is_default, <- E. exact Hn.
  - change (?x :: ?l) with ([x] ++ l). rewrite count_app.
    specialize (IH Hd). unfold Sqlite.count at 1. simpl. lia.
Qed.

Lemma resumes_ok_frame db db' : resumes db' = resumes db -> resumes_ok db -> resumes_ok db'.
Proof. unfold resumes_ok, default_count. intros ->. trivial. Qed.

Lemma perform_resumes_ok op db : resumes_ok db -> resumes_ok (db_after (perform op) db).
Proof.
  intros [Hn Hc].
  destruct op;
    try (apply resumes_ok_frame with (db := db); [|split; assumption];
         simpl; unfold createJob, updateJobStatus, updateJob, createApplication,
           createEmailThread, updateEmailThread; store_unfold; simpl;
         repeat match goal with
                | |- context [if ?b then _ else _] => destruct b; simpl
                end; reflexivity).
  - (* updateApplicationStatus *)
    apply resumes_ok_frame with (db := db); [|split; assumption].
    apply updateApplicationStatus_frame.
  - (* createResume *)
    simpl. unfold createResume, clear_defaults. store_unfold.
    unfold resumes_ok, default_count in *.
    destruct (nullish (p_isDefault params) false); simpl.
    + rewrite existsb_map_key_cleared.
      destruct (existsb (fun x => String.eqb (res_id x) id) (resumes db)) eqn:X; simpl.
      * rewrite map_res_id_set_is_default, count_defaults_cleared. split; [exact Hn|lia].
      * rewrite map_app, map_res_id_set_is_default, count_app, count_defaults_cleared.
        split; [|unfold Sqlite.count; simpl; lia].
        apply NoDup_app_one; [exact Hn|].
        intros Hin. apply in_map_iff in Hin. destruct Hin as (x & E & Hx).
        assert (Y : existsb (fun x => String.eqb (res_id x) id) (resumes db) = true).
        { apply existsb_exists. exists x. split; [exact Hx|].
          apply String.eqb_eq. exact E. }
        congruence.
    + destruct (existsb (fun x => String.eqb (res_id x) id) (resumes db)) eqn:X; simpl.
      * split; assumption.
      * rewrite map_app, count_app.
        split; [|unfold Sqlite.count at 2; simpl; lia].
        apply NoDup_app_one; [exact Hn|].
        intros Hin. apply in_map_iff in Hin. destruct Hin as (x & E & Hx).
        assert (Y : existsb (fun x => String.eqb (res_id x) id) (resumes db) = true).
        { apply existsb_exists. exists x. split; [exact Hx|].
          apply String.eqb_eq. exact E. }
        congruence.
  - (* setDefaultResume *)
    simpl. unfold setDefaultResume, clear_defaults. store_unfold. simpl.
    unfold resumes_ok, default_count. simpl. split.
    + rewrite map_map_key_update, map_res_id_set_is_default. exact Hn.
    + apply count_set_one. exact Hn.
  - (* deleteResume *)
    simpl. unfold deleteResume. store_unfold. simpl.
    unfold resumes_ok, default_count in *. simpl. split.
    + apply NoDup_map_filter. exact Hn.
    + pose proof (count_filter_le (fun r => res_is_default r =? 1)
                    (fun r => negb (String.eqb (res_id r) id)) (resumes db)). lia.
Qed.

Lemma step_resumes_ok db ev : resumes_ok db -> resumes_ok (step db ev).
Proof.
  intros H. destruct ev as [op|n email env]; simpl.
  - apply perform_resumes_ok. exact H.
  - pose proof (processEmailNotification_effect n email env db) as E.
    destruct (first_match db email) as [m|]; [|rewrite E; exact H].
    destruct E as (_ & _ & ER & _).
    apply resumes_ok_frame with (db := db); [|exact H].
    rewrite ER. unfold engine_update.
    destruct (ApplicationStatus.eqb _ (currentStatus m)); [reflexivity|].
    apply updateApplicationStatus_frame.
Qed.

Lemma run_events_resumes_ok evs : forall db, resumes_ok db -> resumes_ok (run_events evs db).
Proof.
  induction evs as [|ev evs IH]; intros db H; simpl; [exact H|].
  apply IH. apply step_resumes_ok. exact H.
Qed.

Lemma resumes_ok_empty : resumes_ok empty_db.
Proof. split; [constructor|unfold default_count, Sqlite.count; simpl; lia]. Qed.

(** C6. After any history of store calls and emails from the empty store,
    [createResume] and [setDefaultResume] in any number and order among
    them, the number of resumes whose [is_default] is 1 is zero or one. *)
Theorem at_most_one_default_resume (evs : list Event) :
  default_count (run_events evs empty_db) = 0
  \/ default_count (run_events evs empty_db) = 1.
Proof.
  destruct (run_events_resumes_ok evs empty_db resumes_ok_empty) as [_ H].
  pose proof (count_nonneg (fun r => res_is_default r =? 1)
                (resumes (run_events evs empty_db))) as P.
  unfold default_count in *. lia.
Qed.

(** The store's own test: the second resume is made the default and the
    first one loses the flag. *)
Example set_default_example :
  map (fun r => (res_id r, res_is_default r))
    (resumes (run_events
       [ Call (OpCreateResume (mkResumeParams "Resume 1" "/path/to/1.pdf" pdf None
                                 (Some true)) 10 "r1");
         Call (OpCreateResume (mkResumeParams "Resume 2" "/path/to/2.pdf" pdf None
                                 (Some false)) 20 "r2");
         Call (OpSetDefaultResume "r2") ] empty_db))
  = [("r1", 0); ("r2", 1)].
Proof. reflexivity. Qed.

(* ===================================================================== *)
(** ** The transition policy *)
(* ===================================================================== *)

Lemma firstn_In {A : Type} (n : nat) (l : list A) (x : A) : In x (firstn n l) -> In x l.
Proof.
  intros H. rewrite <- (firstn_skipn n l). apply in_or_app. left. exact H.
Qed.

Lemma listed_eq st db :
  listed st db
  = firstn 100 (Js.sort by_updated_at_desc
                  (filter (fun r => ApplicationStatus.eqb (app_status r) st)
                          (applications db))).
Proof. reflexivity. Qed.

Lemma listed_In st db a : In a (listed st db) -> In a (applications db) /\ app_status a = st.
Proof.
  rewrite listed_eq. intros H.
  apply firstn_In in H. apply sort_In in H. apply filter_In in H.
  destruct H as [H1 H2]. split; [exact H1|].
  destruct (status_eqb_spec (app_status a) st); [assumption|discriminate].
Qed.

Lemma find_NoDup {R : Type} (key : R -> string) (rows : list R) (a : R) :
  NoDup (map key rows) -> In a rows ->
  find (fun r => String.eqb (key r) (key a)) rows = Some a.
Proof.
  induction rows as [|r rows IH]; simpl; intros Hd Hin; [contradiction|].
  inversion Hd as [|? ? Hn Hd']; subst.
  destruct Hin as [->|Hin]; [rewrite String.eqb_refl; reflexivity|].
  destruct (String.eqb_spec (key r) (key a)) as [E|E].
  - exfalso. apply Hn. rewrite E. apply in_map. exact Hin.
  - apply IH; assumption.
Qed.

Lemma first_match_candidate db email m :
  first_match db email = Some m ->
  exists a, In a (applications db) /\ m = matched_of a
            /\ (app_status a = ApplicationStatus.submitted
                \/ app_status a = ApplicationStatus.interview)
            /\ matches db email a = true.
Proof.
  unfold first_match. intros H.
  destruct (find (matches db email) (candidates db)) as [a|] eqn:F; [|discriminate].
  injection H as <-. apply find_some in F. destruct F as [Hin Hm].
  exists a. unfold candidates in Hin. apply in_app_or in Hin.
  destruct Hin as [Hin|Hin]; apply listed_In in Hin; destruct Hin as [H1 H2];
    repeat split; auto.
Qed.

(** The primary key of the applications table holds in every database
    that a history reaches from the empty one. *)
Lemma status_row_update_ids id st now rows :
  map app_id (map (status_row_update id st now) rows) = map app_id rows.
Proof.
  rewrite map_map. apply map_ext. intros r. apply status_row_update_id.
Qed.

Lemma step_application_ids db ev :
  NoDup (map app_id (applications db)) ->
  NoDup (map app_id (applications (step db ev))).
Proof.
  intros H. destruct ev as [op|n email env].
  - change (step db (Call op)) with (db_after (perform op) db).
    pose proof (perform_applications op db) as P.
    destruct op; try (rewrite P; exact H).
    + destruct P as [P|P]; [rewrite P; exact H|].
      assert (X : existsb (fun x => String.eqb (app_id x) id) (applications db) = false).
      { cbn [perform] in P. unfold createApplication in P. store_unfold.
        cbn [app_id] in P.
        destruct (existsb (fun x => String.eqb (app_id x) id) (applications db));
          [|reflexivity].
        simpl in P. exfalso.
        apply (f_equal (@List.length ApplicationRow)) in P.
        rewrite length_app in P. simpl in P. lia. }
      rewrite P, map_app. simpl. apply NoDup_app_one; [exact H|].
      intros Hin. apply in_map_iff in Hin. destruct Hin as (x & E & Hx).
      assert (Y : existsb (fun x => String.eqb (app_id x) id) (applications db) = true).
      { apply existsb_exists. exists x. split; [exact Hx|].
        apply String.eqb_eq. exact E. }
      congruence.
    + rewrite P, status_row_update_ids. exact H.
  - simpl. pose proof (processEmailNotification_effect n email env db) as E.
    destruct (first_match db email) as [m|]; [|rewrite E; exact H].
    destruct E as (_ & EA & _). rewrite EA. unfold engine_update.
    destruct (ApplicationStatus.eqb _ (currentStatus m)); [exact H|].
    rewrite updateApplicationStatus_applications, status_row_update_ids. exact H.
Qed.

Lemma application_ids_unique (evs : list Event) :
  NoDup (map app_id (applications (run_events evs empty_db))).
Proof.
  assert (G : forall db, NoDup (map app_id (applications db)) ->
                         NoDup (map app_id (applications (run_events evs db)))).
  { induction evs as [|ev evs IH]; intros db H; simpl; [exact H|].
    apply IH, step_application_ids, H. }
  apply G. constructor.
Qed.

(** C1. When an email matches an Application, the status of that
    Application afterwards is the one the transition policy gives for the
    class of the email and the status it had: offer for an offer; interview
    for an interview unless it was interview or offer already; rejected for
    a rejection; viewed for a generic email if it was submitted, unchanged
    otherwise.  When the policy gives the status it already had, nothing is
    written to the applications or to the history; when it gives another,
    one history record is written.  Whatever the email, an Application
    whose status is offer is left as it is. *)
Theorem email_transition_policy
    (n : Notifications) (email : EmailData) (env : Env) (db : Db) :
  NoDup (map app_id (applications db)) ->
  (forall m,
      outcome (matchEmailToApplication email) db = Ok (Some m) ->
      let db' := db_after (processEmailNotification n email env) db in
      let target := policy (classifyEmailResponse email) (currentStatus m) in
      status_of db (applicationId m) = Some (currentStatus m)
      /\ status_of db' (applicationId m) = Some target
      /\ (target = currentStatus m ->
          applications db' = applications db
          /\ application_history db' = application_history db)
      /\ (target <> currentStatus m ->
          ~ In (historyId env) (map hist_id (application_history db)) ->
          application_history db'
          = application_history db
            ++ [mkApplicationHistoryRow (historyId env) (applicationId m)
                  (Some (currentStatus m)) target (now_status env)
                  (Some ("Email response classified as: "
                         ++ responseType_name (classifyEmailResponse email))%string)]))
  /\ (forall a,
        In a (applications db) -> app_status a = ApplicationStatus.offer ->
        In a (applications (db_after (processEmailNotification n email env) db)))
  /\ policy interview ApplicationStatus.offer = ApplicationStatus.offer.
Proof.
  intros Hd.
  pose proof (processEmailNotification_effect n email env db) as E.
  split; [|split; [|reflexivity]].
  - intros m Hm db' target. subst db'.
    unfold outcome in Hm. rewrite matchEmailToApplication_reads in Hm. simpl in Hm.
    injection Hm as Hm. rewrite Hm in E. destruct E as (_ & EA & _ & EH).
    destruct (first_match_candidate _ _ _ Hm) as (a & Hin & -> & _ & _).
    simpl applicationId in *. simpl currentStatus in *.
    assert (Fa : application_of db (app_id a) = Some a)
      by (apply (find_NoDup app_id); assumption).
    unfold status_of, application_of at 2. rewrite EA, EH.
    fold (application_of (engine_update (matched_of a) email env db) (app_id a)).
    unfold engine_update. simpl applicationId. simpl currentStatus. fold target.
    destruct (status_eqb_spec target (app_status a)) as [T|T].
    + rewrite Fa. simpl. split; [reflexivity|]. split; [congruence|].
      split; [intros _; split; reflexivity|]. intros T'. contradiction.
    + rewrite application_of_after_update, Fa. simpl.
      unfold status_row_update. rewrite String.eqb_refl. simpl.
      split; [reflexivity|]. split; [reflexivity|].
      split; [intros T'; contradiction|].
      intros _ Fresh.
      rewrite (updateApplicationStatus_history _ _ _ _ _ _ Fresh), Fa.
      reflexivity.
  - intros a Hin Ha.
    destruct (first_match db email) as [m|] eqn:Hm; [|rewrite E; exact Hin].
    destruct E as (_ & EA & _). rewrite EA. unfold engine_update.
    destruct (ApplicationStatus.eqb _ (currentStatus m)); [exact Hin|].
    rewrite updateApplicationStatus_applications.
    destruct (first_match_candidate _ _ _ Hm) as (b & Hb & -> & Sb & _).
    simpl. apply in_map_iff. exists a. split; [|exact Hin].
    unfold status_row_update.
    destruct (String.eqb_spec (app_id a) (app_id b)) as [Eab|]; [|reflexivity].
    exfalso.
    pose proof (find_NoDup app_id _ a Hd Hin) as F1.
    pose proof (find_NoDup app_id _ b Hd Hb) as F2.
    rewrite Eab in F1. rewrite F1 in F2. injection F2 as ->.
    destruct Sb as [Sb|Sb]; rewrite Sb in Ha; discriminate.
Qed.

Lemma email_transition_policy_witness :
  status_of (db_after (processEmailNotification alerts_on email_next_steps env_example)
               db_acme) "a1"
    = Some ApplicationStatus.interview
  /\ In (mkApplicationRow "a2" "j2" ApplicationStatus.offer (Some 30) None None
           None None 40 15 40)
        (applications
           (db_after (processEmailNotification alerts_on email_next_steps env_example)
              db_acme)).
Proof.
  assert (Hd : NoDup (map app_id (applications db_acme))).
  { simpl. constructor; [intros [H|[]]; discriminate H|].
    constructor; [intros []|constructor]. }
  destruct (email_transition_policy alerts_on email_next_steps env_example db_acme Hd)
    as (P1 & P2 & _).
  split.
  - exact (proj1 (proj2 (P1 (mkMatched "a1" "j1" ApplicationStatus.submitted)
                           eq_refl))).
  - apply P2; [simpl; right; left; reflexivity|reflexivity].
Defined.

(* ===================================================================== *)
(** ** Classification *)
(* ===================================================================== *)

Lemma startsWith_spec (s w : string) :
  Js.startsWith s w = true <-> exists post, s = (w ++ post)%string.
Proof.
  revert s. induction w as [|a w IH]; intros s; simpl.
  - split; [intros _; exists s; reflexivity|reflexivity].
  - destruct s as [|b s]; [split; [discriminate|intros [post H]; discriminate]|].
    destruct (Ascii.eqb_spec a b) as [->|N].
    + rewrite IH. split; intros [post H]; exists post; congruence.
    + split; [discriminate|]. intros [post H]. congruence.
Qed.

Lemma includes_spec (s w : string) : Js.includes s w = true <-> occurs w s.
Proof.
  unfold occurs. induction s as [|c s IH].
  - simpl. rewrite orb_false_r, startsWith_spec. split.
    + intros [post H]. exists EmptyString, post. exact H.
    + intros (pre & post & H). destruct pre; [exists post; exact H|discriminate].
  - cbn [Js.includes]. rewrite orb_true_iff, startsWith_spec, IH. split.
    + intros [[post H] | (pre & post & H)].
      * exists EmptyString, post. exact H.
      * exists (String c pre), post. simpl. rewrite H. reflexivity.
    + intros (pre & post & H). destruct pre as [|c' pre].
      * left. exists post. exact H.
      * right. simpl in H. injection H as _ H. exists pre, post. exact H.
Qed.

Lemma some_includes_hit (keywords : list string) (content : string) :
  Js.some (fun kw => Js.includes content kw) keywords = true <-> hit keywords content.
Proof.
  unfold Js.some, hit. rewrite existsb_exists.
  split; intros (kw & H1 & H2); exists kw; split; auto; apply includes_spec; exact H2.
Qed.

Lemma some_includes_miss (keywords : list string) (content : string) :
  ~ hit keywords content ->
  Js.some (fun kw => Js.includes content kw) keywords = false.
Proof.
  intros H. destruct (Js.some _ keywords) eqn:E; [|reflexivity].
  exfalso. apply H. apply some_includes_hit. exact E.
Qed.

(** C4. Classification scans the lower-cased text made of the subject, one
    space and the body for the keywords of three fixed sets, by substring,
    in strict priority: offer if an offer keyword occurs; else interview if
    an interview keyword occurs; else rejection if a rejection keyword
    occurs; else generic.  Where and how often the keywords occur plays no
    part. *)
Theorem classification_by_priority (email : EmailData) :
  (hit OFFER_KEYWORDS (content_of email) -> classifyEmailResponse email = offer)
  /\ (~ hit OFFER_KEYWORDS (content_of email) ->
      hit INTERVIEW_KEYWORDS (content_of email) ->
      classifyEmailResponse email = interview)
  /\ (~ hit OFFER_KEYWORDS (content_of email) ->
      ~ hit INTERVIEW_KEYWORDS (content_of email) ->
      hit REJECTION_KEYWORDS (content_of email) ->
      classifyEmailResponse email = rejection)
  /\ (~ hit OFFER_KEYWORDS (content_of email) ->
      ~ hit INTERVIEW_KEYWORDS (content_of email) ->
      ~ hit REJECTION_KEYWORDS (content_of email) ->
      classifyEmailResponse email = generic).
Proof.
  unfold classifyEmailResponse. fold (content_of email).
  repeat split.
  - intros H. apply some_includes_hit in H. rewrite H. reflexivity.
  - intros H1 H2. rewrite (some_includes_miss _ _ H1).
    apply some_includes_hit in H2. rewrite H2. reflexivity.
  - intros H1 H2 H3. rewrite (some_includes_miss _ _ H1), (some_includes_miss _ _ H2).
    apply some_includes_hit in H3. rewrite H3. reflexivity.
  - intros H1 H2 H3.
    rewrite (some_includes_miss _ _ H1), (some_includes_miss _ _ H2),
      (some_includes_miss _ _ H3). reflexivity.
Qed.

Lemma classification_by_priority_witness : classifyEmailResponse email_mixed = offer.
Proof.
  apply (proj1 (classification_by_priority email_mixed)).
  exists "offer letter". split; [simpl; tauto|].
  exists "unfortunately late unfortunately we kept you waiting. next steps: your ", ".".
  reflexivity.
Defined.

(* ===================================================================== *)
(** ** The response rate *)
(* ===================================================================== *)

(** C8, as stated, fails: with two submitted Applications, one of them at
    the interview stage and the other still in status submitted, the
    specified rate is one half, but the report prints no rate, because it
    divides by the number of Jobs whose status is "applied", which is zero
    here. *)
Lemma response_rate_not_over_submitted_applications :
  submitted_applications db_jobs_not_marked = 2
  /\ count_applications ApplicationStatus.submitted db_jobs_not_marked = 1
  /\ responses db_jobs_not_marked = 1
  /\ specified_response_rate db_jobs_not_marked = Some (1 # 2)%Q
  /\ count_jobs JobStatus.applied db_jobs_not_marked = 0
  /\ reported_response_rate db_jobs_not_marked = None.
Proof. repeat split. Qed.

(** C8, amended. The reported response rate is the percentage
    100 * (interview + offer + rejected Applications) / (Jobs whose status
    is "applied"), and no rate is reported when no Job has that status. *)
Theorem response_rate_over_applied_jobs (db : Db) :
  reported_response_rate db
  = if count_jobs JobStatus.applied db =? 0 then None
    else Some ((inject_Z (responses db)
                / inject_Z (count_jobs JobStatus.applied db)) * inject_Z 100)%Q.
Proof.
  unfold reported_response_rate, outcome, getStats, query, JobTrack.responseRate.
  cbn [fst appliedJobs interviewsScheduled offersReceived rejections].
  pose proof (count_nonneg (fun r => JobStatus.eqb (job_status r) JobStatus.applied)
                (jobs db)) as P.
  fold (count_jobs JobStatus.applied db) in *.
  destruct (Z.eqb_spec (count_jobs JobStatus.applied db) 0) as [E|E].
  - rewrite E. reflexivity.
  - destruct (Z.ltb_spec 0 (count_jobs JobStatus.applied db)); [reflexivity|lia].
Qed.

(* ===================================================================== *)
(** ** The order of strings *)
(* ===================================================================== *)

Lemma ascii_compare_refl (a : ascii) : Ascii.compare a a = Eq.
Proof. unfold Ascii.compare. apply N.compare_refl. Qed.

Lemma ascii_compare_lt_trans (a b c : ascii) :
  Ascii.compare a b = Lt -> Ascii.compare b c = Lt -> Ascii.compare a c = Lt.
Proof.
  unfold Ascii.compare. rewrite !N.compare_lt_iff. apply N.lt_trans.
Qed.

Lemma string_compare_refl (s : string) : String.compare s s = Eq.
Proof.
  induction s as [|a s IH]; simpl; [reflexivity|].
  rewrite ascii_compare_refl. exact IH.
Qed.

Lemma string_compare_lt_trans (s t u : string) :
  String.compare s t = Lt -> String.compare t u = Lt -> String.compare s u = Lt.
Proof.
  revert t u. induction s as [|a s IH]; intros [|b t] [|c u]; simpl;
    try discriminate; try reflexivity.
  destruct (Ascii.compare a b) eqn:Eab; try discriminate;
    destruct (Ascii.compare b c) eqn:Ebc; try discriminate; intros H1 H2.
  - apply Ascii.compare_eq_iff in Eab, Ebc. subst.
    rewrite ascii_compare_refl. eapply IH; eassumption.
  - apply Ascii.compare_eq_iff in Eab. subst. rewrite Ebc. reflexivity.
  - apply Ascii.compare_eq_iff in Ebc. subst. rewrite Eab. reflexivity.
  - rewrite (ascii_compare_lt_trans _ _ _ Eab Ebc). reflexivity.
Qed.

Lemma string_compare_gt_lt (s t : string) :
  String.compare s t = Gt -> String.compare t s = Lt.
Proof.
  intros H. rewrite String.compare_antisym, H. reflexivity.
Qed.

Lemma string_compare_lt_neq (s t : string) : String.compare s t = Lt -> s <> t.
Proof. intros H ->. rewrite string_compare_refl in H. discriminate. Qed.

Lemma ascending_NoDup {V : Type} (rows : list (string * V)) :
  ascending rows -> NoDup (map fst rows).
Proof.
  induction 1 as [|a rows Hs IH Hf]; simpl; constructor; [|exact IH].
  intros Hin. apply in_map_iff in Hin. destruct Hin as (b & E & Hb).
  rewrite Forall_forall in Hf. specialize (Hf b Hb).
  apply string_compare_lt_neq in Hf. congruence.
Qed.

(** *** GROUP BY *)

Lemma bump_keys (k : string) (rows : list (string * Z)) (x : string * Z) :
  In x (Sqlite.bump k rows) -> fst x = k \/ exists y, In y rows /\ fst x = fst y.
Proof.
  induction rows as [|[k' c] rows IH]; simpl.
  - intros [<-|[]]. left. reflexivity.
  - destruct (String.compare k k') eqn:C; simpl.
    + intros [<-|H]; right; [exists (k', c)|exists x]; simpl; auto.
    + intros [<-|[<-|H]]; [left; reflexivity|right; exists (k', c)|right; exists x];
        simpl; auto.
    + intros [<-|H]; [right; exists (k', c); simpl; auto|].
      destruct (IH H) as [E|(y & Hy & E)]; [left; exact E|].
      right. exists y. auto.
Qed.

Lemma bump_ascending (k : string) (rows : list (string * Z)) :
  ascending rows -> ascending (Sqlite.bump k rows).
Proof.
  unfold ascending. induction 1 as [|[k' c] rows Hs IH Hf]; simpl.
  - constructor; constructor.
  - destruct (String.compare k k') eqn:C.
    + constructor; assumption.
    + constructor; [constructor; assumption|].
      constructor; [exact C|].
      rewrite Forall_forall in *. intros x Hx. simpl.
      eapply string_compare_lt_trans; [exact C|]. apply (Hf x Hx).
    + constructor; [exact IH|].
      rewrite Forall_forall in *. intros x Hx.
      destruct (bump_keys _ _ _ Hx) as [E|(y & Hy & E)]; simpl.
      * rewrite E. apply string_compare_gt_lt. exact C.
      * rewrite E. apply (Hf y Hy).
Qed.

Lemma group_count_ascending (keys : list string) : ascending (Sqlite.group_count keys).
Proof.
  induction keys as [|k keys IH]; simpl; [constructor|].
  apply bump_ascending. exact IH.
Qed.

(** *** The Map *)

Lemma get_cons {V : Type} (k0 : string) (v : V) (m : JsMap.t V) (k : string) :
  JsMap.get ((k0, v) :: m) k = if String.eqb k0 k then Some v else JsMap.get m k.
Proof. unfold JsMap.get. simpl. destruct (String.eqb k0 k); reflexivity. Qed.

Lemma get_set {V : Type} (m : JsMap.t V) (k : string) (v : V) (k' : string) :
  JsMap.get (JsMap.set m k v) k'
  = if String.eqb k k' then Some v else JsMap.get m k'.
Proof.
  induction m as [|[k0 v0] m IH]; simpl.
  - rewrite get_cons. reflexivity.
  - destruct (String.eqb_spec k0 k) as [->|N]; rewrite !get_cons.
    + destruct (String.eqb k k'); reflexivity.
    + rewrite IH. destruct (String.eqb_spec k0 k') as [->|N'].
      * destruct (String.eqb_spec k k'); [congruence|reflexivity].
      * reflexivity.
Qed.

Lemma set_keys_in {V : Type} (m : JsMap.t V) (k : string) (v : V) (x : string) :
  In x (map fst (JsMap.set m k v)) -> x = k \/ In x (map fst m).
Proof.
  induction m as [|[k0 v0] m IH]; simpl.
  - intros [<-|[]]. left. reflexivity.
  - destruct (String.eqb k0 k); simpl; intros [<-|Hx]; auto.
    destruct (IH Hx); auto.
Qed.

Lemma set_keys {V : Type} (m : JsMap.t V) (k : string) (v : V) :
  NoDup (map fst m) -> NoDup (map fst (JsMap.set m k v)).
Proof.
  induction m as [|[k0 v0] m IH]; simpl; intros H.
  - constructor; [intros []|constructor].
  - inversion H as [|? ? Hn Hd]; subst.
    destruct (String.eqb_spec k0 k) as [->|N]; simpl.
    + constructor; assumption.
    + constructor; [|apply IH; exact Hd].
      intros Hin. apply set_keys_in in Hin. destruct Hin; [congruence|contradiction].
Qed.

Lemma get_In {V : Type} (m : JsMap.t V) (k : string) (v : V) :
  JsMap.get m k = Some v -> In (k, v) m.
Proof.
  induction m as [|[k0 v0] m IH]; [discriminate|]. rewrite get_cons.
  destruct (String.eqb_spec k0 k) as [->|N].
  - intros H. injection H as ->. left. reflexivity.
  - intros H. right. apply IH. exact H.
Qed.

Lemma In_get {V : Type} (m : JsMap.t V) (k : string) (v : V) :
  NoDup (map fst m) -> In (k, v) m -> JsMap.get m k = Some v.
Proof.
  induction m as [|[k0 v0] m IH]; simpl; intros Hd Hin; [contradiction|].
  inversion Hd as [|? ? Hn Hd']; subst. rewrite get_cons.
  destruct Hin as [E|Hin].
  - injection E as -> ->. rewrite String.eqb_refl. reflexivity.
  - destruct (String.eqb_spec k0 k) as [->|N]; [|apply IH; assumption].
    exfalso. apply Hn. apply in_map_iff. exists (k, v). auto.
Qed.

Lemma get_below {V : Type} (k : string) (rows : list (string * V)) :
  Forall (fun x => String.compare k (fst x) = Lt) rows -> JsMap.get rows k = None.
Proof.
  induction 1 as [|[k0 v0] rows H Hf IH]; [reflexivity|].
  rewrite get_cons. simpl in H.
  destruct (String.eqb_spec k0 k) as [->|N]; [|exact IH].
  rewrite string_compare_refl in H. discriminate.
Qed.

Lemma bump_get (k : string) (rows : list (string * Z)) (k' : string) :
  ascending rows ->
  JsMap.get (Sqlite.bump k rows) k'
  = if String.eqb k k' then Some (nullish (JsMap.get rows k) 0 + 1)
    else JsMap.get rows k'.
Proof.
  unfold ascending. induction 1 as [|[k0 c] rows Hs IH Hf]; simpl.
  - rewrite get_cons. reflexivity.
  - destruct (String.compare k k0) eqn:C.
    + apply String.compare_eq_iff in C. subst k0. rewrite !get_cons.
      rewrite String.eqb_refl. simpl. destruct (String.eqb k k'); reflexivity.
    + rewrite (get_cons k 1).
      assert (B : JsMap.get ((k0, c) :: rows) k = None).
      { apply get_below. constructor; [exact C|].
        rewrite Forall_forall in *. intros x Hx.
        eapply string_compare_lt_trans; [exact C|]. apply (Hf x Hx). }
      rewrite B. reflexivity.
    + rewrite !get_cons, IH.
      assert (N : k0 <> k).
      { intros ->. rewrite string_compare_refl in C. discriminate. }
      destruct (String.eqb_spec k0 k); [contradiction|].
      destruct (String.eqb_spec k0 k') as [->|N'];
        destruct (String.eqb_spec k k'); try congruence; reflexivity.
Qed.

Lemma occurrences_nonneg k keys : 0 <= occurrences k keys.
Proof. apply count_nonneg. Qed.

Lemma occurrences_cons k k0 keys :
  occurrences k (k0 :: keys)
  = (if String.eqb k k0 then 1 else 0) + occurrences k keys.
Proof.
  unfold occurrences. change (k0 :: keys) with ([k0] ++ keys).
  rewrite count_app. unfold Sqlite.count at 1. simpl.
  destruct (String.eqb k k0); reflexivity.
Qed.

Lemma group_count_get (keys : list string) (k : string) :
  JsMap.get (Sqlite.group_count keys) k
  = if occurrences k keys =? 0 then None else Some (occurrences k keys).
Proof.
  induction keys as [|k0 keys IH]; simpl; [reflexivity|].
  rewrite bump_get by apply group_count_ascending.
  rewrite occurrences_cons, (String.eqb_sym k k0).
  pose proof (occurrences_nonneg k keys) as P.
  destruct (String.eqb_spec k0 k) as [->|N].
  - rewrite IH.
    destruct (Z.eqb_spec (occurrences k keys) 0) as [E|E]; cbn [nullish].
    + rewrite E. reflexivity.
    + destruct (Z.eqb_spec (1 + occurrences k keys) 0); [lia|].
      f_equal. lia.
  - rewrite IH. reflexivity.
Qed.

(** *** The two loops of getTimeline *)

Lemma add_jobs_rows_get (rows : list (string * Z)) :
  forall (acc : JsMap.t TimelineEntry) (k : string),
  NoDup (map fst rows) ->
  JsMap.get (fold_left add_jobs_row rows acc) k
  = match JsMap.get rows k with
    | Some c => Some (mkTimelineEntry k c 0 0)
    | None => JsMap.get acc k
    end.
Proof.
  induction rows as [|[k0 c0] rows IH]; intros acc k Hd; simpl; [reflexivity|].
  inversion Hd as [|? ? Hn Hd']; subst.
  rewrite (IH _ _ Hd'). unfold add_jobs_row. simpl. rewrite get_set, get_cons.
  destruct (String.eqb_spec k0 k) as [->|N]; [|reflexivity].
  destruct (JsMap.get rows k) eqn:G; [|reflexivity].
  exfalso. apply Hn. apply get_In in G. apply in_map_iff. exists (k, z). auto.
Qed.

Lemma add_apps_rows_get (rows : list (string * Z)) :
  forall (acc : JsMap.t TimelineEntry) (k : string),
  NoDup (map fst rows) ->
  JsMap.get (fold_left add_apps_row rows acc) k
  = match JsMap.get rows k with
    | Some c =>
        Some match JsMap.get acc k with
             | Some e => mkTimelineEntry (date e) (jobsDiscovered e) c
                           (responsesReceived e)
             | None => mkTimelineEntry k 0 c 0
             end
    | None => JsMap.get acc k
    end.
Proof.
  induction rows as [|[k0 c0] rows IH]; intros acc k Hd; simpl; [reflexivity|].
  inversion Hd as [|? ? Hn Hd']; subst.
  rewrite (IH _ _ Hd'), get_cons.
  assert (S : JsMap.get (add_apps_row acc (k0, c0)) k
              = if String.eqb k0 k
                then Some match JsMap.get acc k0 with
                          | Some e => mkTimelineEntry (date e) (jobsDiscovered e) c0
                                        (responsesReceived e)
                          | None => mkTimelineEntry k0 0 c0 0
                          end
                else JsMap.get acc k).
  { unfold add_apps_row. simpl.
    destruct (JsMap.get acc k0); rewrite get_set; reflexivity. }
  rewrite S.
  destruct (String.eqb_spec k0 k) as [->|N]; [|reflexivity].
  destruct (JsMap.get rows k) eqn:G; [|reflexivity].
  exfalso. apply Hn. apply get_In in G. apply in_map_iff. exists (k, z). auto.
Qed.

Lemma add_jobs_rows_keys (rows : list (string * Z)) :
  forall acc : JsMap.t TimelineEntry,
  NoDup (map fst acc) -> NoDup (map fst (fold_left add_jobs_row rows acc)).
Proof.
  induction rows as [|r rows IH]; intros acc H; simpl; [exact H|].
  apply IH. unfold add_jobs_row. apply set_keys. exact H.
Qed.

Lemma add_apps_rows_keys (rows : list (string * Z)) :
  forall acc : JsMap.t TimelineEntry,
  NoDup (map fst acc) -> NoDup (map fst (fold_left add_apps_row rows acc)).
Proof.
  induction rows as [|r rows IH]; intros acc H; simpl; [exact H|].
  apply IH. unfold add_apps_row.
  destruct (JsMap.get acc (fst r)); apply set_keys; exact H.
Qed.

(** *** The two GROUP BY queries *)

Lemma jobsPerDay_get (startTime : Z) (db : Db) (d : string) :
  JsMap.get (jobsPerDay startTime db) d
  = if jobs_on startTime db d =? 0 then None else Some (jobs_on startTime db d).
Proof.
  unfold jobsPerDay. rewrite group_count_get.
  assert (E : occurrences d
                (map (fun r => Sqlite.date_of_millis (job_discovered_at r))
                   (filter (fun r => startTime <=? job_discovered_at r) (jobs db)))
              = jobs_on startTime db d).
  { unfold jobs_on, occurrences, Sqlite.count. f_equal.
    induction (jobs db) as [|r rows IH]; simpl; [reflexivity|].
    destruct (startTime <=? job_discovered_at r); simpl; [|exact IH].
    destruct (String.eqb d _); simpl; rewrite IH; reflexivity. }
  rewrite E. reflexivity.
Qed.

Lemma appsPerDay_get (startTime : Z) (db : Db) (d : string) :
  JsMap.get (appsPerDay startTime db) d
  = if apps_on startTime db d =? 0 then None else Some (apps_on startTime db d).
Proof.
  unfold appsPerDay. rewrite group_count_get.
  assert (E : occurrences d
                (map Sqlite.date_of_millis (applied_stamps startTime (applications db)))
              = apps_on startTime db d).
  { unfold apps_on, occurrences, Sqlite.count. f_equal.
    induction (applications db) as [|r rows IH]; simpl; [reflexivity|].
    unfold applied_since. destruct (app_applied_at r) as [t|]; [|exact IH].
    destruct (startTime <=? t); simpl; [|exact IH].
    destruct (String.eqb d _); simpl; rewrite IH; reflexivity. }
  rewrite E. reflexivity.
Qed.

Lemma timeline_map_get (startTime : Z) (db : Db) (d : string) :
  JsMap.get (timeline_map startTime db) d
  = if (jobs_on startTime db d =? 0) && (apps_on startTime db d =? 0) then None
    else Some (entry_on startTime db d).
Proof.
  unfold timeline_map, entry_on.
  rewrite add_apps_rows_get
    by (apply ascending_NoDup; apply group_count_ascending).
  rewrite add_jobs_rows_get
    by (apply ascending_NoDup; apply group_count_ascending).
  rewrite appsPerDay_get, jobsPerDay_get.
  destruct (Z.eqb_spec (apps_on startTime db d) 0) as [A|A];
    destruct (Z.eqb_spec (jobs_on startTime db d) 0) as [J|J]; simpl;
    rewrite ?A, ?J; reflexivity.
Qed.

Lemma timeline_map_keys (startTime : Z) (db : Db) :
  NoDup (map fst (timeline_map startTime db)).
Proof.
  apply add_apps_rows_keys, add_jobs_rows_keys. constructor.
Qed.

Lemma timeline_map_dates (startTime : Z) (db : Db) :
  map date (JsMap.values (timeline_map startTime db))
  = map fst (timeline_map startTime db).
Proof.
  unfold JsMap.values. rewrite map_map. apply map_ext_in.
  intros [k e] Hin. simpl.
  apply In_get in Hin; [|apply timeline_map_keys].
  rewrite timeline_map_get in Hin.
  destruct (_ && _); [discriminate|]. injection Hin as <-. reflexivity.
Qed.

(** *** Sorting the entries *)

Lemma insert_sorted {A : Type} (le : A -> A -> bool) (x : A) (l : list A) :
  (forall a b, le a b = false -> le b a = true) ->
  (forall a b c, le a b = true -> le b c = true -> le a c = true) ->
  StronglySorted (fun a b => le a b = true) l ->
  StronglySorted (fun a b => le a b = true) (Js.insert le x l).
Proof.
  intros Tot Tr. induction 1 as [|y l Hs IH Hf]; simpl.
  - constructor; constructor.
  - destruct (le x y) eqn:L.
    + constructor; [constructor; assumption|].
      constructor; [exact L|].
      rewrite Forall_forall in *. intros z Hz. apply (Tr x y z L (Hf z Hz)).
    + constructor; [exact IH|].
      rewrite Forall_forall in *. intros z Hz.
      apply (Permutation_in _ (Permutation_sym (insert_perm le x l))) in Hz.
      destruct Hz as [<-|Hz]; [apply Tot; exact L|apply Hf; exact Hz].
Qed.

Lemma sort_sorted {A : Type} (le : A -> A -> bool) (l : list A) :
  (forall a b, le a b = false -> le b a = true) ->
  (forall a b c, le a b = true -> le b c = true -> le a c = true) ->
  StronglySorted (fun a b => le a b = true) (Js.sort le l).
Proof.
  intros Tot Tr. induction l as [|x l IH]; simpl; [constructor|].
  apply insert_sorted; assumption.
Qed.

Lemma by_date_total (a b : TimelineEntry) : by_date a b = false -> by_date b a = true.
Proof.
  unfold by_date, localeCompare. rewrite (String.compare_antisym (date a) (date b)).
  destruct (String.compare (date b) (date a)); simpl; congruence.
Qed.

Lemma by_date_trans (a b c : TimelineEntry) :
  by_date a b = true -> by_date b c = true -> by_date a c = true.
Proof.
  unfold by_date, localeCompare.
  destruct (String.compare (date a) (date b)) eqn:Eab; try discriminate;
    destruct (String.compare (date b) (date c)) eqn:Ebc; try discriminate; intros _ _.
  - apply String.compare_eq_iff in Eab. rewrite Eab, Ebc. reflexivity.
  - apply String.compare_eq_iff in Eab. rewrite Eab, Ebc. reflexivity.
  - apply String.compare_eq_iff in Ebc. rewrite <- Ebc, Eab. reflexivity.
  - rewrite (string_compare_lt_trans _ _ _ Eab Ebc). reflexivity.
Qed.

Lemma sorted_distinct_ascending (tl : list TimelineEntry) :
  StronglySorted (fun a b => by_date a b = true) tl ->
  NoDup (map date tl) -> ascending_dates tl.
Proof.
  unfold ascending_dates. induction 1 as [|a tl Hs IH Hf]; simpl; intros Hd.
  - constructor.
  - inversion Hd as [|? ? Hn Hd']; subst. constructor; [apply IH; exact Hd'|].
    rewrite Forall_forall in *. intros b Hb. specialize (Hf b Hb).
    unfold by_date, localeCompare in Hf.
    destruct (String.compare (date a) (date b)) eqn:C; try discriminate; [|reflexivity].
    exfalso. apply Hn. apply String.compare_eq_iff in C. rewrite C.
    apply in_map. exact Hb.
Qed.

Lemma cutoff_eq (days : option Z) (now : Z) :
  now - nullish days 30 * 24 * 60 * 60 * 1000 = cutoff days now.
Proof. unfold cutoff. lia. Qed.

(** C7. [getTimeline] returns, for the window that starts [days] days
    (30 by default) before now, exactly one entry for every UTC date on
    which a job was discovered or an application was submitted (its
    [applied_at] is set) within the window; the entry carries the number of
    jobs discovered that day, the number of applications submitted that day
    (each 0 when the other count alone put the date in the timeline), and 0
    responses; and the entries stand in strictly ascending order of their
    date strings. *)
Theorem timeline_by_day (days : option Z) (now : Z) (db : Db) :
  exists tl,
    getTimeline days now db = (Ok tl, db)
    /\ ascending_dates tl
    /\ forall e,
         In e tl <->
         e = entry_on (cutoff days now) db (date e)
         /\ (0 < jobs_on (cutoff days now) db (date e)
             \/ 0 < apps_on (cutoff days now) db (date e)).
Proof.
  exists (Js.sort by_date (JsMap.values (timeline_map (cutoff days now) db))).
  split; [|split].
  - unfold getTimeline, query. rewrite cutoff_eq. reflexivity.
  - apply sorted_distinct_ascending.
    + apply sort_sorted; [exact by_date_total|exact by_date_trans].
    + apply (Permutation_NoDup (Permutation_map date (sort_perm by_date _))).
      rewrite timeline_map_dates. apply timeline_map_keys.
  - intros e.
    pose proof (count_nonneg
                  (fun r => (cutoff days now <=? job_discovered_at r)
                            && String.eqb (date e)
                                 (Sqlite.date_of_millis (job_discovered_at r)))
                  (jobs db)) as PJ.
    fold (jobs_on (cutoff days now) db (date e)) in PJ.
    pose proof (count_nonneg
                  (fun r => match app_applied_at r with
                            | Some t => (cutoff days now <=? t)
                                        && String.eqb (date e) (Sqlite.date_of_millis t)
                            | None => false
                            end)
                  (applications db)) as PA.
    fold (apps_on (cutoff days now) db (date e)) in PA.
    split.
    + intros H. apply sort_In in H. unfold JsMap.values in H.
      apply in_map_iff in H. destruct H as ([k e'] & E & Hin). simpl in E. subst e'.
      apply In_get in Hin; [|apply timeline_map_keys].
      rewrite timeline_map_get in Hin.
      destruct (Z.eqb_spec (jobs_on (cutoff days now) db k) 0) as [J|J];
        destruct (Z.eqb_spec (apps_on (cutoff days now) db k) 0) as [A|A];
        simpl in Hin; try discriminate; injection Hin as <-; simpl date in *;
        (split; [reflexivity|lia]).
    + intros [E P]. apply In_sort. unfold JsMap.values.
      apply in_map_iff. exists (date e, e). split; [reflexivity|].
      apply get_In. rewrite timeline_map_get, <- E.
      destruct (Z.eqb_spec (jobs_on (cutoff days now) db (date e)) 0) as [J|J];
        destruct (Z.eqb_spec (apps_on (cutoff days now) db (date e)) 0) as [A|A];
        simpl; try reflexivity. lia.
Qed.

(** The example of the specification: three jobs on one day and two
    submitted applications on a later day give two entries, each with the
    other counter at 0, the earlier date first. *)
Example timeline_two_days :
  getTimeline None now_two_days db_two_days
  = (Ok [mkTimelineEntry "2023-11-14" 3 0 0; mkTimelineEntry "2023-11-16" 0 2 0],
     db_two_days).
Proof. reflexivity. Qed.

(* ===================================================================== *)
(** ** Matching *)
(* ===================================================================== *)

Lemma is_space_lower (c : ascii) : Js.is_space (Js.lower_char c) = Js.is_space c.
Proof. destruct c as [[] [] [] [] [] [] [] []]; reflexivity. Qed.

Lemma eqb_at_lower (c : ascii) : Ascii.eqb (Js.lower_char c) "@" = Ascii.eqb c "@".
Proof. destruct c as [[] [] [] [] [] [] [] []]; reflexivity. Qed.

Lemma eqb_dot_lower (c : ascii) : Ascii.eqb (Js.lower_char c) "." = Ascii.eqb c ".".
Proof. destruct c as [[] [] [] [] [] [] [] []]; reflexivity. Qed.

Lemma length_lower (s : string) : Js.length (Js.toLowerCase s) = Js.length s.
Proof.
  unfold Js.length. f_equal. induction s as [|c s IH]; simpl; congruence.
Qed.

Lemma split_lower (sep : ascii) (s : string) :
  (forall c, Ascii.eqb (Js.lower_char c) sep = Ascii.eqb c sep) ->
  Js.split sep (Js.toLowerCase s) = map Js.toLowerCase (Js.split sep s).
Proof.
  intros Hsep. induction s as [|c s IH]; simpl; [reflexivity|].
  rewrite Hsep, IH. destruct (Ascii.eqb c sep); [reflexivity|].
  destruct (Js.split sep s); reflexivity.
Qed.

Lemma split_ws_lower (s : string) :
  Js.split_ws (Js.toLowerCase s) = map Js.toLowerCase (Js.split_ws s).
Proof.
  induction s as [|c s IH]; [reflexivity|].
  cbn [Js.toLowerCase Js.split_ws]. rewrite is_space_lower, IH.
  destruct (Js.is_space c).
  - destruct s as [|c' s]; [reflexivity|].
    cbn [Js.toLowerCase]. rewrite is_space_lower.
    destruct (Js.is_space c'); reflexivity.
  - destruct (Js.split_ws s); reflexivity.
Qed.

Lemma domain_fragment_lower (sender : string) :
  match nth_error (Js.split "@" (Js.toLowerCase sender)) 1 with
  | Some d => nth_error (Js.split "." d) 0
  | None => None
  end = option_map Js.toLowerCase (domain_fragment sender).
Proof.
  unfold domain_fragment.
  rewrite (split_lower "@" sender eqb_at_lower), nth_error_map.
  destruct (nth_error (Js.split "@" sender) 1) as [d|]; [|reflexivity].
  cbn [option_map]. rewrite (split_lower "." d eqb_dot_lower), nth_error_map.
  reflexivity.
Qed.

Lemma includes_ci (s w : string) :
  Js.includes (Js.toLowerCase s) (Js.toLowerCase w) = true <-> ci_occurs w s.
Proof. apply includes_spec. Qed.

(** The matching test of the loop is the one the specification words. *)
Lemma company_matches_spec (company : string) (email : EmailData) :
  company_matches company email = true <-> company_word_found company email.
Proof.
  unfold company_matches, company_word_found, Js.some.
  rewrite domain_fragment_lower, split_ws_lower.
  rewrite orb_true_iff, !existsb_exists. split.
  - intros [(w' & Hin & H) | (w' & Hin & H)];
      apply in_map_iff in Hin; destruct Hin as (w & <- & Hin);
      apply andb_true_iff in H; destruct H as [L H];
      rewrite length_lower in L; apply Z.ltb_lt in L;
      exists w; (split; [exact Hin|]); (split; [exact L|]).
    + apply orb_true_iff in H. destruct H as [H|H].
      * right. left. apply includes_ci. exact H.
      * left. destruct (domain_fragment (from email)) as [d|]; [|discriminate].
        exists d. split; [reflexivity|]. apply includes_ci. exact H.
    + right. right. apply includes_ci. exact H.
  - intros (w & Hin & L & H).
    assert (Hin' : In (Js.toLowerCase w) (map Js.toLowerCase (Js.split_ws company)))
      by (apply in_map; exact Hin).
    assert (L' : (3 <? Js.length (Js.toLowerCase w)) = true)
      by (rewrite length_lower; apply Z.ltb_lt; exact L).
    destruct H as [(d & E & H) | [H|H]].
    + left. exists (Js.toLowerCase w). split; [exact Hin'|].
      rewrite L', E. simpl. apply orb_true_iff. right. apply includes_ci. exact H.
    + left. exists (Js.toLowerCase w). split; [exact Hin'|].
      rewrite L'. simpl. apply orb_true_iff. left. apply includes_ci. exact H.
    + right. exists (Js.toLowerCase w). split; [exact Hin'|].
      rewrite L'. simpl. apply includes_ci. exact H.
Qed.

Lemma matches_spec (db : Db) (email : EmailData) (a : ApplicationRow) :
  matches db email a = true <->
  exists job,
    find (fun r => String.eqb (job_id r) (app_job_id a)) (jobs db) = Some job
    /\ company_word_found (job_company job) email.
Proof.
  unfold matches.
  destruct (find (fun r => String.eqb (job_id r) (app_job_id a)) (jobs db)) as [job|].
  - rewrite company_matches_spec. split.
    + intros H. exists job. split; [reflexivity|exact H].
    + intros (job' & E & H). injection E as <-. exact H.
  - split; [discriminate|]. intros (job & E & _). discriminate.
Qed.

Lemma is_open_spec (a : ApplicationRow) :
  is_open a = true <->
  app_status a = ApplicationStatus.submitted \/ app_status a = ApplicationStatus.interview.
Proof.
  unfold is_open. rewrite orb_true_iff.
  split; intros [H|H]; [left|right|left|right];
    destruct (status_eqb_spec (app_status a) ApplicationStatus.submitted);
    destruct (status_eqb_spec (app_status a) ApplicationStatus.interview);
    congruence.
Qed.

Lemma listed_complete (st : ApplicationStatus.t) (db : Db) (a : ApplicationRow) :
  Sqlite.count (fun r => ApplicationStatus.eqb (app_status r) st) (applications db)
    <= 100 ->
  In a (applications db) -> app_status a = st -> In a (listed st db).
Proof.
  intros L Hin Hs. rewrite listed_eq.
  rewrite firstn_all2.
  - apply In_sort. apply filter_In. split; [exact Hin|].
    rewrite Hs. apply status_eqb_refl.
  - rewrite <- (Permutation_length (sort_perm by_updated_at_desc _)).
    unfold Sqlite.count in L. lia.
Qed.

(** What holds of matching: every candidate is a stored Application that
    is open; as long as no more than 100 Applications are in status
    submitted and no more than 100 in status interview, every open
    Application is a candidate; the loop returns the first candidate, in
    iteration order, whose Job is stored and has a company word in the
    sender or in the subject; and when there is none, processing the email
    leaves the whole database as it was. *)
Lemma matching_within_limit (n : Notifications) (email : EmailData) (env : Env) (db : Db) :
  (forall a, In a (candidates db) -> In a (applications db) /\ is_open a = true)
  /\ (count_applications ApplicationStatus.submitted db <= 100 ->
      count_applications ApplicationStatus.interview db <= 100 ->
      forall a, In a (applications db) -> is_open a = true -> In a (candidates db))
  /\ matchEmailToApplication email db
     = (Ok (option_map matched_of (find (matches db email) (candidates db))), db)
  /\ (find (matches db email) (candidates db) = None ->
      processEmailNotification n email env db = (Ok tt, db)).
Proof.
  split; [|split; [|split]].
  - intros a Hin. unfold candidates in Hin. apply in_app_or in Hin.
    destruct Hin as [Hin|Hin]; apply listed_In in Hin; destruct Hin as [H1 H2];
      (split; [exact H1|]); apply is_open_spec; auto.
  - intros L1 L2 a Hin Ho. apply is_open_spec in Ho. unfold candidates.
    apply in_or_app. destruct Ho as [Ho|Ho]; [left|right];
      apply listed_complete; assumption.
  - apply matchEmailToApplication_reads.
  - intros H. unfold processEmailNotification, bind.
    rewrite matchEmailToApplication_reads. unfold first_match. rewrite H.
    reflexivity.
Qed.

(** C3 at a store with 101 submitted Applications.  The Application to Acme
    Corp is stored, is in status submitted, and its company word "acme"
    occurs in the sender; but it is the least recently updated of the 101,
    the listing stops after 100 rows, and so the email is matched to
    nothing and dropped. *)
Theorem matching_misses_application_beyond_the_listing :
  In (crowded_app 0) (applications db_crowded)
  /\ app_status (crowded_app 0) = ApplicationStatus.submitted
  /\ matches db_crowded email_next_steps (crowded_app 0) = true
  /\ count_applications ApplicationStatus.submitted db_crowded = 101
  /\ ~ In (crowded_app 0) (candidates db_crowded)
  /\ outcome (matchEmailToApplication email_next_steps) db_crowded = Ok None
  /\ db_after (processEmailNotification alerts_on email_next_steps env_example)
       db_crowded = db_crowded.
Proof.
  assert (C : find (matches db_crowded email_next_steps) (candidates db_crowded) = None)
    by (vm_compute; reflexivity).
  split; [left; reflexivity|].
  split; [reflexivity|].
  split; [vm_compute; reflexivity|].
  split; [vm_compute; reflexivity|].
  split.
  - intros Hin.
    assert (E : existsb (fun a => String.eqb (app_id a) (app_id (crowded_app 0)))
                  (candidates db_crowded) = false) by (vm_compute; reflexivity).
    assert (T : existsb (fun a => String.eqb (app_id a) (app_id (crowded_app 0)))
                  (candidates db_crowded) = true).
    { apply existsb_exists. exists (crowded_app 0). split; [exact Hin|].
      apply String.eqb_refl. }
    congruence.
  - destruct (matching_within_limit alerts_on email_next_steps env_example db_crowded)
      as (_ & _ & M & P).
    unfold outcome, db_after. rewrite M, (P C), C. split; reflexivity.
Qed.

(** The end-to-end example of the specification: the email from
    hr@acmecorp.com matches the Application to Acme Corp (the word "acme"
    occurs in the domain fragment "acmecorp"), is classified as an
    interview by "next steps", moves the Application from submitted to
    interview and creates one thread with message count 1. *)
Example end_to_end_match :
  let db' := db_after (processEmailNotification alerts_on email_next_steps env_example)
               db_acme in
  domain_fragment (from email_next_steps) = Some "acmecorp"
  /\ classifyEmailResponse email_next_steps = interview
  /\ status_of db' "a1" = Some ApplicationStatus.interview
  /\ application_history db'
     = [mkApplicationHistoryRow "h1" "a1" (Some ApplicationStatus.submitted)
          ApplicationStatus.interview 100
          (Some "Email response classified as: interview")]
  /\ email_threads db'
     = [mkEmailThreadRow "t1" "a1" (Some "thread-1")
          "Next steps for your application" "hr@acmecorp.com" 101
          EmailThreadStatus.active 1 None].
Proof. repeat split. Qed.

(* ===================================================================== *)
(** ** Further properties of the store *)
(* ===================================================================== *)

Lemma find_app_fresh {R : Type} (p : R -> bool) (rows : list R) (x : R) :
  find p rows = None -> p x = true -> find p (rows ++ [x]) = Some x.
Proof.
  induction rows as [|r rows IH]; simpl; intros F Hx.
  - rewrite Hx. reflexivity.
  - destruct (p r); [discriminate|]. apply IH; assumption.
Qed.

Lemma find_app_other {R : Type} (p : R -> bool) (rows : list R) (x : R) :
  p x = false -> find p (rows ++ [x]) = find p rows.
Proof.
  intros Hx. induction rows as [|r rows IH]; simpl.
  - rewrite Hx. reflexivity.
  - destruct (p r); [reflexivity|exact IH].
Qed.

Lemma JobSource_eqb_refl (s : JobSource) : JobSource_eqb s s = true.
Proof. destruct s; reflexivity. Qed.

Lemma JobSource_eqb_eq (a b : JobSource) : JobSource_eqb a b = true <-> a = b.
Proof. destruct a, b; simpl; split; congruence. Qed.



(** X2. An Application can be created for a stored job only.  Under a new
    id and for a job that is stored, the new Application is stored with
    status "pending" and no [applied_at]; it is then what [getApplication]
    returns for its id, and, when the job had no Application yet, what
    [getApplicationByJobId] returns for the job; the Applications stored
    before are as they were.  For a job that is not stored the foreign key
    fails: the call raises and nothing is stored. *)
Theorem createApplication_then_lookup
    (params : ApplicationParams) (now : Z) (id : string) (db : Db) :
  ~ In id (map app_id (applications db)) ->
  (In (p_jobId params) (map job_id (jobs db)) ->
   exists row,
     createApplication params now id db
       = (Ok row, set_applications db (applications db ++ [row]))
     /\ app_id row = id /\ app_job_id row = p_jobId params
     /\ app_status row = ApplicationStatus.pending /\ app_applied_at row = None
     /\ outcome (getApplication id) (set_applications db (applications db ++ [row]))
        = Ok (Some row)
     /\ (outcome (getApplicationByJobId (p_jobId params)) db = Ok None ->
         outcome (getApplicationByJobId (p_jobId params))
           (set_applications db (applications db ++ [row])) = Ok (Some row))
     /\ (forall id', id' <> id ->
           outcome (getApplication id') (set_applications db (applications db ++ [row]))
           = outcome (getApplication id') db))
  /\ (~ In (p_jobId params) (map job_id (jobs db)) ->
      createApplication params now id db = (Throw ConstraintForeignKey, db)).
Proof.
  intros Fresh. split.
  - intros Stored. eexists.
    split; [|split; [|split; [|split; [|split; [|split; [|split]]]]]].
    + unfold createApplication. store_unfold. cbn [app_id app_job_id].
      rewrite (existsb_fresh app_id id _ Fresh), (existsb_stored job_id _ _ Stored).
      reflexivity.
    + reflexivity.
    + reflexivity.
    + reflexivity.
    + reflexivity.
    + unfold outcome, getApplication, query. simpl. f_equal.
      apply find_app_fresh; [|simpl; apply String.eqb_refl].
      apply find_none_of_not_in. exact Fresh.
    + intros H. unfold outcome, getApplicationByJobId, query in *. simpl in *.
      injection H as H. f_equal. apply find_app_fresh; [exact H|].
      simpl. apply String.eqb_refl.
    + intros id' N. unfold outcome, getApplication, query. simpl. f_equal.
      apply find_app_other. simpl. apply String.eqb_neq. congruence.
  - intros Missing. unfold createApplication. store_unfold. cbn [app_id app_job_id].
    rewrite (existsb_fresh app_id id _ Fresh), (existsb_fresh job_id _ _ Missing).
    reflexivity.
Qed.

Lemma createApplication_then_lookup_witness :
  (exists row,
      createApplication (mkApplicationParams "j1" None None None None) 50 "a7"
        db_to_apply
      = (Ok row, set_applications db_to_apply (applications db_to_apply ++ [row]))
      /\ app_status row = ApplicationStatus.pending /\ app_applied_at row = None)
  /\ createApplication (mkApplicationParams "j2" None None None None) 50 "a7"
       db_to_apply
     = (Throw ConstraintForeignKey, db_to_apply).
Proof.
  split.
  - destruct (createApplication_then_lookup (mkApplicationParams "j1" None None None None)
                50 "a7" db_to_apply) as [S _]; [intros []|].
    destruct S as (row & E & _ & _ & S & A & _); [left; reflexivity|].
    exists row. split; [exact E|]. split; [exact S|exact A].
  - destruct (createApplication_then_lookup (mkApplicationParams "j2" None None None None)
                50 "a7" db_to_apply) as [_ M]; [intros []|].
    apply M. simpl. intros [H|[]]. discriminate H.
Defined.

(** *** Listings *)

Lemma read_order_In (params : ListJobsParams) (rows : list JobRow) (r : JobRow) :
  In r (read_order params rows) <-> In r rows.
Proof.
  unfold read_order. destruct (lj_status params), (lj_source params);
    try reflexivity. symmetry. apply in_rev.
Qed.

Lemma skipn_In {A : Type} (n : nat) (l : list A) (x : A) : In x (skipn n l) -> In x l.
Proof.
  intros H. rewrite <- (firstn_skipn n l). apply in_or_app. right. exact H.
Qed.

Lemma sql_limit_In {R : Type} (limit offset : Z) (rows : list R) (x : R) :
  In x (sql_limit limit offset rows) -> In x rows.
Proof.
  unfold sql_limit. destruct (limit <? 0); intros H.
  - eapply skipn_In; exact H.
  - eapply skipn_In. eapply firstn_In. exact H.
Qed.

Lemma sql_limit_length {R : Type} (limit offset : Z) (rows : list R) :
  0 <= limit -> Z.of_nat (List.length (sql_limit limit offset rows)) <= limit.
Proof.
  intros H. unfold sql_limit. destruct (Z.ltb_spec limit 0); [lia|].
  pose proof (firstn_le_length (Z.to_nat limit) (skipn (Z.to_nat offset) rows)). lia.
Qed.

Lemma StronglySorted_firstn {A : Type} (R : A -> A -> Prop) (n : nat) (l : list A) :
  StronglySorted R l -> StronglySorted R (firstn n l).
Proof.
  intros H. revert n. induction H as [|a l Hs IH Hf]; intros [|n]; simpl;
    try constructor.
  - apply IH.
  - rewrite Forall_forall in *. intros x Hx. apply Hf. eapply firstn_In. exact Hx.
Qed.

Lemma StronglySorted_skipn {A : Type} (R : A -> A -> Prop) (n : nat) (l : list A) :
  StronglySorted R l -> StronglySorted R (skipn n l).
Proof.
  intros H. revert n. induction H as [|a l Hs IH Hf]; intros [|n]; simpl.
  - constructor.
  - constructor.
  - constructor; assumption.
  - apply IH.
Qed.

Lemma sql_limit_sorted {R : Type} (Rel : R -> R -> Prop) (limit offset : Z)
    (rows : list R) :
  StronglySorted Rel rows -> StronglySorted Rel (sql_limit limit offset rows).
Proof.
  intros H. unfold sql_limit. destruct (limit <? 0).
  - apply StronglySorted_skipn. exact H.
  - apply StronglySorted_firstn, StronglySorted_skipn. exact H.
Qed.

Lemma StronglySorted_weaken {A : Type} (R S : A -> A -> Prop) (l : list A) :
  (forall a b, R a b -> S a b) -> StronglySorted R l -> StronglySorted S l.
Proof.
  intros H. induction 1 as [|a l Hs IH Hf]; constructor; [exact IH|].
  rewrite Forall_forall in *. intros x Hx. apply H, Hf, Hx.
Qed.

Lemma sorted_desc {R : Type} (f : R -> Z) (rows : list R) :
  StronglySorted (fun a b => f b <= f a) (Js.sort (fun a b => f b <=? f a) rows).
Proof.
  apply StronglySorted_weaken with (R := fun a b => (f b <=? f a) = true).
  - intros a b H. apply Z.leb_le. exact H.
  - apply sort_sorted.
    + intros a b H. apply Z.leb_gt in H. apply Z.leb_le. lia.
    + intros a b c H1 H2. apply Z.leb_le in H1, H2. apply Z.leb_le. lia.
Qed.

(** X3. [listApplications] returns stored Applications only, each with the
    requested status when one is given, never more of them than the limit
    (100 when none is given; a negative limit is no limit), the most
    recently updated first.  [listJobs] does the same for jobs: stored jobs
    that satisfy every given filter, never more than the limit, the most
    recently discovered first. *)
Theorem listings_are_sound_bounded_and_newest_first
    (params : ListParams) (jparams : ListJobsParams) (db : Db) :
  (exists rows,
      listApplications params db = (Ok rows, db)
      /\ Forall (fun r => In r (applications db)
                          /\ match l_status params with
                             | Some st => app_status r = st
                             | None => True
                             end) rows
      /\ (nullish (l_limit params) 100 < 0
          \/ Z.of_nat (List.length rows) <= nullish (l_limit params) 100)
      /\ StronglySorted (fun a b => app_updated_at b <= app_updated_at a) rows)
  /\ (exists rows,
      listJobs jparams db = (Ok rows, db)
      /\ Forall (fun r => In r (jobs db) /\ job_selected jparams r = true) rows
      /\ (nullish (lj_limit jparams) 100 < 0
          \/ Z.of_nat (List.length rows) <= nullish (lj_limit jparams) 100)
      /\ StronglySorted (fun a b => job_discovered_at b <= job_discovered_at a) rows).
Proof.
  split.
  - eexists. split; [reflexivity|]. split; [|split].
    + apply Forall_forall. intros r H. apply sql_limit_In, sort_In in H.
      destruct (l_status params) as [st|].
      * apply filter_In in H. destruct H as [H1 H2]. split; [exact H1|].
        destruct (status_eqb_spec (app_status r) st); [assumption|discriminate].
      * split; [exact H|exact I].
    + destruct (Z.ltb_spec (nullish (l_limit params) 100) 0); [left; assumption|].
      right. apply sql_limit_length. assumption.
    + apply sql_limit_sorted. apply (sorted_desc app_updated_at).
  - eexists. split; [reflexivity|]. split; [|split].
    + apply Forall_forall. intros r H.
      apply sql_limit_In, sort_In, read_order_In, filter_In in H. exact H.
    + destruct (Z.ltb_spec (nullish (lj_limit jparams) 100) 0); [left; assumption|].
      right. apply sql_limit_length. assumption.
    + apply sql_limit_sorted. apply (sorted_desc job_discovered_at).
Qed.

Lemma firstn_add_skipn {A : Type} (a b : nat) (l : list A) :
  firstn a l ++ firstn b (skipn a l) = firstn (a + b) l.
Proof.
  revert l. induction a as [|a IH]; intros l; simpl; [reflexivity|].
  destruct l as [|x l]; simpl.
  - rewrite firstn_nil. reflexivity.
  - rewrite IH. reflexivity.
Qed.

Lemma sql_limit_pages {R : Type} (limit more offset : Z) (rows : list R) :
  0 <= limit -> 0 <= more -> 0 <= offset ->
  sql_limit limit offset rows ++ sql_limit more (offset + limit) rows
  = sql_limit (limit + more) offset rows.
Proof.
  intros H1 H2 H3. unfold sql_limit.
  destruct (Z.ltb_spec limit 0); [lia|].
  destruct (Z.ltb_spec more 0); [lia|].
  destruct (Z.ltb_spec (limit + more) 0); [lia|].
  rewrite (Z2Nat.inj_add offset limit), (Z2Nat.inj_add limit more) by assumption.
  rewrite Nat.add_comm, <- skipn_skipn. apply firstn_add_skipn.
Qed.

(** X4. Pages tile a listing: for a non-negative limit and offset, the page
    of [limit] rows at [offset] followed by the page of [more] rows at
    [offset + limit] is the page of [limit + more] rows at [offset], for
    Applications and for jobs alike, as long as the store is not written in
    between. *)
Theorem listing_pages_tile
    (st : option ApplicationStatus.t) (jparams : ListJobsParams)
    (limit more offset : Z) (db : Db) :
  0 <= limit -> 0 <= more -> 0 <= offset ->
  (exists page1 page2 both,
      listApplications (mkListParams st (Some limit) (Some offset)) db = (Ok page1, db)
      /\ listApplications (mkListParams st (Some more) (Some (offset + limit))) db
         = (Ok page2, db)
      /\ listApplications (mkListParams st (Some (limit + more)) (Some offset)) db
         = (Ok both, db)
      /\ page1 ++ page2 = both)
  /\ (exists page1 page2 both,
      listJobs (mkListJobsParams (lj_status jparams) (lj_source jparams)
                  (lj_company jparams) (Some limit) (Some offset)) db = (Ok page1, db)
      /\ listJobs (mkListJobsParams (lj_status jparams) (lj_source jparams)
                     (lj_company jparams) (Some more) (Some (offset + limit))) db
         = (Ok page2, db)
      /\ listJobs (mkListJobsParams (lj_status jparams) (lj_source jparams)
                     (lj_company jparams) (Some (limit + more)) (Some offset)) db
         = (Ok both, db)
      /\ page1 ++ page2 = both).
Proof.
  intros H1 H2 H3. split.
  - do 3 eexists. split; [reflexivity|]. split; [reflexivity|]. split; [reflexivity|].
    cbn [l_limit l_offset l_status nullish]. apply sql_limit_pages; assumption.
  - do 3 eexists. split; [reflexivity|]. split; [reflexivity|]. split; [reflexivity|].
    cbn [lj_limit lj_offset nullish]. apply (sql_limit_pages limit more offset); assumption.
Qed.

Lemma listing_pages_tile_witness :
  exists page1 page2 both,
    listApplications (mkListParams (Some ApplicationStatus.submitted) (Some 60) (Some 0))
      db_crowded = (Ok page1, db_crowded)
    /\ listApplications (mkListParams (Some ApplicationStatus.submitted) (Some 41)
                           (Some (0 + 60))) db_crowded = (Ok page2, db_crowded)
    /\ listApplications (mkListParams (Some ApplicationStatus.submitted) (Some (60 + 41))
                           (Some 0)) db_crowded = (Ok both, db_crowded)
    /\ page1 ++ page2 = both.
Proof.
  apply (listing_pages_tile (Some ApplicationStatus.submitted)
           (mkListJobsParams None None None None None) 60 41 0 db_crowded); lia.
Defined.

(** *** The company filter *)

Lemma like_percent (p t : string) :
  Sqlite.like (String "%" p) t
  = Sqlite.like p t
    || match t with
       | EmptyString => false
       | String _ t' => Sqlite.like (String "%" p) t'
       end.
Proof. destruct t; reflexivity. Qed.

Lemma like_percent_only (t : string) : Sqlite.like "%" t = true.
Proof.
  induction t as [|c t IH]; [reflexivity|].
  rewrite like_percent, IH. apply orb_true_r.
Qed.

Lemma like_prefix (frag t : string) :
  wildcard_free frag = true ->
  Sqlite.like (frag ++ "%")%string t
  = Js.startsWith (Js.toLowerCase t) (Js.toLowerCase frag).
Proof.
  revert t. induction frag as [|c frag IH]; intros t W.
  - simpl String.append. rewrite like_percent_only. reflexivity.
  - simpl in W. apply andb_true_iff in W. destruct W as [W W3].
    apply andb_true_iff in W. destruct W as [W1 W2].
    apply negb_true_iff in W1, W2.
    cbn [String.append Sqlite.like Js.toLowerCase Js.startsWith].
    rewrite W1, W2. destruct t as [|d t]; [reflexivity|].
    cbn [Js.toLowerCase]. rewrite (IH t W3).
    destruct (Ascii.eqb (Js.lower_char c) (Js.lower_char d)); reflexivity.
Qed.

Lemma like_contains (frag t : string) :
  wildcard_free frag = true ->
  Sqlite.like ("%" ++ frag ++ "%")%string t
  = Js.includes (Js.toLowerCase t) (Js.toLowerCase frag).
Proof.
  intros W. change ("%" ++ frag ++ "%")%string with (String "%" (frag ++ "%")).
  induction t as [|c t IH].
  - rewrite like_percent, (like_prefix _ _ W). reflexivity.
  - rewrite like_percent, (like_prefix _ _ W), IH. reflexivity.
Qed.

Lemma JobStatus_eqb_eq (a b : JobStatus.t) : JobStatus.eqb a b = true <-> a = b.
Proof. destruct a, b; simpl; split; congruence. Qed.

(** X5. The company filter of [listJobs] is a case-insensitive substring
    test: for a non-empty fragment without [%] and [_] and with no limit
    (a negative one), the jobs returned are exactly the stored jobs whose
    company contains the fragment, letter case aside, and whose status and
    source are the requested ones when these are given. *)
Theorem listJobs_company_filter
    (status : option JobStatus.t) (source : option JobSource) (frag : string)
    (limit : Z) (db : Db) :
  frag <> EmptyString -> wildcard_free frag = true -> limit < 0 ->
  exists rows,
    listJobs (mkListJobsParams status source (Some frag) (Some limit) None) db
      = (Ok rows, db)
    /\ forall r,
         In r rows <->
         In r (jobs db) /\ status_and_source_ok status source r
         /\ ci_occurs frag (job_company r).
Proof.
  intros Hne W L. eexists. split; [reflexivity|]. intros r.
  cbn [lj_limit lj_offset nullish]. unfold sql_limit.
  destruct (Z.ltb_spec limit 0) as [_|Hge]; [|lia]. simpl skipn.
  assert (S : job_selected (mkListJobsParams status source (Some frag) (Some limit) None) r
              = true
              <-> status_and_source_ok status source r /\ ci_occurs frag (job_company r)).
  { unfold job_selected, status_and_source_ok. cbn [lj_status lj_source lj_company].
    destruct frag as [|c frag]; [congruence|]. cbn [Js.nonempty].
    rewrite (like_contains _ _ W), !andb_true_iff, includes_ci.
    destruct status as [st|]; destruct source as [src|];
      rewrite ?JobStatus_eqb_eq, ?JobSource_eqb_eq; tauto. }
  split.
  - intros H. apply sort_In, read_order_In, filter_In in H. destruct H as [H1 H2].
    apply S in H2. tauto.
  - intros (H1 & H2 & H3). apply In_sort, read_order_In, filter_In.
    split; [exact H1|]. apply S. tauto.
Qed.

Lemma listJobs_company_filter_witness :
  exists rows,
    listJobs (mkListJobsParams None None (Some "ACME") (Some (-1)) None) db_acme
      = (Ok rows, db_acme)
    /\ forall r,
         In r rows <->
         In r (jobs db_acme) /\ status_and_source_ok None None r
         /\ ci_occurs "ACME" (job_company r).
Proof.
  apply (listJobs_company_filter None None "ACME" (-1) db_acme).
  - discriminate.
  - reflexivity.
  - lia.
Defined.

(** *** Updates of jobs *)

Lemma set_jobs_same db : set_jobs db (jobs db) = db.
Proof. destruct db; reflexivity. Qed.

Lemma map_update_other {R : Type} (key : R -> string) (f : R -> R) (id : string)
    (rows : list R) (r : R) :
  In r rows -> key r <> id ->
  In r (map (fun x => if String.eqb (key x) id then f x else x) rows).
Proof.
  intros Hin N. apply in_map_iff. exists r. split; [|exact Hin].
  destruct (String.eqb_spec (key r) id); [contradiction|reflexivity].
Qed.

(** X6. [updateJobStatus] and [updateJob] write a job in place: they keep
    the number and order of the jobs and, of every job, its id, external
    id, source, company, title, url and discovery time; they leave every
    job with another id as it was; on an id that names no job they change
    nothing at all; and after [updateJobStatus] the job read back is the
    job as it was with the new status. *)
Theorem job_updates_write_in_place
    (id : string) (status : JobStatus.t) (updates : JobUpdates) (db : Db) :
  map job_identity (jobs (db_after (updateJobStatus id status) db))
    = map job_identity (jobs db)
  /\ map job_identity (jobs (db_after (updateJob id updates) db))
     = map job_identity (jobs db)
  /\ (forall r, In r (jobs db) -> job_id r <> id ->
        In r (jobs (db_after (updateJobStatus id status) db))
        /\ In r (jobs (db_after (updateJob id updates) db)))
  /\ (~ In id (map job_id (jobs db)) ->
      updateJobStatus id status db = (Ok tt, db)
      /\ updateJob id updates db = (Ok tt, db))
  /\ (forall r, outcome (getJob id) db = Ok (Some r) ->
        outcome (getJob id) (db_after (updateJobStatus id status) db)
        = Ok (Some (set_job_status status r))).
Proof.
  split; [|split; [|split; [|split]]].
  - unfold updateJobStatus. store_unfold. simpl. rewrite map_map.
    apply map_ext. intros r. destruct (String.eqb (job_id r) id); reflexivity.
  - unfold updateJob. store_unfold.
    destruct (no_job_updates updates); simpl; [reflexivity|].
    rewrite map_map. apply map_ext. intros r.
    destruct (String.eqb (job_id r) id); reflexivity.
  - intros r Hin N. split.
    + unfold updateJobStatus. store_unfold. simpl.
      apply (map_update_other job_id); assumption.
    + unfold updateJob. store_unfold.
      destruct (no_job_updates updates); simpl; [exact Hin|].
      apply (map_update_other job_id); assumption.
  - intros H. split.
    + unfold updateJobStatus. store_unfold.
      rewrite (map_update_absent job_id (set_job_status status) id _ H).
      rewrite set_jobs_same. reflexivity.
    + unfold updateJob. store_unfold.
      destruct (no_job_updates updates); [reflexivity|].
      rewrite (map_update_absent job_id (apply_job_updates updates) id _ H).
      rewrite set_jobs_same. reflexivity.
  - intros r H. unfold outcome, getJob, updateJobStatus in *. store_unfold.
    simpl in *. injection H as H. f_equal.
    rewrite (find_map_same_key job_id
               (fun r => if String.eqb (job_id r) id then set_job_status status r else r)).
    + rewrite H. simpl. apply find_some in H. destruct H as [_ E].
      rewrite E. reflexivity.
    + intros x. destruct (String.eqb (job_id x) id); reflexivity.
Qed.

Lemma job_updates_write_in_place_witness :
  outcome (getJob "j1") (db_after (updateJobStatus "j1" JobStatus.archived) db_acme)
  = Ok (Some (set_job_status JobStatus.archived
                (mkJobRow "j1" None indeed "Acme Corp" "Software Engineer" None None
                   None (Some "USD") None None None "https://example.com/job" None 5
                   JobStatus.applied None)))
  /\ updateJobStatus "j7" JobStatus.archived db_acme = (Ok tt, db_acme).
Proof.
  destruct (job_updates_write_in_place "j1" JobStatus.archived
              (mkJobUpdates None None None None None) db_acme) as (_ & _ & _ & _ & G).
  destruct (job_updates_write_in_place "j7" JobStatus.archived
              (mkJobUpdates None None None None None) db_acme) as (_ & _ & _ & U & _).
  split.
  - apply G. reflexivity.
  - apply U. simpl. intros [H|[H|[]]]; discriminate H.
Defined.

(* ===================================================================== *)
(** ** Further properties of the email engine *)
(* ===================================================================== *)

Lemma updateApplicationStatus_run id st notes now hid db :
  updateApplicationStatus id st notes now hid db
  = (match application_of db id with
     | Some _ =>
         if existsb (fun h => String.eqb (hist_id h) hid) (application_history db)
         then Throw (ConstraintPrimaryKey "application_history")
         else Ok tt
     | None => Ok tt
     end,
     db_after (updateApplicationStatus id st notes now hid) db).
Proof.
  unfold db_after. rewrite updateApplicationStatus_insert.
  unfold getApplication, application_of.
  store_unfold. simpl.
  destruct (find (fun r => String.eqb (app_id r) id) (applications db)); simpl;
    [|reflexivity].
  destruct (existsb _ (application_history db)); reflexivity.
Qed.

(** The database after an email that matched, in full. *)
Lemma processEmailNotification_matched n email env db m :
  first_match db email = Some m ->
  db_after (processEmailNotification n email env) db
  = if update_completes m email env db
    then thread_upsert m email env (engine_update m email env db)
    else engine_update m email env db.
Proof.
  intros Hm. unfold processEmailNotification.
  rewrite (db_after_bind_read _ _ _ _ (matchEmailToApplication_reads email db)), Hm.
  unfold update_completes, engine_update, thread_upsert, existing_thread.
  pose proof (responseTypeToStatus_policy (classifyEmailResponse email)
                (currentStatus m)) as P.
  set (target := policy (classifyEmailResponse email) (currentStatus m)) in *.
  assert (G : match responseTypeToStatus (classifyEmailResponse email) (currentStatus m) with
              | Some newStatus =>
                  if negb (ApplicationStatus.eqb newStatus (currentStatus m))
                  then updateApplicationStatus (applicationId m) newStatus
                         (Some ("Email response classified as: "
                                ++ responseType_name (classifyEmailResponse email))%string)
                         (now_status env) (historyId env)
                  else ret tt
              | None => ret tt
              end
              = if ApplicationStatus.eqb target (currentStatus m) then ret tt
                else updateApplicationStatus (applicationId m) target
                       (Some ("Email response classified as: "
                              ++ responseType_name (classifyEmailResponse email))%string)
                       (now_status env) (historyId env)).
  { destruct (responseTypeToStatus (classifyEmailResponse email) (currentStatus m))
      as [ns|].
    - rewrite <- P. destruct (ApplicationStatus.eqb ns (currentStatus m)); reflexivity.
    - rewrite P, status_eqb_refl. reflexivity. }
  rewrite G. clear G P.
  assert (Tail : forall d,
            db_after
              (existingThread <-
                 match truthy (gmailThreadId email) with
                 | Some g => getEmailThreadByGmailId g
                 | None => ret None
                 end ;;
               match existingThread with
               | Some existingThread =>
                   updateEmailThread (thr_id existingThread)
                     (mkEmailThreadUpdates
                        (Some match classifyEmailResponse email with
                              | interview => EmailThreadStatus.awaiting_response
                              | _ => EmailThreadStatus.active
                              end)
                        (Some (thr_message_count existingThread + 1))
                        (Some (now_thread env)))
               | None =>
                   createEmailThread
                     (mkEmailThreadParams (applicationId m) (gmailThreadId email)
                        (subject email) (from email))
                     (now_thread env) (threadId env) ;;
                   ret tt
               end ;;
               (if emailResponseAlerts n
                then match truthy (channel n) with
                     | Some _ => getJob (jobId m) ;; ret tt
                     | None => ret tt
                     end
                else ret tt)) d
            = match match truthy (gmailThreadId email) with
                    | Some g =>
                        find (fun r => match thr_gmail_thread_id r with
                                       | Some g' => String.eqb g' g
                                       | None => false
                                       end) (email_threads d)
                    | None => None
                    end with
              | Some t =>
                  db_after
                    (updateEmailThread (thr_id t)
                       (mkEmailThreadUpdates
                          (Some match classifyEmailResponse email with
                                | interview => EmailThreadStatus.awaiting_response
                                | _ => EmailThreadStatus.active
                                end)
                          (Some (thr_message_count t + 1))
                          (Some (now_thread env)))) d
              | None =>
                  db_after
                    (createEmailThread
                       (mkEmailThreadParams (applicationId m) (gmailThreadId email)
                          (subject email) (from email))
                       (now_thread env) (threadId env)) d
              end).
  { intros d. unfold db_after, bind, getEmailThreadByGmailId, query, ret.
    destruct (truthy (gmailThreadId email)) as [g|]; simpl.
    - destruct (find _ (email_threads d)) as [t|].
      + unfold updateEmailThread, run, ret. simpl.
        destruct (emailResponseAlerts n); [|reflexivity].
        destruct (truthy (channel n)); reflexivity.
      + unfold createEmailThread, sql_insert_ref, bind, ret.
        cbn [thr_id thr_application_id].
        destruct (existsb _ (email_threads d)); simpl; [reflexivity|].
        destruct (existsb _ (applications d)); simpl; [|reflexivity].
        destruct (emailResponseAlerts n); [|reflexivity].
        destruct (truthy (channel n)); reflexivity.
    - unfold createEmailThread, sql_insert_ref, bind, ret.
      cbn [thr_id thr_application_id].
      destruct (existsb _ (email_threads d)); simpl; [reflexivity|].
      destruct (existsb _ (applications d)); simpl; [|reflexivity].
      destruct (emailResponseAlerts n); [|reflexivity].
      destruct (truthy (channel n)); reflexivity. }
  destruct (ApplicationStatus.eqb target (currentStatus m)) eqn:T; cbn [orb].
  - unfold db_after at 1. unfold bind at 1. unfold ret at 1.
    apply Tail.
  - unfold db_after at 1. unfold bind at 1.
    rewrite updateApplicationStatus_run.
    destruct (application_of db (applicationId m)) eqn:F.
    + destruct (existsb _ (application_history db)); cbn [negb]; [reflexivity|].
      apply Tail.
    + (* the id names no application: the update returns at once; this is
         excluded by matching, but holds as well *)
      assert (E : existsb (fun h => String.eqb (hist_id h) (historyId env))
                    (application_history db) = true \/
                  existsb (fun h => String.eqb (hist_id h) (historyId env))
                    (application_history db) = false)
        by (destruct (existsb _ (application_history db)); auto).
      destruct E as [E|E]; rewrite E; cbn [negb]; [|apply Tail].
      exfalso. apply first_match_candidate in Hm.
      destruct Hm as (a & Hin & -> & _). simpl in *.
      unfold application_of in F. apply (find_none _ _ F) in Hin.
      rewrite String.eqb_refl in Hin. discriminate.
Qed.

Lemma engine_update_frame m email env db :
  jobs (engine_update m email env db) = jobs db
  /\ email_threads (engine_update m email env db) = email_threads db
  /\ resumes (engine_update m email env db) = resumes db.
Proof.
  unfold engine_update. destruct (ApplicationStatus.eqb _ (currentStatus m)).
  - repeat split.
  - apply updateApplicationStatus_frame.
Qed.

Lemma existing_thread_engine_update m email env db :
  existing_thread email (engine_update m email env db) = existing_thread email db.
Proof.
  unfold existing_thread.
  destruct (engine_update_frame m email env db) as (_ & -> & _). reflexivity.
Qed.

Lemma fresh_history_completes m email env db :
  ~ In (historyId env) (map hist_id (application_history db)) ->
  update_completes m email env db = true.
Proof.
  intros H. unfold update_completes.
  rewrite (existsb_fresh hist_id (historyId env) _ H). apply orb_true_r.
Qed.

Lemma createEmailThread_threads params now id d :
  ~ In id (map thr_id (email_threads d)) ->
  In (p_applicationId params) (map app_id (applications d)) ->
  email_threads (db_after (createEmailThread params now id) d)
  = email_threads d
    ++ [mkEmailThreadRow id (p_applicationId params) (p_gmailThreadId params)
          (p_subject params) (p_fromEmail params) now EmailThreadStatus.active 1 None].
Proof.
  intros F P. unfold createEmailThread. store_unfold. cbn [thr_id thr_application_id].
  rewrite (existsb_fresh thr_id id _ F), (existsb_stored app_id _ _ P). reflexivity.
Qed.

(** The Application that an email matched is stored, also after the status
    update of the engine: the thread that is opened for it finds it. *)
Lemma matched_application_stored m email env db :
  first_match db email = Some m ->
  In (applicationId m) (map app_id (applications (engine_update m email env db))).
Proof.
  intros Hm. apply first_match_candidate in Hm. destruct Hm as (a & Hin & -> & _).
  assert (E : map app_id (applications (engine_update (matched_of a) email env db))
              = map app_id (applications db)).
  { unfold engine_update. destruct (ApplicationStatus.eqb _ _); [reflexivity|].
    rewrite updateApplicationStatus_applications. apply status_row_update_ids. }
  rewrite E. apply in_map_iff. exists a. split; [reflexivity|exact Hin].
Qed.

(** X7. The first matched email of a conversation opens its thread: when an
    email matches an Application and no stored thread carries its provider
    thread id (or it carries none), exactly one thread is appended, owned
    by the matched Application, with the subject and sender of the email,
    status "active" and message count 1; the threads stored before are as
    they were. *)
Theorem matched_email_opens_thread
    (n : Notifications) (email : EmailData) (env : Env) (db : Db) (m : Matched) :
  outcome (matchEmailToApplication email) db = Ok (Some m) ->
  outcome (match truthy (gmailThreadId email) with
           | Some g => getEmailThreadByGmailId g
           | None => ret None
           end) db = Ok None ->
  ~ In (historyId env) (map hist_id (application_history db)) ->
  ~ In (threadId env) (map thr_id (email_threads db)) ->
  email_threads (db_after (processEmailNotification n email env) db)
  = email_threads db
    ++ [mkEmailThreadRow (threadId env) (applicationId m) (gmailThreadId email)
          (subject email) (from email) (now_thread env) EmailThreadStatus.active 1
          None].
Proof.
  intros Hm Hn Fh Ft.
  unfold outcome in Hm. rewrite matchEmailToApplication_reads in Hm.
  injection Hm as Hm.
  assert (Ex : existing_thread email db = None).
  { unfold existing_thread. unfold outcome, getEmailThreadByGmailId, query, ret in Hn.
    destruct (truthy (gmailThreadId email)); [|reflexivity].
    simpl in Hn. injection Hn as Hn. exact Hn. }
  rewrite (processEmailNotification_matched n email env db m Hm).
  rewrite (fresh_history_completes m email env db Fh).
  unfold thread_upsert. rewrite existing_thread_engine_update, Ex.
  destruct (engine_update_frame m email env db) as (_ & ET & _).
  rewrite createEmailThread_threads.
  - rewrite ET. reflexivity.
  - rewrite ET. exact Ft.
  - apply matched_application_stored. exact Hm.
Qed.

Lemma matched_email_opens_thread_witness :
  email_threads (db_after (processEmailNotification alerts_on email_next_steps
                             env_example) db_acme)
  = email_threads db_acme
    ++ [mkEmailThreadRow "t1" "a1" (Some "thread-1")
          "Next steps for your application" "hr@acmecorp.com" 101
          EmailThreadStatus.active 1 None].
Proof.
  apply (matched_email_opens_thread alerts_on email_next_steps env_example db_acme
           (mkMatched "a1" "j1" ApplicationStatus.submitted)).
  - reflexivity.
  - reflexivity.
  - simpl. intros [].
  - simpl. intros [].
Defined.

Lemma find_map_pred {R : Type} (p : R -> bool) (f : R -> R) (rows : list R) :
  (forall r, p (f r) = p r) ->
  find p (map f rows) = option_map f (find p rows).
Proof.
  intros K. induction rows as [|r rows IH]; simpl; [reflexivity|].
  rewrite K. destruct (p r); [reflexivity|exact IH].
Qed.

Lemma updateEmailThread_threads id u d :
  no_thread_updates u = false ->
  email_threads (db_after (updateEmailThread id u) d)
  = map (fun r => if String.eqb (thr_id r) id then apply_thread_updates u r else r)
      (email_threads d).
Proof. intros H. unfold updateEmailThread. rewrite H. reflexivity. Qed.

(** X8. A later matched email of a conversation updates its thread instead
    of opening another: when a stored thread carries the provider thread id
    of a matched email, that thread gets its message count raised by one,
    its last message time set to the time of the email and its status set
    to "awaiting_response" for an interview and to "active" otherwise; no
    thread is added, and the threads with another id are as they were.
    The thread is updated whichever Application owns it. *)
Theorem matched_email_updates_thread
    (n : Notifications) (email : EmailData) (env : Env) (db : Db) (m : Matched)
    (g : string) (t : EmailThreadRow) :
  outcome (matchEmailToApplication email) db = Ok (Some m) ->
  truthy (gmailThreadId email) = Some g ->
  outcome (getEmailThreadByGmailId g) db = Ok (Some t) ->
  ~ In (historyId env) (map hist_id (application_history db)) ->
  outcome (getEmailThreadByGmailId g)
    (db_after (processEmailNotification n email env) db)
  = Ok (Some (mkEmailThreadRow (thr_id t) (thr_application_id t)
                (thr_gmail_thread_id t) (thr_subject t) (thr_from_email t)
                (now_thread env)
                match classifyEmailResponse email with
                | interview => EmailThreadStatus.awaiting_response
                | _ => EmailThreadStatus.active
                end
                (thr_message_count t + 1) (thr_metadata t)))
  /\ List.length (email_threads (db_after (processEmailNotification n email env) db))
     = List.length (email_threads db)
  /\ (forall r, In r (email_threads db) -> thr_id r <> thr_id t ->
        In r (email_threads (db_after (processEmailNotification n email env) db))).
Proof.
  intros Hm Hg Ht Fh.
  unfold outcome in Hm. rewrite matchEmailToApplication_reads in Hm.
  injection Hm as Hm.
  assert (Ex : existing_thread email db = Some t).
  { unfold existing_thread. rewrite Hg.
    unfold outcome, getEmailThreadByGmailId, query in Ht. simpl in Ht.
    injection Ht as Ht. exact Ht. }
  rewrite (processEmailNotification_matched n email env db m Hm).
  rewrite (fresh_history_completes m email env db Fh).
  unfold thread_upsert. rewrite existing_thread_engine_update, Ex.
  destruct (engine_update_frame m email env db) as (_ & ET & _).
  set (u := mkEmailThreadUpdates _ _ _).
  assert (T : email_threads (db_after (updateEmailThread (thr_id t) u)
                               (engine_update m email env db))
              = map (fun r => if String.eqb (thr_id r) (thr_id t)
                              then apply_thread_updates u r else r)
                  (email_threads db)).
  { rewrite updateEmailThread_threads by reflexivity. rewrite ET. reflexivity. }
  split; [|split].
  - unfold outcome, getEmailThreadByGmailId, query. cbn [fst]. rewrite T.
    rewrite find_map_pred.
    + unfold existing_thread in Ex. rewrite Hg in Ex. rewrite Ex. simpl.
      rewrite String.eqb_refl. reflexivity.
    + intros r. destruct (String.eqb (thr_id r) (thr_id t)); reflexivity.
  - rewrite T. apply length_map.
  - intros r Hin N. rewrite T. apply (map_update_other thr_id); assumption.
Qed.

Lemma matched_email_updates_thread_witness :
  outcome (getEmailThreadByGmailId "thread-1")
    (db_after (processEmailNotification alerts_on email_next_steps
                 (mkEnv 200 "h2" 201 "t2"))
       (db_after (processEmailNotification alerts_on email_next_steps env_example)
          db_acme))
  = Ok (Some (mkEmailThreadRow "t1" "a1" (Some "thread-1")
                "Next steps for your application" "hr@acmecorp.com" 201
                EmailThreadStatus.awaiting_response 2 None)).
Proof.
  destruct (matched_email_updates_thread alerts_on email_next_steps
              (mkEnv 200 "h2" 201 "t2")
              (db_after (processEmailNotification alerts_on email_next_steps env_example)
                 db_acme)
              (mkMatched "a1" "j1" ApplicationStatus.interview) "thread-1"
              (mkEmailThreadRow "t1" "a1" (Some "thread-1")
                 "Next steps for your application" "hr@acmecorp.com" 101
                 EmailThreadStatus.active 1 None)) as [W _].
  - vm_compute. reflexivity.
  - reflexivity.
  - vm_compute. reflexivity.
  - vm_compute. intros [H|[]]. discriminate H.
  - vm_compute in W. vm_compute. exact W.
Defined.

Lemma createEmailThread_threads_any params now id d :
  In (p_applicationId params) (map app_id (applications d)) ->
  email_threads (db_after (createEmailThread params now id) d)
  = if existsb (fun x => String.eqb (thr_id x) id) (email_threads d)
    then email_threads d
    else email_threads d
         ++ [mkEmailThreadRow id (p_applicationId params) (p_gmailThreadId params)
               (p_subject params) (p_fromEmail params) now
               EmailThreadStatus.active 1 None].
Proof.
  intros P. unfold createEmailThread. store_unfold. cbn [thr_id thr_application_id].
  rewrite (existsb_stored app_id _ _ P).
  destruct (existsb _ (email_threads d)); reflexivity.
Qed.

(** The threads after one email: as before, or one more, or one of them
    updated. *)
Lemma email_step_threads n email env db :
  let db' := db_after (processEmailNotification n email env) db in
  email_threads db' = email_threads db
  \/ (exists new, email_threads db' = email_threads db ++ [new]
                  /\ ~ In (thr_id new) (map thr_id (email_threads db)))
  \/ (exists t0 st now,
        In t0 (email_threads db)
        /\ email_threads db'
           = map (fun r => if String.eqb (thr_id r) (thr_id t0)
                           then apply_thread_updates
                                  (mkEmailThreadUpdates (Some st)
                                     (Some (thr_message_count t0 + 1)) (Some now)) r
                           else r)
               (email_threads db)).
Proof.
  intros db'. subst db'.
  pose proof (processEmailNotification_effect n email env db) as E.
  destruct (first_match db email) as [m|] eqn:Hm; [|left; rewrite E; reflexivity].
  clear E. rewrite (processEmailNotification_matched n email env db m Hm).
  destruct (engine_update_frame m email env db) as (_ & ET & _).
  destruct (update_completes m email env db); [|left; exact ET].
  unfold thread_upsert. rewrite existing_thread_engine_update.
  destruct (existing_thread email db) as [t0|] eqn:Ex.
  - right. right. eexists t0, _, _. split.
    + unfold existing_thread in Ex. destruct (truthy (gmailThreadId email)); [|discriminate].
      apply find_some in Ex. apply Ex.
    + rewrite updateEmailThread_threads by reflexivity. rewrite ET. reflexivity.
  - rewrite createEmailThread_threads_any
      by (apply matched_application_stored; exact Hm).
    rewrite ET.
    destruct (existsb (fun x => String.eqb (thr_id x) (threadId env))
                (email_threads db)) eqn:X.
    + left. reflexivity.
    + right. left. eexists. split; [reflexivity|].
      intros Hin. apply in_map_iff in Hin. destruct Hin as (x & Ex' & Hx).
      assert (Y : existsb (fun x => String.eqb (thr_id x) (threadId env))
                    (email_threads db) = true).
      { apply existsb_exists. exists x. split; [exact Hx|].
        apply String.eqb_eq. exact Ex'. }
      congruence.
Qed.

Lemma thread_update_ids id u rows :
  map thr_id (map (fun r => if String.eqb (thr_id r) id
                            then apply_thread_updates u r else r) rows)
  = map thr_id rows.
Proof.
  rewrite map_map. apply map_ext. intros r.
  destruct (String.eqb (thr_id r) id); reflexivity.
Qed.

Lemma email_step_thread_ids n email env db :
  NoDup (map thr_id (email_threads db)) ->
  NoDup (map thr_id (email_threads (db_after (processEmailNotification n email env) db))).
Proof.
  intros H.
  destruct (email_step_threads n email env db)
    as [E | [(new & E & F) | (t0 & st & now & _ & E)]]; rewrite E.
  - exact H.
  - rewrite map_app. simpl. apply NoDup_app_one; assumption.
  - rewrite thread_update_ids. exact H.
Qed.

Lemma email_step_threads_kept n email env db :
  NoDup (map thr_id (email_threads db)) ->
  threads_kept db (db_after (processEmailNotification n email env) db).
Proof.
  intros Hd t Hin.
  destruct (email_step_threads n email env db)
    as [E | [(new & E & F) | (t0 & st & now & Hin0 & E)]]; rewrite E.
  - exists t. split; [exact Hin|]. split; [reflexivity|lia].
  - exists t. split; [apply in_or_app; left; exact Hin|]. split; [reflexivity|lia].
  - destruct (String.eqb_spec (thr_id t) (thr_id t0)) as [Eid|N].
    + assert (t = t0).
      { pose proof (find_NoDup thr_id _ t Hd Hin) as F1.
        pose proof (find_NoDup thr_id _ t0 Hd Hin0) as F2.
        rewrite Eid in F1. rewrite F1 in F2. injection F2 as ->. reflexivity. }
      subst t0. eexists. split.
      * apply in_map_iff. exists t. split; [|exact Hin].
        rewrite String.eqb_refl. reflexivity.
      * simpl. split; [reflexivity|lia].
    + exists t. split; [apply (map_update_other thr_id); assumption|].
      split; [reflexivity|lia].
Qed.

(** X9. Emails never lose a thread and never lower a message count: after
    any run of emails, every thread that was stored is still stored under
    its id, with a message count at least as large. *)
Theorem emails_keep_threads_and_counts (evs : list Event) (db : Db) :
  only_emails evs ->
  NoDup (map thr_id (email_threads db)) ->
  threads_kept db (run_events evs db).
Proof.
  intros Hev. revert db. induction Hev as [|ev evs Hev1 Hevs IH]; intros db Hd.
  - intros t Hin. exists t. split; [exact Hin|]. split; [reflexivity|lia].
  - destruct ev as [op|n email env]; [contradiction|]. simpl.
    intros t Hin.
    destruct (email_step_threads_kept n email env db Hd t Hin) as (t1 & H1 & E1 & L1).
    destruct (IH _ (email_step_thread_ids n email env db Hd) t1 H1)
      as (t2 & H2 & E2 & L2).
    exists t2. split; [exact H2|]. split; [congruence|lia].
Qed.

Lemma emails_keep_threads_and_counts_witness :
  threads_kept
    (db_after (processEmailNotification alerts_on email_next_steps env_example) db_acme)
    (run_events [Email alerts_on email_next_steps (mkEnv 200 "h2" 201 "t2");
                 Email alerts_on email_mixed (mkEnv 300 "h3" 301 "t3")]
       (db_after (processEmailNotification alerts_on email_next_steps env_example)
          db_acme)).
Proof.
  apply emails_keep_threads_and_counts.
  - repeat constructor.
  - simpl. constructor; [intros []|constructor].
Defined.

(** X10. An email writes little: it never touches the jobs or the resumes;
    it keeps the Applications in number, order and id, and leaves every
    Application but the matched one exactly as it was; it appends at most
    one history record; and when it matches nothing it returns normally
    with the database as it was. *)
Theorem email_writes_only_the_matched_application
    (n : Notifications) (email : EmailData) (env : Env) (db : Db) :
  jobs (db_after (processEmailNotification n email env) db) = jobs db
  /\ resumes (db_after (processEmailNotification n email env) db) = resumes db
  /\ map app_id (applications (db_after (processEmailNotification n email env) db))
     = map app_id (applications db)
  /\ (forall a m,
        outcome (matchEmailToApplication email) db = Ok (Some m) ->
        In a (applications db) -> app_id a <> applicationId m ->
        In a (applications (db_after (processEmailNotification n email env) db)))
  /\ (application_history (db_after (processEmailNotification n email env) db)
        = application_history db
      \/ exists h,
           application_history (db_after (processEmailNotification n email env) db)
           = application_history db ++ [h])
  /\ (outcome (matchEmailToApplication email) db = Ok None ->
      processEmailNotification n email env db = (Ok tt, db)).
Proof.
  pose proof (processEmailNotification_effect n email env db) as E.
  assert (M : outcome (matchEmailToApplication email) db = Ok (first_match db email)).
  { unfold outcome. rewrite matchEmailToApplication_reads. reflexivity. }
  rewrite M.
  destruct (first_match db email) as [m|] eqn:Hm.
  - destruct E as (EJ & EA & ER & EH).
    destruct (engine_update_frame m email env db) as (FJ & _ & FR).
    split; [congruence|]. split; [congruence|]. split; [|split; [|split]].
    + rewrite EA. unfold engine_update.
      destruct (ApplicationStatus.eqb _ (currentStatus m)); [reflexivity|].
      rewrite updateApplicationStatus_applications. apply status_row_update_ids.
    + intros a m' Em Hin N. injection Em as <-. rewrite EA. unfold engine_update.
      destruct (ApplicationStatus.eqb _ (currentStatus m)); [exact Hin|].
      rewrite updateApplicationStatus_applications.
      unfold status_row_update. apply (map_update_other app_id); assumption.
    + rewrite EH. unfold engine_update.
      destruct (ApplicationStatus.eqb _ (currentStatus m)); [left; reflexivity|].
      unfold db_after. rewrite updateApplicationStatus_run. cbn [snd].
      unfold db_after. rewrite updateApplicationStatus_insert.
      unfold getApplication. store_unfold. simpl.
      destruct (find (fun r => String.eqb (app_id r) (applicationId m))
                  (applications db)); simpl; [|left; reflexivity].
      destruct (existsb _ (application_history db)); simpl;
        [left; reflexivity|right; eexists; reflexivity].
    + discriminate.
  - rewrite E. split; [reflexivity|]. split; [reflexivity|]. split; [reflexivity|].
    split; [intros a m H; discriminate|]. split; [left; reflexivity|].
    intros _. unfold processEmailNotification, bind.
    rewrite matchEmailToApplication_reads, Hm. reflexivity.
Qed.

Lemma email_writes_only_the_matched_application_witness :
  In (mkApplicationRow "a2" "j2" ApplicationStatus.offer (Some 30) None None
        None None 40 15 40)
     (applications (db_after (processEmailNotification alerts_on email_next_steps
                                env_example) db_acme)).
Proof.
  destruct (email_writes_only_the_matched_application alerts_on email_next_steps
              env_example db_acme) as (_ & _ & _ & F & _).
  apply (F _ (mkMatched "a1" "j1" ApplicationStatus.submitted)).
  - reflexivity.
  - simpl. right. left. reflexivity.
  - discriminate.
Defined.

Lemma email_step_keeps_closed n email env db a :
  NoDup (map app_id (applications db)) ->
  In a (applications db) -> is_open a = false ->
  In a (applications (db_after (processEmailNotification n email env) db)).
Proof.
  intros Hd Hin Hc.
  pose proof (processEmailNotification_effect n email env db) as E.
  destruct (first_match db email) as [m|] eqn:Hm; [|rewrite E; exact Hin].
  destruct E as (_ & EA & _). rewrite EA. unfold engine_update.
  destruct (ApplicationStatus.eqb _ (currentStatus m)); [exact Hin|].
  rewrite updateApplicationStatus_applications.
  destruct (first_match_candidate _ _ _ Hm) as (b & Hb & -> & Sb & _).
  simpl. unfold status_row_update. apply (map_update_other app_id); [exact Hin|].
  intros Eab.
  pose proof (find_NoDup app_id _ a Hd Hin) as F1.
  pose proof (find_NoDup app_id _ b Hd Hb) as F2.
  rewrite Eab in F1. rewrite F1 in F2. injection F2 as ->.
  apply is_open_spec in Sb. congruence.
Qed.

(** X11. Emails move open Applications only: an Application whose status is
    neither "submitted" nor "interview" (pending, viewed, rejected, offer,
    withdrawn or closed) is left exactly as it is by any run of emails,
    whatever they say.  In particular an Application that a generic email
    moved to "viewed" is out of reach of every later email. *)
Theorem emails_leave_applications_that_are_not_open
    (evs : list Event) (db : Db) (a : ApplicationRow) :
  only_emails evs ->
  NoDup (map app_id (applications db)) ->
  In a (applications db) -> is_open a = false ->
  In a (applications (run_events evs db)).
Proof.
  intros Hev. revert db. induction Hev as [|ev evs Hev1 Hevs IH]; intros db Hd Hin Hc.
  - exact Hin.
  - destruct ev as [op|n email env]; [contradiction|]. simpl. apply IH.
    + apply (step_application_ids db (Email n email env)). exact Hd.
    + apply email_step_keeps_closed; assumption.
    + exact Hc.
Qed.

Lemma emails_leave_applications_that_are_not_open_witness :
  In (mkApplicationRow "a1" "j1" ApplicationStatus.viewed (Some 20) None None
        None None 100 10 100)
     (applications
        (run_events [Email alerts_on email_offer (mkEnv 200 "h2" 201 "t2")]
           (db_after (processEmailNotification alerts_on email_generic env_example)
              db_acme))).
Proof.
  apply emails_leave_applications_that_are_not_open.
  - repeat constructor.
  - simpl. constructor; [intros [H|[]]; discriminate H|].
    constructor; [intros []|constructor].
  - simpl. left. reflexivity.
  - reflexivity.
Defined.

(* ===================================================================== *)
(** ** Further properties of the resumes *)
(* ===================================================================== *)

Lemma count_split {R : Type} (p q : R -> bool) (rows : list R) :
  Sqlite.count p rows
  = Sqlite.count p (filter q rows) + Sqlite.count p (filter (fun r => negb (q r)) rows).
Proof.
  unfold Sqlite.count. induction rows as [|r rows IH]; [reflexivity|].
  cbn [filter]. destruct (q r); cbn [negb filter]; destruct (p r); cbn [List.length];
    rewrite ?Nat2Z.inj_succ; lia.
Qed.

Lemma count_none {R : Type} (p : R -> bool) (rows : list R) :
  (forall r, In r rows -> p r = false) -> Sqlite.count p rows = 0.
Proof.
  unfold Sqlite.count. induction rows as [|r rows IH]; simpl; intros H; [reflexivity|].
  rewrite (H r (or_introl eq_refl)). apply IH. intros x Hx. apply H. right. exact Hx.
Qed.

Lemma count_some {R : Type} (p : R -> bool) (rows : list R) (r : R) :
  In r rows -> p r = true -> 1 <= Sqlite.count p rows.
Proof.
  unfold Sqlite.count. induction rows as [|x rows IH]; simpl; intros Hin Hp;
    [contradiction|].
  destruct Hin as [->|Hin].
  - rewrite Hp. simpl. lia.
  - specialize (IH Hin Hp). destruct (p x); simpl; lia.
Qed.

Lemma deleteResume_default_count (id : string) (db : Db) (r : ResumeRow) :
  resumes_ok db ->
  find (fun x => String.eqb (res_id x) id) (resumes db) = Some r ->
  default_count (db_after (deleteResume id) db)
  = if res_is_default r =? 1 then 0 else default_count db.
Proof.
  intros [Hd Hc] Hr.
  assert (R : resumes (db_after (deleteResume id) db)
              = filter (fun r => negb (String.eqb (res_id r) id)) (resumes db))
    by reflexivity.
  apply find_some in Hr. destruct Hr as [Hin Eid].
  apply String.eqb_eq in Eid.
  unfold default_count in *. rewrite R.
  pose proof (count_split (fun r => res_is_default r =? 1)
                (fun r => negb (String.eqb (res_id r) id)) (resumes db)) as S.
  cbv beta in S.
  pose proof (count_nonneg (fun r => res_is_default r =? 1)
                (filter (fun r => negb (String.eqb (res_id r) id)) (resumes db))) as P.
  destruct (res_is_default r =? 1) eqn:D.
  - assert (1 <= Sqlite.count (fun r => res_is_default r =? 1)
                   (filter (fun r => negb (negb (String.eqb (res_id r) id)))
                      (resumes db))).
    { apply (count_some _ _ r); [|exact D]. apply filter_In. split; [exact Hin|].
      rewrite Eid, String.eqb_refl. reflexivity. }
    lia.
  - assert (Sqlite.count (fun r => res_is_default r =? 1)
              (filter (fun r => negb (negb (String.eqb (res_id r) id)))
                 (resumes db)) = 0).
    { apply count_none. intros x Hx. apply filter_In in Hx. destruct Hx as [Hx Ex].
      rewrite negb_involutive in Ex. apply String.eqb_eq in Ex.
      assert (x = r).
      { pose proof (find_NoDup res_id _ x Hd Hx) as F1.
        pose proof (find_NoDup res_id _ r Hd Hin) as F2.
        rewrite Ex, <- Eid in F1. rewrite F1 in F2. injection F2 as ->. reflexivity. }
      subst x. exact D. }
    lia.
Qed.

(** X12. [deleteResume] removes the resume of the given id and nothing
    else: the id no longer resolves, every other resume is as it was, and
    no resume appears.  No other resume is made the default in its place:
    after the default resume is deleted there is no default, and deleting
    another resume leaves the number of defaults as it was. *)
Theorem deleteResume_removes_one_and_never_redefaults (id : string) (db : Db) :
  resumes_ok db ->
  outcome (getResume id) (db_after (deleteResume id) db) = Ok None
  /\ (forall r, In r (resumes db) -> res_id r <> id ->
        In r (resumes (db_after (deleteResume id) db)))
  /\ (forall r, In r (resumes (db_after (deleteResume id) db)) -> In r (resumes db))
  /\ (forall r, outcome (getResume id) db = Ok (Some r) ->
        default_count (db_after (deleteResume id) db)
        = if res_is_default r =? 1 then 0 else default_count db).
Proof.
  intros [Hd Hc].
  assert (R : resumes (db_after (deleteResume id) db)
              = filter (fun r => negb (String.eqb (res_id r) id)) (resumes db))
    by reflexivity.
  split; [|split; [|split]].
  - unfold outcome, getResume, query. cbn [fst]. rewrite R. f_equal.
    destruct (find _ (filter _ (resumes db))) as [x|] eqn:F; [|reflexivity].
    apply find_some in F. destruct F as [F1 F2]. apply filter_In in F1.
    destruct F1 as [_ F1]. rewrite F2 in F1. discriminate.
  - intros r Hin N. rewrite R. apply filter_In. split; [exact Hin|].
    apply negb_true_iff. apply String.eqb_neq. exact N.
  - intros r Hin. rewrite R in Hin. apply filter_In in Hin. apply Hin.
  - intros r Hr. unfold outcome, getResume, query in Hr. simpl in Hr.
    injection Hr as Hr. apply deleteResume_default_count; [split; assumption|exact Hr].
Qed.

Lemma deleteResume_removes_one_and_never_redefaults_witness :
  default_count (db_after (deleteResume "r1") db_two_resumes) = 0
  /\ In (mkResumeRow "r2" "Resume 2" "/path/to/2.pdf" pdf None 0 20 20)
        (resumes (db_after (deleteResume "r1") db_two_resumes)).
Proof.
  assert (Ok_ : resumes_ok db_two_resumes).
  { split.
    - simpl. constructor; [intros [H|[]]; discriminate H|].
      constructor; [intros []|constructor].
    - unfold default_count, Sqlite.count. simpl. lia. }
  destruct (deleteResume_removes_one_and_never_redefaults "r1" db_two_resumes Ok_)
    as (_ & K & _ & D).
  split.
  - apply (D (mkResumeRow "r1" "Resume 1" "/path/to/1.pdf" pdf None 1 10 10)).
    reflexivity.
  - apply K; [simpl; right; left; reflexivity|discriminate].
Defined.

Lemma find_default_after_set (id : string) (rows : list ResumeRow) :
  find (fun r => res_is_default r =? 1)
    (map (fun r => if String.eqb (res_id r) id then set_is_default 1 r else r)
       (map (set_is_default 0) rows))
  = option_map (set_is_default 1) (find (fun r => String.eqb (res_id r) id) rows).
Proof.
  induction rows as [|r rows IH]; simpl; [reflexivity|].
  destruct (String.eqb (res_id r) id); simpl; [reflexivity|exact IH].
Qed.

Lemma count_default_after_set (id : string) (rows : list ResumeRow) (r : ResumeRow) :
  In r rows -> res_id r = id ->
  1 <= Sqlite.count (fun r => res_is_default r =? 1)
         (map (fun r => if String.eqb (res_id r) id then set_is_default 1 r else r)
            (map (set_is_default 0) rows)).
Proof.
  intros Hin E. apply (count_some _ _ (set_is_default 1 r)); [|reflexivity].
  apply in_map_iff. exists (set_is_default 0 r). split.
  - simpl. rewrite E, String.eqb_refl. reflexivity.
  - apply in_map. exact Hin.
Qed.

(** X13. The set-default action of the resume tool makes the chosen resume
    the one default, or does nothing: for an id that names a resume, that
    resume is afterwards the only default and is what [getDefaultResume]
    returns; for an id that names none, the tool reports "not found" and
    leaves the database, a default it may hold included, as it was. *)
Theorem handleSetDefault_sets_the_one_default_or_nothing (id : string) (db : Db) :
  id <> EmptyString ->
  NoDup (map res_id (resumes db)) ->
  (forall r, outcome (getResume id) db = Ok (Some r) ->
     outcome (ResumeManage.handleSetDefault (Some id)) db
       = Ok (ResumeManage.default_set id (res_name r))
     /\ default_count (db_after (ResumeManage.handleSetDefault (Some id)) db) = 1
     /\ outcome getDefaultResume (db_after (ResumeManage.handleSetDefault (Some id)) db)
        = Ok (Some (set_is_default 1 r)))
  /\ (outcome (getResume id) db = Ok None ->
      ResumeManage.handleSetDefault (Some id) db = (Ok ResumeManage.not_found, db)).
Proof.
  intros Hne Hd.
  assert (Ne : Js.nonempty (Some id) = Some id)
    by (destruct id; [congruence|reflexivity]).
  split.
  - intros r Hr. unfold outcome, getResume, query in Hr. simpl in Hr.
    injection Hr as Hr.
    assert (Run : ResumeManage.handleSetDefault (Some id) db
                  = (Ok (ResumeManage.default_set id (res_name r)),
                     db_after (setDefaultResume id) db)).
    { unfold ResumeManage.handleSetDefault. rewrite Ne.
      unfold bind, getResume, query. rewrite Hr. reflexivity. }
    assert (A : db_after (ResumeManage.handleSetDefault (Some id)) db
                = db_after (setDefaultResume id) db)
      by (unfold db_after at 1; rewrite Run; reflexivity).
    rewrite A. unfold outcome at 1. rewrite Run. cbn [fst].
    assert (R : resumes (db_after (setDefaultResume id) db)
                = map (fun r => if String.eqb (res_id r) id
                                then set_is_default 1 r else r)
                    (map (set_is_default 0) (resumes db))) by reflexivity.
    split; [reflexivity|]. split.
    + unfold default_count. rewrite R.
      pose proof (count_set_one id (resumes db) Hd) as Le.
      pose proof (find_some _ _ Hr) as [Hin Eid]. apply String.eqb_eq in Eid.
      pose proof (count_default_after_set id (resumes db) r Hin Eid) as Ge. lia.
    + unfold outcome, getDefaultResume, query. cbn [fst].
      rewrite R, find_default_after_set, Hr.
      reflexivity.
  - intros Hr. unfold outcome, getResume, query in Hr. simpl in Hr. injection Hr as Hr.
    unfold ResumeManage.handleSetDefault. rewrite Ne.
    unfold bind, getResume, query. rewrite Hr. reflexivity.
Qed.

Lemma handleSetDefault_sets_the_one_default_or_nothing_witness :
  default_count (db_after (ResumeManage.handleSetDefault (Some "r2")) db_two_resumes) = 1
  /\ ResumeManage.handleSetDefault (Some "r9") db_two_resumes
     = (Ok ResumeManage.not_found, db_two_resumes).
Proof.
  assert (Hd : NoDup (map res_id (resumes db_two_resumes))).
  { simpl. constructor; [intros [H|[]]; discriminate H|].
    constructor; [intros []|constructor]. }
  split.
  - destruct (handleSetDefault_sets_the_one_default_or_nothing "r2" db_two_resumes)
      as [S _]; [discriminate|exact Hd|].
    apply (S (mkResumeRow "r2" "Resume 2" "/path/to/2.pdf" pdf None 0 20 20)).
    reflexivity.
  - destruct (handleSetDefault_sets_the_one_default_or_nothing "r9" db_two_resumes)
      as [_ N]; [discriminate|exact Hd|].
    apply N. reflexivity.
Defined.

(* ===================================================================== *)
(** ** The job scanner *)
(* ===================================================================== *)

Lemma includes_empty (s : string) : Js.includes s EmptyString = true.
Proof. destruct s; reflexivity. Qed.

Lemma some_In {A : Type} (f : A -> bool) (l : list A) (x : A) :
  In x l -> f x = true -> Js.some f l = true.
Proof.
  intros Hin Hf. unfold Js.some. apply existsb_exists. exists x. split; assumption.
Qed.

(** One turn of the loop of [scanJobBoard]. *)
Lemma scan_loop_cons (p : JobScanner.Preferences) (f : JobScanner.Found)
    (rest : list JobScanner.Found) (n : Z) (db : Db) :
  JobScanner.scan_loop p (f :: rest) n db
  = if existsb (is_listing (JobScanner.externalId (JobScanner.listing f))
                           (JobScanner.source (JobScanner.listing f))) (jobs db)
    then JobScanner.scan_loop p rest n db
    else if JobScanner.passesFilters (JobScanner.listing f) p
    then if existsb (fun x => String.eqb (job_id x) (JobScanner.found_id f)) (jobs db)
         then (Throw (ConstraintPrimaryKey "jobs"), db)
         else JobScanner.scan_loop p rest (n + 1)
                (set_jobs db (jobs db ++ [job_of_found f]))
    else JobScanner.scan_loop p rest n db.
Proof.
  cbn [JobScanner.scan_loop]. unfold bind at 1. unfold getJobByExternalId, query.
  fold (is_listing (JobScanner.externalId (JobScanner.listing f))
                   (JobScanner.source (JobScanner.listing f))).
  destruct (find _ (jobs db)) as [r|] eqn:F.
  - apply find_some in F.
    replace (existsb _ (jobs db)) with true; [reflexivity|].
    symmetry. apply existsb_exists. exists r. exact F.
  - replace (existsb (is_listing _ _) (jobs db)) with false.
    2:{ symmetry. apply not_true_is_false. intros E. apply existsb_exists in E.
        destruct E as (r & Hin & Hr). apply (find_none _ _ F) in Hin. congruence. }
    destruct (JobScanner.passesFilters (JobScanner.listing f) p); [|reflexivity].
    cbn [negb]. unfold bind, createJob, sql_insert, bind, ret. cbn [job_id jobs].
    destruct (existsb _ (jobs db)); reflexivity.
Qed.

Lemma set_jobs_same_rows (db : Db) : set_jobs db (jobs db ++ []) = db.
Proof. rewrite app_nil_r. destruct db; reflexivity. Qed.

Lemma set_jobs_twice (db : Db) (a b : list JobRow) :
  set_jobs (set_jobs db (jobs db ++ a)) (jobs (set_jobs db (jobs db ++ a)) ++ b)
  = set_jobs db (jobs db ++ a ++ b).
Proof. unfold set_jobs. cbn. rewrite app_assoc. reflexivity. Qed.

Lemma listing_keys_app (a b : list JobRow) :
  listing_keys (a ++ b) = listing_keys a ++ listing_keys b.
Proof. unfold listing_keys. apply flat_map_app. Qed.

Lemma is_listing_key (eid : string) (src : JobSource) (rows : list JobRow) :
  existsb (is_listing eid src) rows = true <-> In (eid, src) (listing_keys rows).
Proof.
  unfold listing_keys. rewrite existsb_exists, in_flat_map. split.
  - intros (r & Hin & Hr). exists r. split; [exact Hin|]. unfold is_listing in Hr.
    destruct (job_external_id r) as [x|]; [|discriminate].
    apply andb_true_iff in Hr. destruct Hr as [H1 H2].
    apply String.eqb_eq in H1. apply JobSource_eqb_eq in H2. subst. left. reflexivity.
  - intros (r & Hin & Hr). exists r. split; [exact Hin|]. unfold is_listing.
    destruct (job_external_id r) as [x|]; [|contradiction].
    destruct Hr as [Hr|[]]. injection Hr as -> ->.
    rewrite String.eqb_refl, JobSource_eqb_refl. reflexivity.
Qed.

Lemma NoDup_snoc {A : Type} (l : list A) (x : A) :
  NoDup l -> ~ In x l -> NoDup (l ++ [x]).
Proof.
  intros Hd Hn. induction l as [|y l IH]; simpl.
  - constructor; [intros []|constructor].
  - inversion Hd as [|y' l' Hy Hl]; subst. constructor.
    + intros Hin. apply in_app_or in Hin. destruct Hin as [Hin|[E|[]]].
      * contradiction.
      * apply Hn. left. symmetry. exact E.
    + apply IH; [exact Hl|]. intros Hin. apply Hn. right. exact Hin.
Qed.

Lemma listed_once_add (rows : list JobRow) (f : JobScanner.Found) :
  existsb (is_listing (JobScanner.externalId (JobScanner.listing f))
                      (JobScanner.source (JobScanner.listing f))) rows = false ->
  NoDup (listing_keys rows) -> NoDup (listing_keys (rows ++ [job_of_found f])).
Proof.
  intros Hn Hd. rewrite listing_keys_app. cbn. apply NoDup_snoc; [exact Hd|].
  intros Hin. apply is_listing_key in Hin. congruence.
Qed.

(** What the loop of [scanJobBoard] does to the database, whether it comes
    to its end or not. *)
Lemma scan_loop_appends (p : JobScanner.Preferences) (found : list JobScanner.Found) :
  forall (n : Z) (db : Db),
  exists added,
    db_after (JobScanner.scan_loop p found n) db = set_jobs db (jobs db ++ added)
    /\ Forall (stored_from p found) added
    /\ (listed_once db -> NoDup (listing_keys (jobs db ++ added)))
    /\ (forall m, outcome (JobScanner.scan_loop p found n) db = Ok m ->
          m = n + Z.of_nat (List.length added)).
Proof.
  assert (W : forall f rest added,
            Forall (stored_from p rest) added -> Forall (stored_from p (f :: rest)) added).
  { intros f rest added. apply Forall_impl. intros r (x & Hin & Hx).
    exists x. split; [right; exact Hin|exact Hx]. }
  assert (Step : forall f rest n db,
            (exists added,
               db_after (JobScanner.scan_loop p rest n) db
               = set_jobs db (jobs db ++ added)
               /\ Forall (stored_from p rest) added
               /\ (listed_once db -> NoDup (listing_keys (jobs db ++ added)))
               /\ (forall m, outcome (JobScanner.scan_loop p rest n) db = Ok m ->
                     m = n + Z.of_nat (List.length added))) ->
            exists added,
              db_after (JobScanner.scan_loop p rest n) db
              = set_jobs db (jobs db ++ added)
              /\ Forall (stored_from p (f :: rest)) added
              /\ (listed_once db -> NoDup (listing_keys (jobs db ++ added)))
              /\ (forall m, outcome (JobScanner.scan_loop p rest n) db = Ok m ->
                    m = n + Z.of_nat (List.length added))).
  { intros f rest n db (added & E & Fa & U & C). exists added.
    split; [exact E|]. split; [apply W; exact Fa|]. split; assumption. }
  induction found as [|f rest IH]; intros n db.
  - exists []. cbn. rewrite app_nil_r. repeat split.
    + destruct db; reflexivity.
    + constructor.
    + intros H; exact H.
    + intros m H. injection H as <-. lia.
  - unfold db_after, outcome. rewrite scan_loop_cons.
    destruct (existsb (is_listing _ _) (jobs db)) eqn:K; [apply Step, IH|].
    destruct (JobScanner.passesFilters (JobScanner.listing f) p) eqn:P;
      [|apply Step, IH].
    destruct (existsb (fun x => String.eqb (job_id x) _) (jobs db)) eqn:D.
    + exists []. cbn [fst snd]. rewrite app_nil_r. repeat split.
      * destruct db; reflexivity.
      * constructor.
      * intros H; exact H.
      * intros m H. discriminate H.
    + destruct (IH (n + 1) (set_jobs db (jobs db ++ [job_of_found f])))
        as (added & E & Fa & U & C).
      exists (job_of_found f :: added). split; [|split; [|split]].
      * unfold db_after in E. rewrite E.
        rewrite (set_jobs_twice db [job_of_found f] added). reflexivity.
      * constructor; [|apply W; exact Fa].
        exists f. split; [left; reflexivity|]. split; [reflexivity|exact P].
      * intros L. change (job_of_found f :: added) with ([job_of_found f] ++ added).
        rewrite app_assoc. apply U. unfold listed_once. cbn [jobs set_jobs].
        apply listed_once_add; assumption.
      * intros m H. apply C in H. cbn [List.length]. lia.
Qed.

Lemma existsb_app_left {A : Type} (f : A -> bool) (a b : list A) :
  existsb f a = true -> existsb f (a ++ b) = true.
Proof. intros H. rewrite existsb_app, H. reflexivity. Qed.

(** A scan that came to its end finds nothing new when it is repeated. *)
Lemma scan_loop_again (p : JobScanner.Preferences) (found : list JobScanner.Found) :
  forall (n m : Z) (db : Db),
    outcome (JobScanner.scan_loop p found n) db = Ok m ->
    forall (k : Z) (later : list JobRow),
      JobScanner.scan_loop p found k
        (set_jobs db (jobs (db_after (JobScanner.scan_loop p found n) db) ++ later))
      = (Ok k, set_jobs db (jobs (db_after (JobScanner.scan_loop p found n) db) ++ later)).
Proof.
  induction found as [|f rest IH]; intros n m db H k later; [reflexivity|].
  rewrite scan_loop_cons. cbn [jobs set_jobs].
  revert H. unfold outcome, db_after. rewrite scan_loop_cons.
  destruct (existsb (is_listing _ _) (jobs db)) eqn:K.
  - intros H. destruct (scan_loop_appends p rest n db) as (added & E & _).
    unfold db_after in E. pose proof (IH n m db H k later) as R.
    unfold db_after in R. rewrite E in *. cbn [jobs set_jobs] in *.
    rewrite <- app_assoc. rewrite (existsb_app_left _ _ _ K).
    rewrite <- app_assoc in R. exact R.
  - destruct (JobScanner.passesFilters (JobScanner.listing f) p) eqn:P.
    + destruct (existsb (fun x => String.eqb (job_id x) _) (jobs db)) eqn:D;
        [intros H; discriminate H|].
      intros H.
      destruct (scan_loop_appends p rest (n + 1)
                  (set_jobs db (jobs db ++ [job_of_found f]))) as (added & E & _).
      unfold db_after in E.
      pose proof (IH (n + 1) m (set_jobs db (jobs db ++ [job_of_found f])) H k later)
        as R.
      unfold db_after in R. rewrite E in *. cbn [jobs set_jobs] in *.
      assert (Kn : existsb (is_listing (JobScanner.externalId (JobScanner.listing f))
                              (JobScanner.source (JobScanner.listing f)))
                     (((jobs db ++ [job_of_found f]) ++ added) ++ later) = true).
      { rewrite <- !app_assoc. rewrite existsb_app. apply orb_true_iff. right.
        cbn. unfold is_listing at 1. cbn.
        rewrite String.eqb_refl, JobSource_eqb_refl. reflexivity. }
      rewrite Kn. exact R.
    + intros H. destruct (scan_loop_appends p rest n db) as (added & E & _).
      unfold db_after in E. pose proof (IH n m db H k later) as R.
      unfold db_after in R. rewrite E in *. cbn [jobs set_jobs] in *.
      destruct (existsb _ ((jobs db ++ added) ++ later)); exact R.
Qed.

(** X14. An empty string among the excluded companies or the excluded
    keywords excludes everything: every string contains the empty string,
    so no listing passes the filters and a scan stores nothing. *)
Theorem blank_exclusion_rejects_every_listing (p : JobScanner.Preferences) :
  In EmptyString (JobScanner.excludeCompanies p)
  \/ In EmptyString (JobScanner.excludeKeywords p) ->
  (forall job, JobScanner.passesFilters job p = false)
  /\ (forall found db, JobScanner.scanJobBoard p found db = (Ok 0, db)).
Proof.
  intros H.
  assert (F : forall job, JobScanner.passesFilters job p = false).
  { intros job. unfold JobScanner.passesFilters. destruct H as [H|H].
    - rewrite (some_In _ _ EmptyString H); [reflexivity|]. apply includes_empty.
    - destruct (Js.some _ (JobScanner.excludeCompanies p)); [reflexivity|].
      destruct (JobScanner.remoteOnly p && _); [reflexivity|].
      rewrite (some_In _ _ EmptyString H); [reflexivity|].
      cbn [Js.toLowerCase]. rewrite includes_empty. reflexivity. }
  split; [exact F|].
  intros found db. unfold JobScanner.scanJobBoard. generalize 0 as n.
  induction found as [|f rest IH]; intros n; [reflexivity|].
  rewrite scan_loop_cons, F. destruct (existsb _ (jobs db)); apply IH.
Qed.

Lemma blank_exclusion_rejects_every_listing_witness :
  JobScanner.scanJobBoard
    (JobScanner.mkPreferences ["Engineer"] [] None None false [] [] ["intern"; ""])
    found_example empty_db
  = (Ok 0, empty_db).
Proof.
  apply blank_exclusion_rejects_every_listing. right. simpl. right. left. reflexivity.
Defined.

Lemma some_false_iff {A : Type} (f : A -> bool) (l : list A) :
  Js.some f l = false <-> forall x, In x l -> f x = false.
Proof.
  unfold Js.some. split.
  - intros H x Hin. apply not_true_is_false. intros Fx.
    assert (E : existsb f l = true) by (apply existsb_exists; exists x; split; assumption).
    congruence.
  - intros H. apply not_true_is_false. intros E. apply existsb_exists in E.
    destruct E as (x & Hin & Fx). rewrite (H x Hin) in Fx. discriminate.
Qed.

Lemma includes_ci_false (s w : string) :
  Js.includes (Js.toLowerCase s) (Js.toLowerCase w) = false <-> ~ ci_occurs w s.
Proof.
  rewrite <- includes_ci. destruct (Js.includes _ _); split; congruence.
Qed.

(** X15. The filters of the scanner, in words: a listing passes exactly
    when no excluded company occurs in its company name, no excluded
    keyword occurs in its title or in its description, and, when only
    remote jobs are wanted, "remote" occurs in its location; all of it
    without regard to case, and with a missing location or description
    read as empty.  The salary bounds, the wanted locations and the wanted
    keywords of the preferences play no part. *)
Theorem passesFilters_in_words (job : JobScanner.Listing) (p : JobScanner.Preferences) :
  JobScanner.passesFilters job p = true <->
  (forall c, In c (JobScanner.excludeCompanies p) ->
     ~ ci_occurs c (JobScanner.company job))
  /\ (JobScanner.remoteOnly p = true ->
      ci_occurs "remote" (nullish (JobScanner.location job) ""))
  /\ (forall kw, In kw (JobScanner.excludeKeywords p) ->
        ~ ci_occurs kw (JobScanner.title job)
        /\ ~ ci_occurs kw (nullish (JobScanner.description job) "")).
Proof.
  unfold JobScanner.passesFilters.
  change (Js.includes (Js.toLowerCase (nullish (JobScanner.location job) "")) "remote")
    with (Js.includes (Js.toLowerCase (nullish (JobScanner.location job) ""))
            (Js.toLowerCase "remote")).
  destruct (Js.some _ (JobScanner.excludeCompanies p)) eqn:C.
  - split; [discriminate|]. intros (H & _). exfalso.
    unfold Js.some in C. apply existsb_exists in C. destruct C as (c & Hin & Hc).
    apply includes_ci in Hc. exact (H c Hin Hc).
  - pose proof (proj1 (some_false_iff _ _) C) as C'.
    destruct (JobScanner.remoteOnly p) eqn:Rm; cbn [andb].
    + destruct (Js.includes _ (Js.toLowerCase "remote")) eqn:L; cbn [negb].
      * destruct (Js.some _ (JobScanner.excludeKeywords p)) eqn:K.
        -- split; [discriminate|]. intros (_ & _ & H). exfalso.
           unfold Js.some in K. apply existsb_exists in K.
           destruct K as (kw & Hin & Hk). apply orb_true_iff in Hk.
           destruct (H kw Hin) as [H1 H2].
           destruct Hk as [Hk|Hk]; apply includes_ci in Hk; contradiction.
        -- pose proof (proj1 (some_false_iff _ _) K) as K'.
           split; [intros _|reflexivity]. split; [|split].
           ++ intros c Hin. apply includes_ci_false. exact (C' c Hin).
           ++ intros _. apply includes_ci. exact L.
           ++ intros kw Hin. specialize (K' kw Hin). apply orb_false_iff in K'.
              destruct K' as [K1 K2]. split; apply includes_ci_false; assumption.
      * split; [discriminate|]. intros (_ & H & _). exfalso.
        specialize (H eq_refl). apply includes_ci in H. congruence.
    + destruct (Js.some _ (JobScanner.excludeKeywords p)) eqn:K.
      * split; [discriminate|]. intros (_ & _ & H). exfalso.
        unfold Js.some in K. apply existsb_exists in K.
        destruct K as (kw & Hin & Hk). apply orb_true_iff in Hk.
        destruct (H kw Hin) as [H1 H2].
        destruct Hk as [Hk|Hk]; apply includes_ci in Hk; contradiction.
      * pose proof (proj1 (some_false_iff _ _) K) as K'.
        split; [intros _|reflexivity]. split; [|split].
        -- intros c Hin. apply includes_ci_false. exact (C' c Hin).
        -- discriminate.
        -- intros kw Hin. specialize (K' kw Hin). apply orb_false_iff in K'.
           destruct K' as [K1 K2]. split; apply includes_ci_false; assumption.
Qed.

(** X16. [scanJobBoard] reports what it stores.  When it returns, the jobs
    table is the old one followed by the new jobs, their number is the
    number it returns, every new job is the row of a listing that passes
    the filters (with status "new" and currency USD), the other tables are
    as they were, and, if no listing was stored twice before, none is
    stored twice after: a listing of the search that is stored already, or
    that occurs twice in the search, is skipped. *)
Theorem scanJobBoard_stores_each_new_listing_once
    (p : JobScanner.Preferences) (found : list JobScanner.Found) (db : Db) (n : Z) :
  outcome (JobScanner.scanJobBoard p found) db = Ok n ->
  exists added,
    db_after (JobScanner.scanJobBoard p found) db = set_jobs db (jobs db ++ added)
    /\ n = Z.of_nat (List.length added)
    /\ Forall (stored_from p found) added
    /\ (listed_once db -> listed_once (db_after (JobScanner.scanJobBoard p found) db)).
Proof.
  intros H. unfold JobScanner.scanJobBoard in *.
  destruct (scan_loop_appends p found 0 db) as (added & E & Fa & U & C).
  exists added. split; [exact E|]. split; [apply (C n H)|]. split; [exact Fa|].
  intros L. unfold listed_once. rewrite E. cbn [jobs set_jobs]. apply U. exact L.
Qed.

Lemma scanJobBoard_stores_each_new_listing_once_witness :
  exists added,
    db_after (JobScanner.scanJobBoard prefs_example found_example) empty_db
    = set_jobs empty_db (jobs empty_db ++ added)
    /\ 1 = Z.of_nat (List.length added)
    /\ Forall (stored_from prefs_example found_example) added
    /\ (listed_once empty_db ->
        listed_once (db_after (JobScanner.scanJobBoard prefs_example found_example)
                       empty_db)).
Proof.
  apply scanJobBoard_stores_each_new_listing_once. reflexivity.
Defined.

(** X17. A scan that is repeated on the same listings finds nothing new:
    after [scanJobBoard] has returned, the same search results give the
    count 0 and leave the database as it is, whatever the clock and the
    identifiers of the second run. *)
Theorem rescan_finds_nothing_new
    (p : JobScanner.Preferences) (found : list JobScanner.Found) (db : Db) (n : Z) :
  outcome (JobScanner.scanJobBoard p found) db = Ok n ->
  JobScanner.scanJobBoard p found (db_after (JobScanner.scanJobBoard p found) db)
  = (Ok 0, db_after (JobScanner.scanJobBoard p found) db).
Proof.
  intros H. unfold JobScanner.scanJobBoard in *.
  pose proof (scan_loop_again p found 0 n db H 0 []) as R.
  destruct (scan_loop_appends p found 0 db) as (added & E & _).
  rewrite E in *. cbn [jobs set_jobs] in R. rewrite app_nil_r in R. exact R.
Qed.

Lemma rescan_finds_nothing_new_witness :
  JobScanner.scanJobBoard prefs_example found_example
    (db_after (JobScanner.scanJobBoard prefs_example found_example) empty_db)
  = (Ok 0, db_after (JobScanner.scanJobBoard prefs_example found_example) empty_db).
Proof.
  apply (rescan_finds_nothing_new prefs_example found_example empty_db 1).
  reflexivity.
Defined.

(** What the searches of a scan do, from any search number and any running
    total. *)
Lemma scan_searches_appends
    (g : nat -> string -> option string -> JobSource -> list JobScanner.Found)
    (p : JobScanner.Preferences) (todo : list (JobSource * string * string)) :
  forall (i : nat) (total : Z) (db : Db),
  exists total' added,
    JobScanner.scan_searches g p i todo total db
    = (Ok total', set_jobs db (jobs db ++ added))
    /\ total <= total' <= total + Z.of_nat (List.length added)
    /\ Forall (stored_by p) added
    /\ (listed_once db -> NoDup (listing_keys (jobs db ++ added))).
Proof.
  induction todo as [|[[source title] location] rest IH]; intros i total db.
  - exists total, []. cbn. rewrite app_nil_r. repeat split; try lia.
    + destruct db; reflexivity.
    + constructor.
    + intros H; exact H.
  - cbn [JobScanner.scan_searches]. unfold bind at 1, catch, bind at 1.
    unfold JobScanner.scanJobBoard.
    destruct (scan_loop_appends p (g i title (Js.nonempty (Some location)) source) 0 db)
      as (added & E & Fa & U & C).
    unfold db_after, outcome in E, C.
    assert (Fb : Forall (stored_by p) added).
    { revert Fa. apply Forall_impl. intros r (f & _ & Hf). exists f. exact Hf. }
    clear Fa. rename Fb into Fa.
    destruct (JobScanner.scan_loop p _ 0 db) as [[m|e] db1] eqn:S; cbn [fst snd] in E, C.
    + subst db1. specialize (C m eq_refl). unfold ret.
      destruct (IH (Datatypes.S i) (total + m) (set_jobs db (jobs db ++ added)))
        as (total' & added' & R & B & Fa' & U').
      exists total', (added ++ added'). split; [|split; [|split]].
      * rewrite R. rewrite (set_jobs_twice db added added'). reflexivity.
      * rewrite length_app, Nat2Z.inj_add. lia.
      * apply Forall_app. split; assumption.
      * intros L. rewrite app_assoc. apply U'. unfold listed_once.
        cbn [jobs set_jobs]. apply U. exact L.
    + subst db1. unfold ret.
      destruct (IH (Datatypes.S i) total (set_jobs db (jobs db ++ added)))
        as (total' & added' & R & B & Fa' & U').
      exists total', (added ++ added'). split; [|split; [|split]].
      * rewrite R. rewrite (set_jobs_twice db added added'). reflexivity.
      * rewrite length_app, Nat2Z.inj_add. lia.
      * apply Forall_app. split; assumption.
      * intros L. rewrite app_assoc. apply U'. unfold listed_once.
        cbn [jobs set_jobs]. apply U. exact L.
Qed.

(** X18. [runScan] never raises and only adds jobs.  Whatever the searches
    produce, it comes to its end; the jobs table is the old one followed by
    new jobs that pass the filters, and nothing else is written; the total
    it reports is at most the number of jobs it added (a search that fails
    half way keeps what it stored and counts nothing); no listing is stored
    twice if none was; and with no job title or no job board configured it
    adds nothing. *)
Theorem runScan_never_raises_and_only_adds_jobs
    (g : nat -> string -> option string -> JobSource -> list JobScanner.Found)
    (defaultJobBoards : list JobSource) (p : JobScanner.Preferences) (db : Db) :
  exists total added,
    JobScanner.runScan g defaultJobBoards p db
    = (Ok total, set_jobs db (jobs db ++ added))
    /\ 0 <= total <= Z.of_nat (List.length added)
    /\ Forall (stored_by p) added
    /\ (listed_once db -> NoDup (listing_keys (jobs db ++ added)))
    /\ (JobScanner.titles p = [] \/ defaultJobBoards = [] -> added = []).
Proof.
  unfold JobScanner.runScan.
  destruct (JobScanner.titles p) as [|t ts] eqn:T.
  - exists 0, []. cbn. rewrite app_nil_r. repeat split; try lia.
    + destruct db; reflexivity.
    + constructor.
    + intros H; exact H.
  - destruct defaultJobBoards as [|b bs].
    + exists 0, []. cbn. rewrite app_nil_r. repeat split; try lia.
      * destruct db; reflexivity.
      * constructor.
      * intros H; exact H.
    + destruct (scan_searches_appends g p (JobScanner.searches (b :: bs) p) 0 0 db)
        as (total & added & R & B & Fa & U).
      exists total, added. split; [exact R|]. split; [lia|]. split; [exact Fa|].
      split; [exact U|]. intros [H|H]; discriminate H.
Qed.

(* ===================================================================== *)
(** ** The scan interval *)
(* ===================================================================== *)

Lemma split_last_snoc (s : string) (c : ascii) :
  JobScanner.split_last (s ++ String c EmptyString) = Some (s, c).
Proof.
  induction s as [|a s IH]; [reflexivity|].
  cbn [String.append JobScanner.split_last]. rewrite IH.
  destruct (s ++ String c EmptyString)%string eqn:E; [|reflexivity].
  destruct s; discriminate E.
Qed.

Lemma split_last_inv (s front : string) (c : ascii) :
  JobScanner.split_last s = Some (front, c) -> s = (front ++ String c EmptyString)%string.
Proof.
  revert front. induction s as [|a s IH]; intros front H; [discriminate H|].
  cbn [JobScanner.split_last] in H. destruct s as [|b s].
  - injection H as <- <-. reflexivity.
  - destruct (JobScanner.split_last (String b s)) as [[f l]|] eqn:E; [|discriminate H].
    injection H as <- <-. cbn [String.append]. f_equal. apply IH. reflexivity.
Qed.

(** The value of a digit character, computed. *)
Ltac digit_value :=
  match goal with
  | |- context [Z.of_N (N_of_ascii ?c)] =>
      let v := eval vm_compute in (Z.of_N (N_of_ascii c)) in
      change (Z.of_N (N_of_ascii c)) with v
  end; lia.

Lemma parseInt_from_of_uint_acc (d : Decimal.uint) (acc : positive) :
  JobScanner.parseInt_from (Z.pos acc) (NilEmpty.string_of_uint d)
  = Z.pos (Pos.of_uint_acc d acc).
Proof.
  revert acc. induction d; intros acc; cbn [NilEmpty.string_of_uint Pos.of_uint_acc
    JobScanner.parseInt_from]; [reflexivity|..];
    match goal with
    | |- JobScanner.parseInt_from ?a _ = Z.pos (Pos.of_uint_acc _ ?b) =>
        replace a with (Z.pos b) by digit_value; apply IHd
    end.
Qed.

Lemma parseInt_of_uint (d : Decimal.uint) :
  JobScanner.parseInt (NilEmpty.string_of_uint d) = Z.of_N (Pos.of_uint d).
Proof.
  unfold JobScanner.parseInt.
  induction d; cbn [NilEmpty.string_of_uint Pos.of_uint JobScanner.parseInt_from];
    [reflexivity|exact IHd|..];
    match goal with
    | |- JobScanner.parseInt_from ?a _ = Z.of_N (N.pos (Pos.of_uint_acc _ ?b)) =>
        replace a with (Z.pos b) by digit_value; apply parseInt_from_of_uint_acc
    end.
Qed.

Lemma all_digits_of_uint (d : Decimal.uint) :
  JobScanner.all_digits (NilEmpty.string_of_uint d) = true.
Proof. induction d; cbn; [reflexivity|..]; exact IHd. Qed.

Lemma decimal_nonempty (n : N) : NilEmpty.string_of_uint (N.to_uint n) <> EmptyString.
Proof.
  intros E. pose proof (DecimalN.Unsigned.of_to n) as R.
  destruct (N.to_uint n) eqn:U; try discriminate E.
  cbn in R. subst n. discriminate U.
Qed.

Lemma parseInterval_matched (digits : string) (unit : ascii) :
  JobScanner.match_interval (digits ++ String unit EmptyString)
  = match digits with
    | EmptyString => None
    | String _ _ =>
        if JobScanner.all_digits digits && JobScanner.is_unit unit
        then Some (digits, unit) else None
    end.
Proof. unfold JobScanner.match_interval. rewrite split_last_snoc. reflexivity. Qed.

Lemma parseInterval_unit (digits : string) (unit : ascii) :
  JobScanner.match_interval (digits ++ String unit EmptyString) = Some (digits, unit) ->
  JobScanner.parseInterval (digits ++ String unit EmptyString)
  = JobScanner.parseInt digits * unit_millis unit.
Proof.
  intros M. unfold JobScanner.parseInterval. rewrite M. unfold unit_millis.
  destruct (Ascii.eqb unit "s"); [lia|]. destruct (Ascii.eqb unit "m"); [lia|].
  destruct (Ascii.eqb unit "h"); [lia|]. destruct (Ascii.eqb unit "d"); lia.
Qed.

(** X19. [parseInterval] reads back a printed interval: a number written in
    decimal and followed by one of the units s, m, h, d gives that number
    of seconds, minutes, hours or days in milliseconds.  The bound keeps
    the numbers where the arithmetic of the source is exact. *)
Theorem parseInterval_reads_decimal (n : N) (unit : ascii) :
  JobScanner.is_unit unit = true ->
  Z.of_N n * unit_millis unit < 2 ^ 53 ->
  JobScanner.parseInterval (print_interval n unit) = Z.of_N n * unit_millis unit.
Proof.
  intros U _. unfold print_interval.
  rewrite parseInterval_unit.
  - rewrite parseInt_of_uint. change (Pos.of_uint (N.to_uint n)) with (N.of_uint (N.to_uint n)).
    rewrite DecimalN.Unsigned.of_to. reflexivity.
  - rewrite parseInterval_matched. pose proof (decimal_nonempty n) as Ne.
    destruct (NilEmpty.string_of_uint (N.to_uint n)) as [|a s] eqn:E; [congruence|].
    rewrite <- E, all_digits_of_uint, U. reflexivity.
Qed.

Lemma parseInterval_reads_decimal_witness :
  JobScanner.parseInterval "6h" = 6 * (60 * 60 * 1000).
Proof.
  apply (parseInterval_reads_decimal 6 "h"); [reflexivity|].
  vm_compute. reflexivity.
Defined.

Lemma parseInt_from_ge (digits : string) :
  forall acc, 0 <= acc -> JobScanner.all_digits digits = true ->
    acc <= JobScanner.parseInt_from acc digits.
Proof.
  induction digits as [|c r IH]; intros acc A D; [cbn; lia|].
  cbn [JobScanner.all_digits] in D. apply andb_true_iff in D. destruct D as [D1 D2].
  unfold Js.is_digit in D1. apply andb_true_iff in D1. destruct D1 as [L H].
  apply N.leb_le in L. cbn [JobScanner.parseInt_from].
  assert (B : 0 <= Z.of_N (N_of_ascii c) - 48) by lia.
  specialize (IH (10 * acc + (Z.of_N (N_of_ascii c) - 48)) ltac:(lia) D2). lia.
Qed.

Lemma unit_millis_pos (unit : ascii) : JobScanner.is_unit unit = true -> 0 < unit_millis unit.
Proof.
  unfold JobScanner.is_unit, unit_millis. intros H.
  destruct (Ascii.eqb unit "s"); [lia|]. destruct (Ascii.eqb unit "m"); [lia|].
  destruct (Ascii.eqb unit "h"); [lia|]. destruct (Ascii.eqb unit "d"); [lia|].
  discriminate H.
Qed.

(** X20. [parseInterval] is never negative, and it is positive, so that
    the scanner is scheduled, exactly for a non-empty run of digits that is
    not all zeros followed by one unit letter s, m, h or d.  Everything
    else (the empty string, a bare number, an upper-case unit, a sign, a
    space, a fraction) gives 0, and the scanner is not scheduled. *)
Theorem parseInterval_positive_iff_well_formed (interval : string) :
  0 <= JobScanner.parseInterval interval
  /\ (0 < JobScanner.parseInterval interval <->
      exists digits unit,
        interval = (digits ++ String unit EmptyString)%string
        /\ digits <> EmptyString
        /\ JobScanner.all_digits digits = true
        /\ JobScanner.is_unit unit = true
        /\ 0 < JobScanner.parseInt digits).
Proof.
  destruct (JobScanner.match_interval interval) as [[digits unit]|] eqn:M.
  - assert (S : interval = (digits ++ String unit EmptyString)%string
                /\ digits <> EmptyString
                /\ JobScanner.all_digits digits = true
                /\ JobScanner.is_unit unit = true).
    { unfold JobScanner.match_interval in M.
      destruct (JobScanner.split_last interval) as [[d u]|] eqn:S; [|discriminate M].
      apply split_last_inv in S. destruct d as [|a d]; [discriminate M|].
      destruct (JobScanner.all_digits (String a d) && JobScanner.is_unit u) eqn:C;
        [|discriminate M].
      injection M as <- <-. apply andb_true_iff in C. destruct C as [C1 C2].
      repeat split; try assumption. discriminate. }
    destruct S as (-> & Ne & D & U).
    rewrite (parseInterval_unit _ _ M).
    pose proof (parseInt_from_ge digits 0 ltac:(lia) D) as P.
    fold (JobScanner.parseInt digits) in P.
    pose proof (unit_millis_pos unit U) as Q.
    split; [nia|]. split.
    + intros H. exists digits, unit. repeat split; try assumption. nia.
    + intros (d' & u' & E & _ & _ & _ & H).
      assert (E' : JobScanner.split_last (digits ++ String unit EmptyString)
                   = JobScanner.split_last (d' ++ String u' EmptyString))
        by (rewrite E; reflexivity).
      rewrite !split_last_snoc in E'. injection E' as -> ->. nia.
  - unfold JobScanner.parseInterval. rewrite M. split; [lia|]. split; [lia|].
    intros (d & u & -> & Ne & D & U & _). rewrite parseInterval_matched in M.
    destruct d as [|a d]; [congruence|]. rewrite D, U in M. discriminate M.
Qed.

(* ===================================================================== *)
(** ** The apply tool *)
(* ===================================================================== *)

(** [execute], path by path. *)
Lemma execute_run (fullName : string -> option string) (params : JobApply.ApplyParams)
    (env : JobApply.Env) (db : Db) :
  JobApply.execute fullName params env db
  = match find (fun r => String.eqb (job_id r) (JobApply.ap_job_id params)) (jobs db) with
    | None => (Ok JobApply.job_not_found, db)
    | Some job =>
        match find (fun r => String.eqb (app_job_id r) (JobApply.ap_job_id params))
                (applications db) with
        | Some a =>
            if JobApply.is_pending a
            then match resume_for params db with
                 | None => (Ok JobApply.no_resume, db)
                 | Some resume =>
                     if wants_preview params
                     then (Ok (JobApply.pending_confirmation (app_id a)), db)
                     else reported (submit_steps params env (app_id a)) db
                 end
            else (Ok (JobApply.already_applied a), db)
        | None =>
            match resume_for params db with
            | None => (Ok JobApply.no_resume, db)
            | Some resume =>
                if existsb (fun x => String.eqb (app_id x) (JobApply.id_create env))
                     (applications db)
                then (Ok (JobApply.error (ConstraintPrimaryKey "applications")), db)
                else if wants_preview params
                then (Ok (JobApply.pending_confirmation (JobApply.id_create env)),
                      set_applications db
                        (applications db
                         ++ [new_application fullName params env job resume
                               (Some "Pending user confirmation")]))
                else reported (submit_steps params env (JobApply.id_create env))
                       (set_applications db
                          (applications db
                           ++ [new_application fullName params env job resume None]))
            end
        end
    end.
Proof.
  unfold JobApply.execute, catch, bind at 1. unfold getJob at 1, query at 1.
  destruct (find _ (jobs db)) as [job|] eqn:Hj; [|reflexivity].
  assert (K : existsb (fun p => String.eqb (job_id p) (JobApply.ap_job_id params))
                (jobs db) = true)
    by (apply (find_existsb _ _ _ Hj)).
  unfold bind at 1. unfold getApplicationByJobId at 1, query at 1.
  assert (T : forall existing,
    match JobApply.preview_or_submit fullName params env job existing db with
    | (Ok a, db') => (Ok a, db')
    | (Throw e, db') => ret (JobApply.error e) db'
    end
    = match resume_for params db with
      | None => (Ok JobApply.no_resume, db)
      | Some resume =>
          match existing with
          | Some a =>
              if wants_preview params
              then (Ok (JobApply.pending_confirmation (app_id a)), db)
              else reported (submit_steps params env (app_id a)) db
          | None =>
              if existsb (fun x => String.eqb (app_id x) (JobApply.id_create env))
                   (applications db)
              then (Ok (JobApply.error (ConstraintPrimaryKey "applications")), db)
              else if wants_preview params
              then (Ok (JobApply.pending_confirmation (JobApply.id_create env)),
                    set_applications db
                      (applications db
                       ++ [new_application fullName params env job resume
                             (Some "Pending user confirmation")]))
              else reported (submit_steps params env (JobApply.id_create env))
                     (set_applications db
                        (applications db
                         ++ [new_application fullName params env job resume None]))
          end
      end).
  { intros existing. unfold JobApply.preview_or_submit, resume_for.
    unfold bind at 1.
    assert (R : (match Js.nonempty (JobApply.ap_resume_id params) with
                 | Some resume_id => getResume resume_id
                 | None => getDefaultResume
                 end) db
                = (Ok (match Js.nonempty (JobApply.ap_resume_id params) with
                       | Some id => find (fun r => String.eqb (res_id r) id) (resumes db)
                       | None => find (fun r => res_is_default r =? 1) (resumes db)
                       end), db))
      by (destruct (Js.nonempty (JobApply.ap_resume_id params)); reflexivity).
    rewrite R. clear R.
    destruct (match Js.nonempty (JobApply.ap_resume_id params) with
              | Some id => find (fun r => String.eqb (res_id r) id) (resumes db)
              | None => find (fun r => res_is_default r =? 1) (resumes db)
              end) as [resume|]; [|reflexivity].
    fold (wants_preview params). fold (letter_for fullName params job resume).
    destruct (wants_preview params).
    - destruct existing as [a|]; [reflexivity|].
      unfold bind, createApplication, sql_insert_ref, bind, ret.
      cbn [app_id app_job_id p_jobId].
      destruct (existsb _ (applications db)); [reflexivity|].
      rewrite K. reflexivity.
    - destruct existing as [a|].
      + reflexivity.
      + unfold bind at 1. unfold createApplication, sql_insert_ref, bind at 1, ret at 1.
        cbn [app_id app_job_id p_jobId].
        destruct (existsb _ (applications db)); [reflexivity|].
        rewrite K. reflexivity. }
  destruct (find _ (applications db)) as [a|].
  - destruct (JobApply.is_pending a); cbn [negb]; [exact (T (Some a))|reflexivity].
  - exact (T None).
Qed.

Lemma submit_steps_run (params : JobApply.ApplyParams) (env : JobApply.Env)
    (id : string) (d : Db) :
  reported (submit_steps params env id) d
  = if match application_of d id with
       | Some _ => existsb (fun h => String.eqb (hist_id h) (JobApply.historyId env))
                     (application_history d)
       | None => false
       end
    then (Ok (JobApply.error (ConstraintPrimaryKey "application_history")),
          db_after (updateApplicationStatus id ApplicationStatus.submitted
                      (Some "Application submitted successfully")
                      (JobApply.now_submit env) (JobApply.historyId env)) d)
    else (Ok (JobApply.submitted id),
          db_after (updateJobStatus (JobApply.ap_job_id params) JobStatus.applied)
            (db_after (updateApplicationStatus id ApplicationStatus.submitted
                         (Some "Application submitted successfully")
                         (JobApply.now_submit env) (JobApply.historyId env)) d)).
Proof.
  unfold reported, catch, submit_steps, bind at 1.
  rewrite updateApplicationStatus_run.
  destruct (application_of d id); [|reflexivity].
  destruct (existsb _ (application_history d)); reflexivity.
Qed.

Lemma submit_steps_applications (params : JobApply.ApplyParams) (env : JobApply.Env)
    (id : string) (d : Db) :
  applications (db_after (reported (submit_steps params env id)) d)
  = map (status_row_update id ApplicationStatus.submitted (JobApply.now_submit env))
      (applications d).
Proof.
  unfold db_after at 1. rewrite submit_steps_run.
  destruct (match application_of d id with Some _ => _ | None => false end);
    cbn [snd]; [apply updateApplicationStatus_applications|].
  change (applications (db_after (updateJobStatus _ _) ?x)) with (applications x).
  apply updateApplicationStatus_applications.
Qed.

Lemma status_row_update_job_ids id st now rows :
  map app_job_id (map (status_row_update id st now) rows) = map app_job_id rows.
Proof.
  rewrite map_map. apply map_ext. intros r. unfold status_row_update.
  destruct (String.eqb (app_id r) id); reflexivity.
Qed.

Lemma find_key_none {R : Type} (key : R -> string) (id : string) (rows : list R) :
  find (fun r => String.eqb (key r) id) rows = None -> ~ In id (map key rows).
Proof.
  intros F Hin. apply in_map_iff in Hin. destruct Hin as (r & E & Hin).
  apply (find_none _ _ F) in Hin. cbv beta in Hin. rewrite E, String.eqb_refl in Hin.
  discriminate Hin.
Qed.

(** The job ids of the applications after a call of the apply tool: as
    before, or with the job of the call added when it had no application. *)
Lemma execute_application_jobs fullName params env db :
  map app_job_id (applications (db_after (JobApply.execute fullName params env) db))
  = map app_job_id (applications db)
  \/ (~ In (JobApply.ap_job_id params) (map app_job_id (applications db))
      /\ map app_job_id
           (applications (db_after (JobApply.execute fullName params env) db))
         = map app_job_id (applications db) ++ [JobApply.ap_job_id params]).
Proof.
  unfold db_after at 1 2. rewrite execute_run.
  destruct (find _ (jobs db)) as [job|]; [|left; reflexivity].
  destruct (find _ (applications db)) as [a|] eqn:Fa.
  - destruct (JobApply.is_pending a); [|left; reflexivity].
    destruct (resume_for params db) as [resume|]; [|left; reflexivity].
    destruct (wants_preview params); [left; reflexivity|]. left.
    fold (db_after (reported (submit_steps params env (app_id a))) db).
    rewrite submit_steps_applications. apply status_row_update_job_ids.
  - apply find_key_none in Fa.
    destruct (resume_for params db) as [resume|]; [|left; reflexivity].
    destruct (existsb _ (applications db)); [left; reflexivity|].
    right. split; [exact Fa|].
    destruct (wants_preview params).
    + cbn [snd applications set_applications]. rewrite map_app. reflexivity.
    + match goal with
      | |- context [snd (reported ?m ?d)] => fold (db_after (reported m) d)
      end.
      rewrite submit_steps_applications, status_row_update_job_ids.
      cbn [applications set_applications]. rewrite map_app. reflexivity.
Qed.

(** X21. No job gets a second application.  The table has no such
    constraint, and [createApplication] does not look; the apply tool and
    the gateway method that create applications both look first, so each
    of them keeps the jobs of the applications distinct. *)
Theorem callers_keep_one_application_per_job
    (fullName : string -> option string) (params : JobApply.ApplyParams)
    (env : JobApply.Env)
    (jobId resumeId coverLetter answers notes : option string) (now : Z) (id : string)
    (db : Db) :
  one_application_per_job db ->
  one_application_per_job (db_after (JobApply.execute fullName params env) db)
  /\ one_application_per_job
       (db_after (Gateway.applications_create jobId resumeId coverLetter answers
                    notes now id) db).
Proof.
  unfold one_application_per_job. intros H. split.
  - destruct (execute_application_jobs fullName params env db) as [E|[N E]];
      rewrite E; [exact H|]. apply NoDup_app_one; assumption.
  - unfold db_after, Gateway.applications_create, catch.
    destruct (Js.nonempty jobId) as [j|]; [|exact H].
    unfold bind at 1, getApplicationByJobId, query.
    destruct (find _ (applications db)) as [a|] eqn:Fa; [exact H|].
    apply find_key_none in Fa.
    unfold bind, createApplication, sql_insert_ref, bind, ret.
    cbn [app_id app_job_id p_jobId].
    destruct (existsb _ (applications db)); [exact H|].
    destruct (existsb _ (jobs db)); [|exact H].
    cbn [snd applications set_applications]. rewrite map_app.
    apply NoDup_app_one; assumption.
Qed.

Lemma callers_keep_one_application_per_job_witness :
  one_application_per_job
    (db_after (JobApply.execute no_name confirm_call env_apply_later)
       (db_after (JobApply.execute no_name preview_call env_apply) db_to_apply))
  /\ one_application_per_job
       (db_after (Gateway.applications_create (Some "j1") None None None None 300 "a3")
          (db_after (JobApply.execute no_name preview_call env_apply) db_to_apply)).
Proof.
  apply callers_keep_one_application_per_job.
  unfold one_application_per_job. vm_compute.
  constructor; [intros []|constructor].
Defined.

Lemma wants_preview_unconfirmed (params : JobApply.ApplyParams) :
  JobApply.ap_dry_run params = Some true \/ JobApply.ap_confirm params <> Some true ->
  wants_preview params = true.
Proof.
  unfold wants_preview. intros [H|H].
  - rewrite H. reflexivity.
  - destruct (JobApply.ap_confirm params) as [[|]|]; [congruence| |];
      apply orb_true_r.
Qed.

Lemma wants_preview_confirmed (params : JobApply.ApplyParams) :
  JobApply.ap_confirm params = Some true -> JobApply.ap_dry_run params <> Some true ->
  wants_preview params = false.
Proof.
  unfold wants_preview. intros C D. rewrite C.
  destruct (JobApply.ap_dry_run params) as [[|]|]; [congruence| |]; reflexivity.
Qed.

(** X22. Without a confirmation the apply tool submits nothing.  A call
    that is a dry run, or that is not confirmed, changes no job, writes no
    history record and touches no resume or thread; the applications are
    as they were, or there is one more, in status "pending" and with the
    note "Pending user confirmation". *)
Theorem unconfirmed_call_submits_nothing
    (fullName : string -> option string) (params : JobApply.ApplyParams)
    (env : JobApply.Env) (db : Db) :
  JobApply.ap_dry_run params = Some true \/ JobApply.ap_confirm params <> Some true ->
  jobs (db_after (JobApply.execute fullName params env) db) = jobs db
  /\ application_history (db_after (JobApply.execute fullName params env) db)
     = application_history db
  /\ resumes (db_after (JobApply.execute fullName params env) db) = resumes db
  /\ email_threads (db_after (JobApply.execute fullName params env) db)
     = email_threads db
  /\ (applications (db_after (JobApply.execute fullName params env) db)
      = applications db
      \/ exists job resume,
           applications (db_after (JobApply.execute fullName params env) db)
           = applications db
             ++ [mkApplicationRow (JobApply.id_create env) (JobApply.ap_job_id params)
                   ApplicationStatus.pending None (Some (res_id resume))
                   (Some (letter_for fullName params job resume))
                   (JobApply.ap_answers params) (Some "Pending user confirmation")
                   (JobApply.now_create env) (JobApply.now_create env)
                   (JobApply.now_create env)]).
Proof.
  intros H. apply wants_preview_unconfirmed in H.
  unfold db_after. rewrite execute_run, H.
  destruct (find _ (jobs db)) as [job|]; [|repeat split; left; reflexivity].
  destruct (find _ (applications db)) as [a|].
  - destruct (JobApply.is_pending a); [|repeat split; left; reflexivity].
    destruct (resume_for params db) as [resume|]; repeat split; left; reflexivity.
  - destruct (resume_for params db) as [resume|]; [|repeat split; left; reflexivity].
    destruct (existsb _ (applications db)); [repeat split; left; reflexivity|].
    repeat split. right. exists job, resume. reflexivity.
Qed.

Lemma unconfirmed_call_submits_nothing_witness :
  jobs (db_after (JobApply.execute no_name preview_call env_apply) db_to_apply)
  = jobs db_to_apply
  /\ application_history
       (db_after (JobApply.execute no_name preview_call env_apply) db_to_apply)
     = []
  /\ exists a,
       applications (db_after (JobApply.execute no_name preview_call env_apply)
                       db_to_apply) = [a]
       /\ app_status a = ApplicationStatus.pending.
Proof.
  destruct (unconfirmed_call_submits_nothing no_name preview_call env_apply db_to_apply)
    as (J & H & _ & _ & _).
  - right. discriminate.
  - split; [exact J|]. split; [exact H|]. eexists. split; reflexivity.
Defined.

Lemma updateJobStatus_jobs id st d :
  jobs (db_after (updateJobStatus id st) d)
  = map (fun r => if String.eqb (job_id r) id then set_job_status st r else r) (jobs d).
Proof. reflexivity. Qed.

(** The state after the status updates of a submission that came to its
    end. *)
Lemma submitted_state (params : JobApply.ApplyParams) (env : JobApply.Env)
    (id : string) (d : Db) :
  match application_of d id with
  | Some _ => existsb (fun h => String.eqb (hist_id h) (JobApply.historyId env))
                (application_history d)
  | None => false
  end = false ->
  reported (submit_steps params env id) d
  = (Ok (JobApply.submitted id),
     db_after (reported (submit_steps params env id)) d)
  /\ jobs (db_after (reported (submit_steps params env id)) d)
     = map (fun r => if String.eqb (job_id r) (JobApply.ap_job_id params)
                     then set_job_status JobStatus.applied r else r) (jobs d)
  /\ applications (db_after (reported (submit_steps params env id)) d)
     = map (status_row_update id ApplicationStatus.submitted
              (JobApply.now_submit env)) (applications d)
  /\ application_history (db_after (reported (submit_steps params env id)) d)
     = application_history
         (db_after (updateApplicationStatus id ApplicationStatus.submitted
                      (Some "Application submitted successfully")
                      (JobApply.now_submit env) (JobApply.historyId env)) d).
Proof.
  intros C. split; [|split; [|split]].
  - unfold db_after. rewrite submit_steps_run, C. reflexivity.
  - unfold db_after at 1. rewrite submit_steps_run, C. cbn [snd].
    rewrite updateJobStatus_jobs.
    destruct (updateApplicationStatus_frame id ApplicationStatus.submitted
                (Some "Application submitted successfully")
                (JobApply.now_submit env) (JobApply.historyId env) d) as (-> & _).
    reflexivity.
  - apply submit_steps_applications.
  - unfold db_after at 1. rewrite submit_steps_run, C. reflexivity.
Qed.

Lemma find_job_id (id : string) (rows : list JobRow) (job : JobRow) :
  find (fun r => String.eqb (job_id r) id) rows = Some job -> job_id job = id.
Proof. intros F. apply find_some in F. apply String.eqb_eq. apply F. Qed.

Lemma find_job_after_status (id : string) (st : JobStatus.t) (rows : list JobRow) :
  find (fun r => String.eqb (job_id r) id)
    (map (fun r => if String.eqb (job_id r) id then set_job_status st r else r) rows)
  = option_map (set_job_status st) (find (fun r => String.eqb (job_id r) id) rows).
Proof.
  induction rows as [|r rows IH]; [reflexivity|]. cbn [map find].
  destruct (String.eqb (job_id r) id) eqn:E.
  - cbn [job_id set_job_status]. rewrite E. reflexivity.
  - rewrite E. exact IH.
Qed.

Lemma find_app_after_status (id : string) (now : Z) (rows : list ApplicationRow) :
  find (fun r => String.eqb (app_id r) id)
    (map (status_row_update id ApplicationStatus.submitted now) rows)
  = option_map (set_application_status ApplicationStatus.submitted now (Some now))
      (find (fun r => String.eqb (app_id r) id) rows).
Proof.
  rewrite (find_map_same_key app_id) by (intros r; apply status_row_update_id).
  destruct (find _ rows) as [r|] eqn:F; [|reflexivity].
  apply find_some in F. destruct F as [_ E]. cbn [option_map].
  unfold status_row_update. rewrite E. reflexivity.
Qed.

(** X23. A confirmed call for a job that has no application yet submits
    one.  With the job and a resume found and fresh identifiers, the tool
    reports "submitted"; the new application is stored in status
    "submitted" with the time of the submission as its application time,
    with the resume and the cover letter of the call; the job is marked
    "applied"; and the history gets the one record from "pending" to
    "submitted". *)
Theorem confirmed_call_submits
    (fullName : string -> option string) (params : JobApply.ApplyParams)
    (env : JobApply.Env) (db : Db) (job : JobRow) (resume : ResumeRow) :
  outcome (getJob (JobApply.ap_job_id params)) db = Ok (Some job) ->
  outcome (getApplicationByJobId (JobApply.ap_job_id params)) db = Ok None ->
  resume_for params db = Some resume ->
  JobApply.ap_confirm params = Some true ->
  JobApply.ap_dry_run params <> Some true ->
  ~ In (JobApply.id_create env) (map app_id (applications db)) ->
  ~ In (JobApply.historyId env) (map hist_id (application_history db)) ->
  outcome (JobApply.execute fullName params env) db
  = Ok (JobApply.submitted (JobApply.id_create env))
  /\ outcome (getApplication (JobApply.id_create env))
       (db_after (JobApply.execute fullName params env) db)
     = Ok (Some (mkApplicationRow (JobApply.id_create env) (JobApply.ap_job_id params)
                   ApplicationStatus.submitted (Some (JobApply.now_submit env))
                   (Some (res_id resume))
                   (Some (letter_for fullName params job resume))
                   (JobApply.ap_answers params) None
                   (JobApply.now_submit env) (JobApply.now_create env)
                   (JobApply.now_submit env)))
  /\ outcome (getJob (JobApply.ap_job_id params))
       (db_after (JobApply.execute fullName params env) db)
     = Ok (Some (set_job_status JobStatus.applied job))
  /\ application_history (db_after (JobApply.execute fullName params env) db)
     = application_history db
       ++ [mkApplicationHistoryRow (JobApply.historyId env) (JobApply.id_create env)
             (Some ApplicationStatus.pending) ApplicationStatus.submitted
             (JobApply.now_submit env) (Some "Application submitted successfully")].
Proof.
  intros Hj Ha Hr Hc Hd Fa Fh.
  unfold outcome, getJob, getApplicationByJobId, query in Hj, Ha. cbn [fst] in Hj, Ha.
  injection Hj as Hj. injection Ha as Ha.
  set (new := new_application fullName params env job resume None).
  set (d := set_applications db (applications db ++ [new])).
  assert (Run : JobApply.execute fullName params env db
                = reported (submit_steps params env (JobApply.id_create env)) d).
  { rewrite execute_run, Hj, Ha, Hr, (existsb_fresh app_id _ _ Fa),
      (wants_preview_confirmed params Hc Hd). reflexivity. }
  assert (Found : application_of d (JobApply.id_create env) = Some new).
  { unfold application_of, d. cbn [applications set_applications].
    apply find_app_fresh.
    - apply find_none_of_not_in. exact Fa.
    - cbn. apply String.eqb_refl. }
  assert (C : match application_of d (JobApply.id_create env) with
              | Some _ => existsb (fun h => String.eqb (hist_id h) (JobApply.historyId env))
                            (application_history d)
              | None => false
              end = false).
  { rewrite Found. exact (existsb_fresh hist_id _ _ Fh). }
  destruct (submitted_state params env (JobApply.id_create env) d C)
    as (R & J & A & Hi).
  unfold outcome, db_after. rewrite Run.
  fold (db_after (reported (submit_steps params env (JobApply.id_create env))) d).
  rewrite R. cbn [fst snd]. split; [reflexivity|]. split; [|split].
  - unfold getApplication, query. cbn [fst]. rewrite A, find_app_after_status.
    fold (application_of d (JobApply.id_create env)). rewrite Found. reflexivity.
  - unfold getJob, query. cbn [fst]. rewrite J, find_job_after_status.
    unfold d. cbn [jobs set_applications]. rewrite Hj. reflexivity.
  - rewrite Hi. rewrite updateApplicationStatus_history by exact Fh.
    rewrite Found. reflexivity.
Qed.

Lemma confirmed_call_submits_witness :
  outcome (JobApply.execute no_name confirm_call env_apply) db_to_apply
  = Ok (JobApply.submitted "a1")
  /\ outcome (getApplication "a1")
       (db_after (JobApply.execute no_name confirm_call env_apply) db_to_apply)
     = Ok (Some (mkApplicationRow "a1" "j1" ApplicationStatus.submitted (Some 101)
                   (Some "r1") (Some "Another letter") None None 101 100 101)).
Proof.
  destruct (confirmed_call_submits no_name confirm_call env_apply db_to_apply
              (mkJobRow "j1" None indeed "Acme Corp" "Software Engineer" None None None
                 (Some "USD") None None None "https://example.com/job" None 10
                 JobStatus.new None)
              (mkResumeRow "r1" "Resume 1" "/path/to/1.pdf" pdf None 1 10 10))
    as (O & A & _).
  - reflexivity.
  - reflexivity.
  - reflexivity.
  - reflexivity.
  - discriminate.
  - intros [].
  - intros [].
  - split; [exact O|exact A].
Defined.

(** X24. A confirmed call for a job whose application is still pending
    submits that application as it is stored.  No second application is
    created; the stored one keeps its resume, its cover letter, its answers
    and its notes, and only gets the status "submitted" and the times of
    the submission: a cover letter, a resume or answers passed with the
    confirmation are not stored. *)
Theorem confirmation_submits_the_stored_application
    (fullName : string -> option string) (params : JobApply.ApplyParams)
    (env : JobApply.Env) (db : Db) (job : JobRow) (resume : ResumeRow)
    (a : ApplicationRow) :
  outcome (getJob (JobApply.ap_job_id params)) db = Ok (Some job) ->
  outcome (getApplicationByJobId (JobApply.ap_job_id params)) db = Ok (Some a) ->
  app_status a = ApplicationStatus.pending ->
  resume_for params db = Some resume ->
  JobApply.ap_confirm params = Some true ->
  JobApply.ap_dry_run params <> Some true ->
  NoDup (map app_id (applications db)) ->
  ~ In (JobApply.historyId env) (map hist_id (application_history db)) ->
  outcome (JobApply.execute fullName params env) db
  = Ok (JobApply.submitted (app_id a))
  /\ outcome (getApplication (app_id a))
       (db_after (JobApply.execute fullName params env) db)
     = Ok (Some (mkApplicationRow (app_id a) (app_job_id a)
                   ApplicationStatus.submitted
                   (coalesce (app_applied_at a) (Some (JobApply.now_submit env)))
                   (app_resume_id a) (app_cover_letter a) (app_answers a)
                   (app_notes a) (JobApply.now_submit env) (app_created_at a)
                   (JobApply.now_submit env)))
  /\ map app_id (applications (db_after (JobApply.execute fullName params env) db))
     = map app_id (applications db)
  /\ outcome (getJob (JobApply.ap_job_id params))
       (db_after (JobApply.execute fullName params env) db)
     = Ok (Some (set_job_status JobStatus.applied job)).
Proof.
  intros Hj Ha Hp Hr Hc Hd Nd Fh.
  unfold outcome, getJob, getApplicationByJobId, query in Hj, Ha. cbn [fst] in Hj, Ha.
  injection Hj as Hj. injection Ha as Ha.
  assert (P : JobApply.is_pending a = true)
    by (unfold JobApply.is_pending; rewrite Hp; reflexivity).
  assert (Run : JobApply.execute fullName params env db
                = reported (submit_steps params env (app_id a)) db).
  { rewrite execute_run, Hj, Ha, P, Hr, (wants_preview_confirmed params Hc Hd).
    reflexivity. }
  assert (Found : application_of db (app_id a) = Some a).
  { unfold application_of. apply find_NoDup; [exact Nd|].
    apply find_some in Ha. apply Ha. }
  assert (C : match application_of db (app_id a) with
              | Some _ => existsb (fun h => String.eqb (hist_id h) (JobApply.historyId env))
                            (application_history db)
              | None => false
              end = false).
  { rewrite Found. exact (existsb_fresh hist_id _ _ Fh). }
  destruct (submitted_state params env (app_id a) db C) as (R & J & A & _).
  unfold outcome, db_after. rewrite Run.
  fold (db_after (reported (submit_steps params env (app_id a))) db).
  rewrite R. cbn [fst snd]. split; [reflexivity|]. split; [|split].
  - unfold getApplication, query. cbn [fst]. rewrite A, find_app_after_status.
    fold (application_of db (app_id a)). rewrite Found. reflexivity.
  - rewrite A. apply status_row_update_ids.
  - unfold getJob, query. cbn [fst]. rewrite J, find_job_after_status, Hj. reflexivity.
Qed.

Lemma confirmation_submits_the_stored_application_witness :
  outcome (getApplication "a1")
    (db_after (JobApply.execute no_name confirm_call env_apply_later)
       (db_after (JobApply.execute no_name preview_call env_apply) db_to_apply))
  = Ok (Some (mkApplicationRow "a1" "j1" ApplicationStatus.submitted (Some 201)
                (Some "r1") (Some "Dear team") None (Some "Pending user confirmation")
                201 100 201)).
Proof.
  destruct (confirmation_submits_the_stored_application no_name confirm_call
              env_apply_later
              (db_after (JobApply.execute no_name preview_call env_apply) db_to_apply)
              (mkJobRow "j1" None indeed "Acme Corp" "Software Engineer" None None None
                 (Some "USD") None None None "https://example.com/job" None 10
                 JobStatus.new None)
              (mkResumeRow "r1" "Resume 1" "/path/to/1.pdf" pdf None 1 10 10)
              (mkApplicationRow "a1" "j1" ApplicationStatus.pending None (Some "r1")
                 (Some "Dear team") None (Some "Pending user confirmation")
                 100 100 100))
    as (_ & A & _).
  - reflexivity.
  - reflexivity.
  - reflexivity.
  - reflexivity.
  - reflexivity.
  - discriminate.
  - vm_compute. constructor; [intros []|constructor].
  - vm_compute. intros [].
  - exact A.
Defined.

(** X25. A job is applied to once.  After the tool has reported
    "submitted" for a job, every further call for that job, confirmed or
    not, with whatever resume and cover letter, reports "already applied"
    with the submitted application and writes nothing. *)
Theorem second_application_is_refused
    (fullName : string -> option string) (params : JobApply.ApplyParams)
    (env : JobApply.Env) (db : Db) (id : string)
    (fullName' : string -> option string) (params' : JobApply.ApplyParams)
    (env' : JobApply.Env) :
  outcome (JobApply.execute fullName params env) db = Ok (JobApply.submitted id) ->
  JobApply.ap_job_id params' = JobApply.ap_job_id params ->
  exists a,
    JobApply.execute fullName' params' env'
      (db_after (JobApply.execute fullName params env) db)
    = (Ok (JobApply.already_applied a),
       db_after (JobApply.execute fullName params env) db)
    /\ app_id a = id
    /\ app_status a = ApplicationStatus.submitted.
Proof.
  intros H Ej. unfold outcome in H. unfold db_after at 1 2.
  rewrite (execute_run fullName params env db) in H |- *.
  destruct (find _ (jobs db)) as [job|] eqn:Hj; [|discriminate H].
  assert (Fin : forall (a0 : ApplicationRow) (d : Db),
            jobs d = jobs db ->
            find (fun r => String.eqb (app_job_id r) (JobApply.ap_job_id params))
              (applications d) = Some a0 ->
            fst (reported (submit_steps params env (app_id a0)) d)
            = Ok (JobApply.submitted id) ->
            exists a,
              JobApply.execute fullName' params' env'
                (snd (reported (submit_steps params env (app_id a0)) d))
              = (Ok (JobApply.already_applied a),
                 snd (reported (submit_steps params env (app_id a0)) d))
              /\ app_id a = id /\ app_status a = ApplicationStatus.submitted).
  { intros a0 d Jd Fa S. rewrite submit_steps_run in S.
    destruct (match application_of d (app_id a0) with
              | Some _ => _ | None => false end) eqn:C; [discriminate S|].
    injection S as S.
    destruct (submitted_state params env (app_id a0) d C) as (_ & J & A & _).
    fold (db_after (reported (submit_steps params env (app_id a0))) d).
    exists (status_row_update (app_id a0) ApplicationStatus.submitted
              (JobApply.now_submit env) a0).
    split; [|split].
    - rewrite execute_run, Ej, J, A, find_job_after_status, Jd, Hj. cbn [option_map].
      rewrite (find_map_same_key app_job_id).
      2:{ intros r. unfold status_row_update.
          destruct (String.eqb (app_id r) (app_id a0)); reflexivity. }
      rewrite Fa. cbn [option_map]. unfold status_row_update at 1.
      rewrite String.eqb_refl. reflexivity.
    - rewrite status_row_update_id. exact S.
    - unfold status_row_update. rewrite String.eqb_refl. reflexivity. }
  destruct (find _ (applications db)) as [a0|] eqn:Fa.
  - destruct (JobApply.is_pending a0); [|discriminate H].
    destruct (resume_for params db) as [resume|]; [|discriminate H].
    destruct (wants_preview params); [discriminate H|].
    apply (Fin a0 db eq_refl Fa H).
  - destruct (resume_for params db) as [resume|]; [|discriminate H].
    destruct (existsb _ (applications db)); [discriminate H|].
    destruct (wants_preview params); [discriminate H|].
    apply (Fin (new_application fullName params env job resume None)
             (set_applications db
                (applications db ++ [new_application fullName params env job resume None]))
             eq_refl); [|exact H].
    cbn [applications set_applications]. apply find_app_fresh; [exact Fa|].
    cbn. apply String.eqb_refl.
Qed.

Lemma second_application_is_refused_witness :
  exists a,
    JobApply.execute no_name preview_call env_apply_later
      (db_after (JobApply.execute no_name confirm_call env_apply) db_to_apply)
    = (Ok (JobApply.already_applied a),
       db_after (JobApply.execute no_name confirm_call env_apply) db_to_apply)
    /\ app_id a = "a1"
    /\ app_status a = ApplicationStatus.submitted.
Proof.
  apply (second_application_is_refused no_name confirm_call env_apply db_to_apply "a1");
    reflexivity.
Defined.

(** X26. The apply tool never raises, and its refusals write nothing: every
    call ends with a report; it reports "job not found" exactly when the
    job id names no job; and with "job not found", "already applied" or "no
    resume" the database is as it was. *)
Theorem refusals_write_nothing
    (fullName : string -> option string) (params : JobApply.ApplyParams)
    (env : JobApply.Env) (db : Db) :
  exists d,
    outcome (JobApply.execute fullName params env) db = Ok d
    /\ (d = JobApply.job_not_found <->
        outcome (getJob (JobApply.ap_job_id params)) db = Ok None)
    /\ (d = JobApply.job_not_found \/ d = JobApply.no_resume
        \/ (exists a, d = JobApply.already_applied a) ->
        db_after (JobApply.execute fullName params env) db = db).
Proof.
  assert (S : forall id d,
            exists r, fst (reported (submit_steps params env id) d) = Ok r
                      /\ r <> JobApply.job_not_found /\ r <> JobApply.no_resume
                      /\ forall a, r <> JobApply.already_applied a).
  { intros id d. rewrite submit_steps_run.
    destruct (match application_of d id with Some _ => _ | None => false end);
      eexists; (split; [reflexivity|]); repeat split; try discriminate;
      intros a; discriminate. }
  unfold outcome, db_after, getJob, query. rewrite execute_run. cbn [fst].
  destruct (find _ (jobs db)) as [job|].
  - assert (N : forall d : JobApply.Details,
              d <> JobApply.job_not_found ->
              (d = JobApply.job_not_found <-> Ok (Some job) = Ok (@None JobRow)))
      by (intros d Hd; split; [contradiction|discriminate]).
    destruct (find _ (applications db)) as [a|].
    + destruct (JobApply.is_pending a).
      * destruct (resume_for params db) as [resume|].
        -- destruct (wants_preview params).
           ++ eexists. split; [reflexivity|]. split; [apply N; discriminate|].
              reflexivity.
           ++ destruct (S (app_id a) db) as (r & E & N1 & N2 & N3).
              exists r. split; [exact E|]. split; [apply N; exact N1|].
              intros [H|[H|[x H]]]; [contradiction|contradiction|].
              exfalso. exact (N3 x H).
        -- eexists. split; [reflexivity|]. split; [apply N; discriminate|].
           reflexivity.
      * eexists. split; [reflexivity|]. split; [apply N; discriminate|]. reflexivity.
    + destruct (resume_for params db) as [resume|].
      * destruct (existsb _ (applications db)).
        -- eexists. split; [reflexivity|]. split; [apply N; discriminate|].
           reflexivity.
        -- destruct (wants_preview params).
           ++ eexists. split; [reflexivity|]. split; [apply N; discriminate|].
              intros [H|[H|[x H]]]; discriminate H.
           ++ match goal with
              | |- context [reported (submit_steps params env ?i) ?d] =>
                  destruct (S i d) as (r & E & N1 & N2 & N3)
              end.
              exists r. split; [exact E|]. split; [apply N; exact N1|].
              intros [H|[H|[x H]]]; [contradiction|contradiction|].
              exfalso. exact (N3 x H).
      * eexists. split; [reflexivity|]. split; [apply N; discriminate|]. reflexivity.
  - eexists. split; [reflexivity|]. split; [|reflexivity].
    split; reflexivity.
Qed.

(* ===================================================================== *)
(** ** Uploads of the resume tool *)
(* ===================================================================== *)

Lemma sort_nil {A : Type} (le : A -> A -> bool) (l : list A) :
  Js.sort le l = [] -> l = [].
Proof.
  intros E. pose proof (sort_perm le l) as P. rewrite E in P.
  apply Permutation_sym, Permutation_nil in P. exact P.
Qed.

Lemma default_none (db : Db) :
  default_count db = 0 -> find (fun r => res_is_default r =? 1) (resumes db) = None.
Proof.
  intros C. destruct (find _ (resumes db)) as [r|] eqn:F; [|reflexivity].
  apply find_some in F. destruct F as [Hin D].
  pose proof (count_some (fun r => res_is_default r =? 1) _ r Hin D) as G.
  unfold default_count in C. lia.
Qed.

(** An upload, once the file is accepted and copied. *)
Lemma handleUpload_run (filePath customName : option string)
    (env : ResumeManage.UploadEnv) (db : Db) (path : string) (fileType : FileType) :
  Js.nonempty filePath = Some path ->
  ResumeManage.existsSync env = true ->
  ResumeManage.validTypes (Js.toLowerCase (ResumeManage.extname env)) = Some fileType ->
  ResumeManage.copy_ok env = true ->
  ResumeManage.handleUpload filePath customName env db
  = match resumes db with
    | [] =>
        (Ok (ResumeManage.uploaded
               (mkResumeRow (ResumeManage.upload_id env)
                  (nullish customName (ResumeManage.basename env))
                  (ResumeManage.destPath env) fileType
                  (Some (ResumeManage.parsedData env)) 1
                  (ResumeManage.upload_now env) (ResumeManage.upload_now env))
               true),
         set_resumes db
           [mkResumeRow (ResumeManage.upload_id env)
              (nullish customName (ResumeManage.basename env))
              (ResumeManage.destPath env) fileType
              (Some (ResumeManage.parsedData env)) 1
              (ResumeManage.upload_now env) (ResumeManage.upload_now env)])
    | _ :: _ =>
        if existsb (fun x => String.eqb (res_id x) (ResumeManage.upload_id env))
             (resumes db)
        then (Throw (ConstraintPrimaryKey "resumes"), db)
        else (Ok (ResumeManage.uploaded
                    (mkResumeRow (ResumeManage.upload_id env)
                       (nullish customName (ResumeManage.basename env))
                       (ResumeManage.destPath env) fileType
                       (Some (ResumeManage.parsedData env)) 0
                       (ResumeManage.upload_now env) (ResumeManage.upload_now env))
                    false),
              set_resumes db
                (resumes db
                 ++ [mkResumeRow (ResumeManage.upload_id env)
                       (nullish customName (ResumeManage.basename env))
                       (ResumeManage.destPath env) fileType
                       (Some (ResumeManage.parsedData env)) 0
                       (ResumeManage.upload_now env) (ResumeManage.upload_now env)]))
    end.
Proof.
  intros Hp He Ht Hc. unfold ResumeManage.handleUpload.
  rewrite Hp, He, Ht, Hc. cbn [negb].
  unfold bind at 1, listResumes, query.
  destruct (resumes db) as [|r0 rows] eqn:R.
  - cbn [Js.sort]. unfold bind, createResume, clear_defaults, bind, run, sql_insert, ret.
    cbn [nullish p_isDefault]. cbn. rewrite R. reflexivity.
  - destruct (Js.sort by_default_then_recent (r0 :: rows)) as [|s0 srows] eqn:S;
      [apply sort_nil in S; discriminate S|].
    unfold bind, createResume, bind, sql_insert, ret.
    cbn [nullish p_isDefault res_id p_name p_filePath p_fileType p_parsedData].
    rewrite R. destruct (existsb _ (r0 :: rows)); reflexivity.
Qed.

(** X27. An upload makes the new resume the default exactly when the store
    holds no resume.  When the resume tool stores an upload, the resume is
    added at the end of the table and can be fetched by its id; it is the
    default if and only if the table was empty; and otherwise the default,
    or the lack of one, stays as it was. *)
Theorem upload_is_default_only_in_an_empty_store
    (filePath customName : option string) (env : ResumeManage.UploadEnv) (db : Db)
    (resume : ResumeRow) (isDefault : bool) :
  outcome (ResumeManage.handleUpload filePath customName env) db
  = Ok (ResumeManage.uploaded resume isDefault) ->
  (isDefault = true <-> resumes db = [])
  /\ res_is_default resume = (if isDefault then 1 else 0)
  /\ resumes (db_after (ResumeManage.handleUpload filePath customName env) db)
     = resumes db ++ [resume]
  /\ outcome (getResume (res_id resume))
       (db_after (ResumeManage.handleUpload filePath customName env) db)
     = Ok (Some resume)
  /\ default_count (db_after (ResumeManage.handleUpload filePath customName env) db)
     = (if isDefault then 1 else default_count db).
Proof.
  intros H. unfold outcome in H. unfold outcome, db_after.
  destruct (Js.nonempty filePath) as [path|] eqn:Hp.
  2:{ unfold ResumeManage.handleUpload in H. rewrite Hp in H. discriminate H. }
  destruct (ResumeManage.existsSync env) eqn:He.
  2:{ unfold ResumeManage.handleUpload in H. rewrite Hp, He in H. discriminate H. }
  destruct (ResumeManage.validTypes (Js.toLowerCase (ResumeManage.extname env)))
    as [fileType|] eqn:Ht.
  2:{ unfold ResumeManage.handleUpload in H. rewrite Hp, He, Ht in H. discriminate H. }
  destruct (ResumeManage.copy_ok env) eqn:Hc.
  2:{ unfold ResumeManage.handleUpload in H. rewrite Hp, He, Ht, Hc in H.
      discriminate H. }
  rewrite (handleUpload_run _ _ _ _ _ _ Hp He Ht Hc) in H |- *.
  destruct (resumes db) as [|r0 rows] eqn:R.
  - cbn [fst snd] in H |- *. injection H as <- <-.
    cbn [resumes set_resumes res_id]. repeat split.
    + unfold getResume, query. cbn. rewrite String.eqb_refl. reflexivity.
  - destruct (existsb _ (r0 :: rows)) eqn:X; [discriminate H|].
    cbn [fst snd] in H |- *. injection H as <- <-.
    cbn [resumes set_resumes res_id res_is_default].
    split; [split; discriminate|]. split; [reflexivity|]. split; [reflexivity|]. split.
    + unfold getResume, query. cbn [fst resumes set_resumes].
      rewrite find_app_fresh; [reflexivity| |cbn; apply String.eqb_refl].
      destruct (find _ (r0 :: rows)) as [x|] eqn:F; [|reflexivity].
      apply find_some in F.
      assert (E : existsb (fun x => String.eqb (res_id x) (ResumeManage.upload_id env))
                    (r0 :: rows) = true)
        by (apply existsb_exists; exists x; exact F).
      congruence.
    + unfold default_count. cbn [resumes set_resumes]. rewrite count_app, R.
      unfold Sqlite.count at 2. cbn. lia.
Qed.

Lemma upload_is_default_only_in_an_empty_store_witness :
  default_count
    (db_after (ResumeManage.handleUpload (Some "/home/me/cv.PDF") None upload_example)
       (db_after (deleteResume "r1") db_two_resumes))
  = default_count (db_after (deleteResume "r1") db_two_resumes).
Proof.
  destruct (upload_is_default_only_in_an_empty_store (Some "/home/me/cv.PDF") None
              upload_example (db_after (deleteResume "r1") db_two_resumes)
              (mkResumeRow "r3" "cv" "/resumes/r3.pdf" pdf (Some "{}") 0 30 30) false)
    as (_ & _ & _ & _ & D).
  - reflexivity.
  - exact D.
Defined.

(** The resumes after an upload into a store that holds one: as they were,
    or one more that is not the default. *)
Lemma handleUpload_nonempty (filePath customName : option string)
    (env : ResumeManage.UploadEnv) (db : Db) :
  resumes db <> [] ->
  default_count (db_after (ResumeManage.handleUpload filePath customName env) db)
  = default_count db.
Proof.
  intros Ne. unfold db_after.
  destruct (Js.nonempty filePath) as [path|] eqn:Hp.
  2:{ unfold ResumeManage.handleUpload. rewrite Hp. reflexivity. }
  destruct (ResumeManage.existsSync env) eqn:He.
  2:{ unfold ResumeManage.handleUpload. rewrite Hp, He. reflexivity. }
  destruct (ResumeManage.validTypes (Js.toLowerCase (ResumeManage.extname env)))
    as [fileType|] eqn:Ht.
  2:{ unfold ResumeManage.handleUpload. rewrite Hp, He, Ht. reflexivity. }
  destruct (ResumeManage.copy_ok env) eqn:Hc.
  2:{ unfold ResumeManage.handleUpload. rewrite Hp, He, Ht, Hc. reflexivity. }
  rewrite (handleUpload_run _ _ _ _ _ _ Hp He Ht Hc).
  destruct (resumes db) as [|r0 rows] eqn:R; [congruence|].
  destruct (existsb _ (r0 :: rows)); [reflexivity|].
  unfold default_count. cbn [snd resumes set_resumes]. rewrite count_app, R.
  unfold Sqlite.count at 2. cbn. lia.
Qed.

(** X28. Nothing makes another resume the default when the default one is
    deleted.  After the resume tool has deleted the default resume while
    another resume is stored, there is no default resume, and an upload
    does not bring one: [getDefaultResume] finds none before and after the
    upload, so the apply tool, called without a resume id, finds no resume
    although resumes are stored. *)
Theorem no_default_after_the_default_is_deleted
    (id : string) (r other : ResumeRow) (filePath customName : option string)
    (env : ResumeManage.UploadEnv) (params : JobApply.ApplyParams) (db : Db) :
  resumes_ok db ->
  id <> EmptyString ->
  outcome (getResume id) db = Ok (Some r) ->
  res_is_default r = 1 ->
  In other (resumes db) -> res_id other <> id ->
  Js.nonempty (JobApply.ap_resume_id params) = None ->
  outcome getDefaultResume (db_after (ResumeManage.handleDelete (Some id)) db) = Ok None
  /\ outcome getDefaultResume
       (db_after (ResumeManage.handleUpload filePath customName env)
          (db_after (ResumeManage.handleDelete (Some id)) db)) = Ok None
  /\ resume_for params
       (db_after (ResumeManage.handleUpload filePath customName env)
          (db_after (ResumeManage.handleDelete (Some id)) db)) = None.
Proof.
  intros Hok Hne Hr Hd Hin Hoth Hp.
  unfold outcome, getResume, query in Hr. cbn [fst] in Hr. injection Hr as Hr.
  assert (D : db_after (ResumeManage.handleDelete (Some id)) db
              = db_after (deleteResume id) db).
  { unfold db_after at 1, ResumeManage.handleDelete.
    replace (Js.nonempty (Some id)) with (Some id)
      by (destruct id; [congruence|reflexivity]).
    unfold bind at 1, getResume, query. rewrite Hr. reflexivity. }
  rewrite D.
  assert (C1 : default_count (db_after (deleteResume id) db) = 0).
  { rewrite (deleteResume_default_count id db r Hok Hr), Hd. reflexivity. }
  assert (Ne : resumes (db_after (deleteResume id) db) <> []).
  { assert (I : In other (resumes (db_after (deleteResume id) db))).
    { change (In other (filter (fun x => negb (String.eqb (res_id x) id)) (resumes db))).
      apply filter_In. split; [exact Hin|]. apply negb_true_iff.
      apply String.eqb_neq. exact Hoth. }
    intros E. rewrite E in I. exact I. }
  assert (C2 : default_count
                 (db_after (ResumeManage.handleUpload filePath customName env)
                    (db_after (deleteResume id) db)) = 0).
  { rewrite (handleUpload_nonempty _ _ _ _ Ne). exact C1. }
  split; [|split].
  - unfold outcome, getDefaultResume, query. cbn [fst]. rewrite (default_none _ C1).
    reflexivity.
  - unfold outcome, getDefaultResume, query. cbn [fst]. rewrite (default_none _ C2).
    reflexivity.
  - unfold resume_for. rewrite Hp. apply default_none. exact C2.
Qed.

Lemma no_default_after_the_default_is_deleted_witness :
  outcome getDefaultResume
    (db_after (ResumeManage.handleUpload (Some "/home/me/cv.PDF") None upload_example)
       (db_after (ResumeManage.handleDelete (Some "r1")) db_two_resumes))
  = Ok None.
Proof.
  destruct (no_default_after_the_default_is_deleted "r1"
              (mkResumeRow "r1" "Resume 1" "/path/to/1.pdf" pdf None 1 10 10)
              (mkResumeRow "r2" "Resume 2" "/path/to/2.pdf" pdf None 0 20 20)
              (Some "/home/me/cv.PDF") None upload_example preview_call db_two_resumes)
    as (_ & U & _).
  - split.
    + simpl. constructor; [intros [H|[]]; discriminate H|].
      constructor; [intros []|constructor].
    + unfold default_count, Sqlite.count. simpl. lia.
  - discriminate.
  - reflexivity.
  - reflexivity.
  - simpl. right. left. reflexivity.
  - discriminate.
  - reflexivity.
  - exact U.
Defined.

(* ===================================================================== *)
(** ** The two ways to set the default resume *)
(* ===================================================================== *)

(** X29. The gateway method [jobbot.resumes.setDefault] does not check that
    the id names a resume, as the resume tool does.  For an id that names
    none, the gateway answers with success and no resume, and the store is
    left with every default flag cleared, so with no default resume; the
    tool, for the same id, reports "not found" and changes nothing. *)
Theorem gateway_setDefault_clears_the_default_for_an_unknown_id
    (id : string) (db : Db) :
  id <> EmptyString ->
  ~ In id (map res_id (resumes db)) ->
  outcome (Gateway.resumes_setDefault (Some id)) db = Ok (Gateway.respond_ok None)
  /\ resumes (db_after (Gateway.resumes_setDefault (Some id)) db)
     = map (set_is_default 0) (resumes db)
  /\ outcome getDefaultResume (db_after (Gateway.resumes_setDefault (Some id)) db)
     = Ok None
  /\ ResumeManage.handleSetDefault (Some id) db = (Ok ResumeManage.not_found, db).
Proof.
  intros Hne Hn.
  assert (Ne : Js.nonempty (Some id) = Some id)
    by (destruct id; [congruence|reflexivity]).
  assert (Cleared : map (fun r => if String.eqb (res_id r) id
                                  then set_is_default 1 r else r)
                      (map (set_is_default 0) (resumes db))
                    = map (set_is_default 0) (resumes db)).
  { apply (map_update_absent res_id). rewrite map_res_id_set_is_default. exact Hn. }
  assert (Run : Gateway.resumes_setDefault (Some id) db
                = (Ok (Gateway.respond_ok None),
                   set_resumes db (map (set_is_default 0) (resumes db)))).
  { unfold Gateway.resumes_setDefault, catch. rewrite Ne.
    unfold bind at 1. unfold setDefaultResume, clear_defaults, bind at 1, run.
    cbn [resumes set_resumes]. rewrite Cleared.
    unfold bind, getResume, query, ret. cbn [resumes set_resumes].
    rewrite (find_none_of_not_in res_id).
    - destruct db; reflexivity.
    - rewrite map_res_id_set_is_default. exact Hn. }
  unfold outcome, db_after. rewrite Run. cbn [fst snd resumes set_resumes].
  split; [reflexivity|]. split; [reflexivity|]. split.
  - unfold getDefaultResume, query. cbn [fst].
    rewrite (default_none (set_resumes db (map (set_is_default 0) (resumes db))));
      [reflexivity|].
    unfold default_count. cbn [resumes set_resumes]. apply count_defaults_cleared.
  - unfold ResumeManage.handleSetDefault. rewrite Ne.
    unfold bind, getResume, query. rewrite (find_none_of_not_in res_id _ _ Hn).
    reflexivity.
Qed.

Lemma gateway_setDefault_clears_the_default_for_an_unknown_id_witness :
  outcome getDefaultResume
    (db_after (Gateway.resumes_setDefault (Some "r9")) db_two_resumes) = Ok None
  /\ ResumeManage.handleSetDefault (Some "r9") db_two_resumes
     = (Ok ResumeManage.not_found, db_two_resumes).
Proof.
  destruct (gateway_setDefault_clears_the_default_for_an_unknown_id "r9" db_two_resumes)
    as (_ & _ & G & T).
  - discriminate.
  - simpl. intros [H|[H|[]]]; discriminate H.
  - split; [exact G|exact T].
Defined.
